(** * The Keychain password manager: a shallow embedding

    The source file holds three successive listings of [class Keychain]:

    - lines 1-144: the record container is a JavaScript array ([data = []]),
      records are kept as they are given, [load] compares the [checksum] field
      found inside the parsed representation with the trusted one;
    - lines 149-295: as the first, with another [load]/[dump] layout;
    - lines 298-500: names and values are Base64-encoded, [dump] runs the
      container through AES-256-GCM, [load] recomputes a SHA-256 digest.

    The first listing is embedded in [Module Keychain1], the second in
    [Module Keychain2], the third in [Module Keychain3].  What the listings
    take from the JavaScript runtime (property access with the prototype
    chain, [JSON.stringify], [JSON.parse], Base64 and hex codecs) is written
    out below; the primitives of Node's [crypto] module are the fields of
    [NodeCrypto].

    Strings are modelled by their UTF-8 bytes ([string]); a [Buffer] is a list
    of bytes. *)

From Stdlib Require Import List String Ascii Bool NArith ZArith Lia.
From Stdlib Require Import DecimalString.
From Stdlib Require DecimalN.
Import ListNotations.
Open Scope string_scope.
Set Warnings "-register-all".

Definition bytes : Type := list ascii.

(** ** Outcomes of a call *)

Inductive JSError : Type :=
| JsError (msg : string)       (* [throw new Error(msg)] written in the source *)
| JsTypeError (msg : string)   (* [throw new TypeError(msg)] written in the source *)
| EngineTypeError              (* a TypeError raised by the runtime *)
| EngineRangeError             (* a RangeError raised by the runtime *)
| EngineSyntaxError            (* [JSON.parse] on text that is not JSON *)
| CipherError.                 (* raised by [createDecipheriv] or [decipher.final] *)

(** [Unmodelled] marks the few corners of the runtime that the embedding does
    not follow (number literals with a fraction, indexing into a string
    primitive, ...); nothing is claimed about them. *)
Inductive Outcome (A : Type) : Type :=
| Returns (a : A)
| Throws (e : JSError)
| Unmodelled.

Arguments Returns {A} a.
Arguments Throws {A} e.
Arguments Unmodelled {A}.

Definition bind {A B : Type} (m : Outcome A) (f : A -> Outcome B) : Outcome B :=
  match m with
  | Returns a => f a
  | Throws e => Throws e
  | Unmodelled => Unmodelled
  end.

Notation "x <- m ;; k" := (bind m (fun x => k))
  (at level 61, m at next level, right associativity).

(** ** JavaScript values *)

Module JS.

(** An array is its [length] and its own properties (index names and other
    names alike, in creation order); an object is its own properties.
    [JBuiltin] stands for a function or object of the standard library that a
    property read reaches through the prototype chain. *)
Inductive JSValue : Type :=
| JUndefined
| JNull
| JBool (b : bool)
| JNum (n : Z)
| JStr (s : string)
| JArr (len : N) (props : list (string * JSValue))
| JObj (props : list (string * JSValue))
| JBuiltin (path : string).

Definition Props : Type := list (string * JSValue).

Fixpoint lookup {V : Type} (k : string) (ps : list (string * V)) : option V :=
  match ps with
  | [] => None
  | (k', v) :: r => if (k' =? k)%string then Some v else lookup k r
  end.

(** Assignment to an own property: an existing one keeps its place. *)
Fixpoint upsert {V : Type} (k : string) (v : V) (ps : list (string * V))
  : list (string * V) :=
  match ps with
  | [] => [(k, v)]
  | (k', v') :: r =>
      if (k' =? k)%string then (k', v) :: r else (k', v') :: upsert k v r
  end.

Fixpoint erase {V : Type} (k : string) (ps : list (string * V))
  : list (string * V) :=
  match ps with
  | [] => []
  | (k', v') :: r =>
      if (k' =? k)%string then erase k r else (k', v') :: erase k r
  end.

Definition N_to_string (n : N) : string := NilZero.string_of_uint (N.to_uint n).

(** An array index is the canonical decimal name of an integer below 2^32-1. *)
Definition array_index (name : string) : option N :=
  match NilZero.uint_of_string name with
  | Some u =>
      let n := N.of_uint u in
      if ((N_to_string n =? name)%string && (n <? 4294967295)%N)%bool
      then Some n else None
  | None => None
  end.

(** Names reachable through the prototype chain (ECMAScript 2023). *)
Definition Object_prototype : list string :=
  [ "constructor"; "hasOwnProperty"; "isPrototypeOf"; "propertyIsEnumerable";
    "toLocaleString"; "toString"; "valueOf"; "__defineGetter__";
    "__defineSetter__"; "__lookupGetter__"; "__lookupSetter__"; "__proto__" ].

Definition Array_prototype : list string :=
  [ "at"; "concat"; "constructor"; "copyWithin"; "entries"; "every"; "fill";
    "filter"; "find"; "findIndex"; "findLast"; "findLastIndex"; "flat";
    "flatMap"; "forEach"; "includes"; "indexOf"; "join"; "keys";
    "lastIndexOf"; "map"; "pop"; "push"; "reduce"; "reduceRight"; "reverse";
    "shift"; "slice"; "some"; "sort"; "splice"; "toLocaleString";
    "toReversed"; "toSorted"; "toSpliced"; "toString"; "unshift"; "values";
    "with" ].

Definition String_prototype : list string :=
  [ "anchor"; "at"; "big"; "blink"; "bold"; "charAt"; "charCodeAt";
    "codePointAt"; "concat"; "constructor"; "endsWith"; "fixed"; "fontcolor";
    "fontsize"; "includes"; "indexOf"; "isWellFormed"; "italics";
    "lastIndexOf"; "link"; "localeCompare"; "match"; "matchAll"; "normalize";
    "padEnd"; "padStart"; "repeat"; "replace"; "replaceAll"; "search";
    "slice"; "small"; "split"; "startsWith"; "strike"; "sub"; "substr";
    "substring"; "sup"; "toLocaleLowerCase"; "toLocaleUpperCase";
    "toLowerCase"; "toString"; "toUpperCase"; "toWellFormed"; "trim";
    "trimEnd"; "trimLeft"; "trimRight"; "trimStart"; "valueOf" ].

Definition Number_prototype : list string :=
  [ "constructor"; "toExponential"; "toFixed"; "toLocaleString";
    "toPrecision"; "toString"; "valueOf" ].

Definition Boolean_prototype : list string :=
  [ "constructor"; "toString"; "valueOf" ].

Definition mem (s : string) (l : list string) : bool :=
  existsb (fun x => (x =? s)%string) l.

(** The value found along a chain of prototypes, [undefined] at its end. *)
Fixpoint inherited (chain : list (string * list string)) (name : string) : JSValue :=
  match chain with
  | [] => JUndefined
  | (owner, names) :: up =>
      if mem name names then JBuiltin (owner ++ "." ++ name)
      else inherited up name
  end.

Definition object_chain : list (string * list string) :=
  [ ("Object.prototype", Object_prototype) ].
Definition array_chain : list (string * list string) :=
  ("Array.prototype", Array_prototype) :: object_chain.
Definition string_chain : list (string * list string) :=
  ("String.prototype", String_prototype) :: object_chain.
Definition number_chain : list (string * list string) :=
  ("Number.prototype", Number_prototype) :: object_chain.
Definition boolean_chain : list (string * list string) :=
  ("Boolean.prototype", Boolean_prototype) :: object_chain.

(** Reading, writing and deleting a property of an ordinary object. *)
Definition obj_get (props : Props) (name : string) : JSValue :=
  match lookup name props with
  | Some v => v
  | None => inherited object_chain name
  end.

(** Without an own property of that name, [__proto__] is the inherited
    accessor, whose setter ignores a string. *)
Definition obj_put (props : Props) (name : string) (value : string) : Props :=
  match lookup name props with
  | Some _ => upsert name (JStr value) props
  | None =>
      if (name =? "__proto__")%string then props
      else upsert name (JStr value) props
  end.

Definition obj_delete (props : Props) (name : string) : Props := erase name props.

(** [base[name]] as an expression. *)
Definition GetV (base : JSValue) (name : string) : Outcome JSValue :=
  match base with
  | JUndefined | JNull => Throws EngineTypeError
  | JBool _ => Returns (inherited boolean_chain name)
  | JNum _ => Returns (inherited number_chain name)
  | JStr _ =>
      if (name =? "length")%string then Unmodelled
      else match array_index name with
           | Some _ => Unmodelled
           | None => Returns (inherited string_chain name)
           end
  | JArr len props =>
      match lookup name props with
      | Some v => Returns v
      | None =>
          if (name =? "length")%string then Returns (JNum (Z.of_N len))
          else Returns (inherited array_chain name)
      end
  | JObj props => Returns (obj_get props name)
  | JBuiltin _ => Unmodelled
  end.

(** ToBoolean. *)
Definition truthy (v : JSValue) : bool :=
  match v with
  | JUndefined | JNull => false
  | JBool b => b
  | JNum n => negb (n =? 0)%Z
  | JStr s => negb (s =? "")%string
  | JArr _ _ | JObj _ | JBuiltin _ => true
  end.

(** [a === b] for the comparisons the listings make: both operands are
    primitives there, or one is [undefined]. *)
Definition strict_equal (a b : JSValue) : bool :=
  match a, b with
  | JUndefined, JUndefined => true
  | JNull, JNull => true
  | JBool x, JBool y => Bool.eqb x y
  | JNum x, JNum y => (x =? y)%Z
  | JStr x, JStr y => (x =? y)%string
  | _, _ => false
  end.

(** *** Assigning a string to [array.length]

    ToNumber of the string must be an integer below 2^32.  Strings of decimal
    digits and the empty string are followed exactly; a string holding an
    ASCII character that no numeric literal contains converts to NaN. *)
Definition is_digit (c : ascii) : bool :=
  let n := N_of_ascii c in ((48 <=? n) && (n <=? 57))%N%bool.

Definition numeric_char (c : ascii) : bool :=
  let n := N_of_ascii c in
  (is_digit c
   || (128 <=? n)%N
   || existsb (fun d => (N_of_ascii d =? n)%N)
        (list_ascii_of_string
           ("+-.eExXoObBabcdfACDFInity "
            ++ String (ascii_of_N 9) (String (ascii_of_N 10)
               (String (ascii_of_N 11) (String (ascii_of_N 12)
               (String (ascii_of_N 13) EmptyString)))))))%bool.

Definition digits_value (d : list ascii) : N :=
  fold_left (fun acc c => (10 * acc + (N_of_ascii c - 48))%N) d 0%N.

Inductive LengthValue : Type :=
| LenOk (n : N)
| LenInvalid
| LenUnmodelled.

Definition array_length_of_string (s : string) : LengthValue :=
  let cs := list_ascii_of_string s in
  if forallb is_digit cs then
    let n := digits_value cs in
    if (n <? 4294967296)%N then LenOk n else LenInvalid
  else if forallb numeric_char cs then LenUnmodelled
  else LenInvalid.

Definition below (n : N) (p : string * JSValue) : bool :=
  match array_index (fst p) with
  | Some i => (i <? n)%N
  | None => true
  end.

(** [base[name] = value] as a statement of strict-mode code; returns the new
    state of [base]. *)
Definition PutV (base : JSValue) (name : string) (value : string)
  : Outcome JSValue :=
  match base with
  | JUndefined | JNull => Throws EngineTypeError
  | JBool _ | JNum _ | JStr _ =>
      (* the inherited [__proto__] setter ignores a primitive argument; any
         other assignment to a primitive fails in strict mode *)
      if (name =? "__proto__")%string then Returns base
      else Throws EngineTypeError
  | JArr len props =>
      match lookup name props with
      | Some _ => Returns (JArr len (upsert name (JStr value) props))
      | None =>
          if (name =? "length")%string then
            match array_length_of_string value with
            | LenOk n => Returns (JArr n (filter (below n) props))
            | LenInvalid => Throws EngineRangeError
            | LenUnmodelled => Unmodelled
            end
          else if (name =? "__proto__")%string then Returns base
          else
            match array_index name with
            | Some i =>
                Returns (JArr (N.max len (i + 1)) (upsert name (JStr value) props))
            | None => Returns (JArr len (upsert name (JStr value) props))
            end
      end
  | JObj props => Returns (JObj (obj_put props name value))
  | JBuiltin _ => Unmodelled
  end.

(** [delete base[name]] as a statement of strict-mode code. *)
Definition DeleteV (base : JSValue) (name : string) : Outcome JSValue :=
  match base with
  | JUndefined | JNull => Throws EngineTypeError
  | JBool _ | JNum _ => Returns base
  | JStr _ =>
      if (name =? "length")%string then Unmodelled
      else match array_index name with
           | Some _ => Unmodelled
           | None => Returns base
           end
  | JArr len props =>
      match lookup name props with
      | Some _ => Returns (JArr len (erase name props))
      | None =>
          if (name =? "length")%string then Throws EngineTypeError
          else Returns base
      end
  | JObj props => Returns (JObj (obj_delete props name))
  | JBuiltin _ => Unmodelled
  end.

End JS.

(** ** Base64, as [Buffer.prototype.toString('base64')] and
    [Buffer.from(text, 'base64')] *)

Module Base64.

Definition b2n (b : bool) : N := if b then 1%N else 0%N.

(** The number written by six bits, most significant first. *)
Definition sextet (b5 b4 b3 b2 b1 b0 : bool) : N :=
  (32 * b2n b5 + 16 * b2n b4 + 8 * b2n b3 + 4 * b2n b2 + 2 * b2n b1 + b2n b0)%N.

Definition digit (n : N) : ascii :=
  if (n <? 26)%N then ascii_of_N (65 + n)
  else if (n <? 52)%N then ascii_of_N (97 + (n - 26))
  else if (n <? 62)%N then ascii_of_N (48 + (n - 52))
  else if (n =? 62)%N then "+"%char
  else "/"%char.

Definition value (c : ascii) : option N :=
  let n := N_of_ascii c in
  if ((65 <=? n) && (n <=? 90))%N%bool then Some (n - 65)%N
  else if ((97 <=? n) && (n <=? 122))%N%bool then Some (n - 97 + 26)%N
  else if ((48 <=? n) && (n <=? 57))%N%bool then Some (n - 48 + 52)%N
  else if (n =? 43)%N then Some 62%N
  else if (n =? 47)%N then Some 63%N
  else None.

Fixpoint encode_bytes (bs : bytes) : list ascii :=
  match bs with
  | [] => []
  | [Ascii x0 x1 x2 x3 x4 x5 x6 x7] =>
      [ digit (sextet x7 x6 x5 x4 x3 x2);
        digit (sextet x1 x0 false false false false);
        "="%char; "="%char ]
  | [Ascii x0 x1 x2 x3 x4 x5 x6 x7; Ascii y0 y1 y2 y3 y4 y5 y6 y7] =>
      [ digit (sextet x7 x6 x5 x4 x3 x2);
        digit (sextet x1 x0 y7 y6 y5 y4);
        digit (sextet y3 y2 y1 y0 false false);
        "="%char ]
  | Ascii x0 x1 x2 x3 x4 x5 x6 x7 :: Ascii y0 y1 y2 y3 y4 y5 y6 y7
      :: Ascii z0 z1 z2 z3 z4 z5 z6 z7 :: r =>
      digit (sextet x7 x6 x5 x4 x3 x2)
        :: digit (sextet x1 x0 y7 y6 y5 y4)
        :: digit (sextet y3 y2 y1 y0 z7 z6)
        :: digit (sextet z5 z4 z3 z2 z1 z0)
        :: encode_bytes r
  end.

Definition encode (bs : bytes) : string := string_of_list_ascii (encode_bytes bs).

Definition bit (n : N) (i : N) : bool := N.testbit n i.

Definition byte1 (a b : N) : ascii :=
  Ascii (bit b 4) (bit b 5) (bit a 0) (bit a 1) (bit a 2) (bit a 3) (bit a 4) (bit a 5).
Definition byte2 (b c : N) : ascii :=
  Ascii (bit c 2) (bit c 3) (bit c 4) (bit c 5) (bit b 0) (bit b 1) (bit b 2) (bit b 3).
Definition byte3 (c d : N) : ascii :=
  Ascii (bit d 0) (bit d 1) (bit d 2) (bit d 3) (bit d 4) (bit d 5) (bit c 0) (bit c 1).

Definition is_pad (c : ascii) : bool := (N_of_ascii c =? 61)%N.

(** Decoding follows texts in canonical form: groups of four digits, the
    last one padded with [=].  What Node makes of other texts (blanks,
    missing padding, URL-safe digits) is not followed: [None]. *)
Fixpoint decode_chars (cs : list ascii) : option bytes :=
  match cs with
  | [] => Some []
  | a :: b :: c :: d :: r =>
      match value a, value b with
      | Some x, Some y =>
          if (is_pad c && is_pad d)%bool then
            match r with
            | [] => Some [byte1 x y]
            | _ :: _ => None
            end
          else
            match value c with
            | Some z =>
                if is_pad d then
                  match r with
                  | [] => Some [byte1 x y; byte2 y z]
                  | _ :: _ => None
                  end
                else
                  match value d, decode_chars r with
                  | Some w, Some rest =>
                      Some (byte1 x y :: byte2 y z :: byte3 z w :: rest)
                  | _, _ => None
                  end
            | None => None
            end
      | _, _ => None
      end
  | _ => None
  end.

Definition decode (s : string) : option bytes := decode_chars (list_ascii_of_string s).

End Base64.

(** ** Hexadecimal, as [toString('hex')] and [Buffer.from(text, 'hex')] *)

Module Hex.

Definition nibble (b3 b2 b1 b0 : bool) : N :=
  (8 * Base64.b2n b3 + 4 * Base64.b2n b2 + 2 * Base64.b2n b1 + Base64.b2n b0)%N.

Definition digit (n : N) : ascii :=
  if (n <? 10)%N then ascii_of_N (48 + n) else ascii_of_N (97 + (n - 10)).

Definition value (c : ascii) : option N :=
  let n := N_of_ascii c in
  if ((48 <=? n) && (n <=? 57))%N%bool then Some (n - 48)%N
  else if ((97 <=? n) && (n <=? 102))%N%bool then Some (n - 97 + 10)%N
  else if ((65 <=? n) && (n <=? 70))%N%bool then Some (n - 65 + 10)%N
  else None.

Fixpoint encode_bytes (bs : bytes) : list ascii :=
  match bs with
  | [] => []
  | Ascii x0 x1 x2 x3 x4 x5 x6 x7 :: r =>
      digit (nibble x7 x6 x5 x4) :: digit (nibble x3 x2 x1 x0) :: encode_bytes r
  end.

Definition encode (bs : bytes) : string := string_of_list_ascii (encode_bytes bs).

(** Decoding reads pairs of digits and stops at the first pair that is none. *)
Fixpoint decode_chars (cs : list ascii) : bytes :=
  match cs with
  | h :: l :: r =>
      match value h, value l with
      | Some a, Some b =>
          Ascii (N.testbit b 0) (N.testbit b 1) (N.testbit b 2) (N.testbit b 3)
                (N.testbit a 0) (N.testbit a 1) (N.testbit a 2) (N.testbit a 3)
            :: decode_chars r
      | _, _ => []
      end
  | _ => []
  end.

Definition decode (s : string) : option bytes :=
  Some (decode_chars (list_ascii_of_string s)).

Definition is_hex_digit (c : ascii) : bool :=
  let n := N_of_ascii c in
  (((48 <=? n) && (n <=? 57)) || ((97 <=? n) && (n <=? 102)))%N%bool.

End Hex.

(** ** JSON text *)

Module JSON.
Import JS.

Definition dquote : ascii := "034"%char.
Definition backslash : ascii := "092"%char.

(** JSON texts are written below with [']  standing for the double quote. *)
Definition q (s : string) : string :=
  string_of_list_ascii
    (map (fun c => if (N_of_ascii c =? 39)%N then dquote else c)
         (list_ascii_of_string s)).

(** *** JSON.stringify *)

Definition escape_char (c : ascii) : list ascii :=
  let n := N_of_ascii c in
  if (n =? 34)%N then [backslash; dquote]
  else if (n =? 92)%N then [backslash; backslash]
  else if (n =? 8)%N then [backslash; "b"%char]
  else if (n =? 9)%N then [backslash; "t"%char]
  else if (n =? 10)%N then [backslash; "n"%char]
  else if (n =? 12)%N then [backslash; "f"%char]
  else if (n =? 13)%N then [backslash; "r"%char]
  else if (n <? 32)%N then
    [backslash; "u"%char; "0"%char; "0"%char; Hex.digit (n / 16); Hex.digit (n mod 16)]
  else [c].

Definition quote_chars (cs : list ascii) : list ascii :=
  dquote :: (flat_map escape_char cs ++ [dquote])%list.

Definition quote (s : string) : string :=
  string_of_list_ascii (quote_chars (list_ascii_of_string s)).

Definition Z_to_string (n : Z) : string := NilZero.string_of_int (Z.to_int n).

Fixpoint join (sep : string) (l : list string) : string :=
  match l with
  | [] => ""
  | [x] => x
  | x :: r => x ++ sep ++ join sep r
  end.

Definition indices (len : N) : list N := map N.of_nat (seq 0 (N.to_nat len)).

(** An element that is a hole, [undefined] or a function prints as [null]. *)
Definition element (texts : list (string * option string)) (i : N) : string :=
  match lookup (N_to_string i) texts with
  | Some (Some t) => t
  | _ => "null"
  end.

(** Own keys are enumerated with the array indices first, ascending, and the
    other names after them in creation order. *)
Fixpoint insert_index {V : Type} (i : N) (p : string * V)
  (l : list (N * (string * V))) : list (N * (string * V)) :=
  match l with
  | [] => [(i, p)]
  | (j, p') :: r =>
      if (i <? j)%N then (i, p) :: l else (j, p') :: insert_index i p r
  end.

Fixpoint index_keys {V : Type} (ps : list (string * V)) : list (N * (string * V)) :=
  match ps with
  | [] => []
  | p :: r =>
      match array_index (fst p) with
      | Some i => insert_index i p (index_keys r)
      | None => index_keys r
      end
  end.

Definition named_keys {V : Type} (ps : list (string * V)) : list (string * V) :=
  filter (fun p => match array_index (fst p) with Some _ => false | None => true end) ps.

Definition ordered {V : Type} (ps : list (string * V)) : list (string * V) :=
  (map snd (index_keys ps) ++ named_keys ps)%list.

(** A member whose value is [undefined] or a function is left out. *)
Fixpoint members (texts : list (string * option string)) : list string :=
  match texts with
  | [] => []
  | (k, Some t) :: r => (quote k ++ ":" ++ t) :: members r
  | (_, None) :: r => members r
  end.

(** The text that [JSON.stringify(v)] returns, [None] where it returns
    [undefined].  The limits of the engine are not followed: on a value whose
    text is longer than the longest string of the engine, or that is nested
    deeper than its stack allows, the call throws a RangeError where
    [stringify] gives the text. *)
Fixpoint stringify (v : JSValue) : option string :=
  match v with
  | JUndefined | JBuiltin _ => None
  | JNull => Some "null"
  | JBool true => Some "true"
  | JBool false => Some "false"
  | JNum n => Some (Z_to_string n)
  | JStr s => Some (quote s)
  | JArr len props =>
      let texts :=
        (fix each (ps : list (string * JSValue)) : list (string * option string) :=
           match ps with
           | [] => []
           | (k, x) :: r => (k, stringify x) :: each r
           end) props in
      Some ("[" ++ join "," (map (element texts) (indices len)) ++ "]")
  | JObj props =>
      let texts :=
        (fix each (ps : list (string * JSValue)) : list (string * option string) :=
           match ps with
           | [] => []
           | (k, x) :: r => (k, stringify x) :: each r
           end) props in
      Some ("{" ++ join "," (members (ordered texts)) ++ "}")
  end.

(** *** JSON.parse *)

Inductive Parsed (A : Type) : Type :=
| POk (a : A) (rest : list ascii)
| PSyntax
| PUnmodelled.

Arguments POk {A} a rest.
Arguments PSyntax {A}.
Arguments PUnmodelled {A}.

Definition is_ws (c : ascii) : bool :=
  let n := N_of_ascii c in ((n =? 32) || (n =? 9) || (n =? 10) || (n =? 13))%N%bool.

Fixpoint skip_ws (s : list ascii) : list ascii :=
  match s with
  | c :: r => if is_ws c then skip_ws r else s
  | [] => []
  end.

Fixpoint strip_prefix (p s : list ascii) : option (list ascii) :=
  match p, s with
  | [], _ => Some s
  | a :: p', b :: s' => if (a =? b)%char then strip_prefix p' s' else None
  | _ :: _, [] => None
  end.

(** UTF-8 bytes of a code point. *)
Definition utf8 (n : N) : list ascii :=
  if (n <? 128)%N then [ascii_of_N n]
  else if (n <? 2048)%N then
    [ascii_of_N (192 + n / 64); ascii_of_N (128 + n mod 64)]
  else if (n <? 65536)%N then
    [ascii_of_N (224 + n / 4096); ascii_of_N (128 + (n / 64) mod 64);
     ascii_of_N (128 + n mod 64)]
  else
    [ascii_of_N (240 + n / 262144); ascii_of_N (128 + (n / 4096) mod 64);
     ascii_of_N (128 + (n / 64) mod 64); ascii_of_N (128 + n mod 64)].

Definition hex4 (a b c d : ascii) : option N :=
  match Hex.value a, Hex.value b, Hex.value c, Hex.value d with
  | Some x, Some y, Some z, Some w => Some (4096 * x + 256 * y + 16 * z + w)%N
  | _, _, _, _ => None
  end.

Definition simple_escape (e : ascii) : option ascii :=
  let n := N_of_ascii e in
  if (n =? 34)%N then Some dquote
  else if (n =? 92)%N then Some backslash
  else if (n =? 47)%N then Some "/"%char
  else if (n =? 98)%N then Some (ascii_of_N 8)
  else if (n =? 102)%N then Some (ascii_of_N 12)
  else if (n =? 110)%N then Some (ascii_of_N 10)
  else if (n =? 114)%N then Some (ascii_of_N 13)
  else if (n =? 116)%N then Some (ascii_of_N 9)
  else None.

Definition prepend (cs : list ascii) (p : Parsed (list ascii)) : Parsed (list ascii) :=
  match p with
  | POk s rest => POk (cs ++ s)%list rest
  | PSyntax => PSyntax
  | PUnmodelled => PUnmodelled
  end.

(** The characters of a string literal, read after its opening quote.  A
    surrogate escape that has no partner has no UTF-8 form. *)
Fixpoint parse_chars (s : list ascii) : Parsed (list ascii) :=
  match s with
  | [] => PSyntax
  | c :: r =>
      if (N_of_ascii c =? 34)%N then POk [] r
      else if (N_of_ascii c =? 92)%N then
        match r with
        | [] => PSyntax
        | e :: r1 =>
            if (N_of_ascii e =? 117)%N then
              match r1 with
              | h1 :: h2 :: h3 :: h4 :: r2 =>
                  match hex4 h1 h2 h3 h4 with
                  | None => PSyntax
                  | Some n =>
                      if ((n <? 55296) || (57344 <=? n))%N%bool
                      then prepend (utf8 n) (parse_chars r2)
                      else
                        match r2 with
                        | b :: u :: l1 :: l2 :: l3 :: l4 :: r3 =>
                            match hex4 l1 l2 l3 l4 with
                            | Some m =>
                                if ((N_of_ascii b =? 92) && (N_of_ascii u =? 117)
                                    && (n <? 56320) && (56320 <=? m) && (m <? 57344))%N%bool
                                then prepend
                                       (utf8 (65536 + 1024 * (n - 55296) + (m - 56320)))
                                       (parse_chars r3)
                                else PUnmodelled
                            | None => PUnmodelled
                            end
                        | _ => PUnmodelled
                        end
                  end
              | _ => PSyntax
              end
            else
              match simple_escape e with
              | Some x => prepend [x] (parse_chars r1)
              | None => PSyntax
              end
        end
      else if (N_of_ascii c <? 32)%N then PSyntax
      else prepend [c] (parse_chars r)
  end.

Fixpoint take_digits (s : list ascii) : list ascii * list ascii :=
  match s with
  | c :: r =>
      if is_digit c then let (d, rest) := take_digits r in (c :: d, rest)
      else ([], s)
  | [] => ([], [])
  end.

(** Integers up to 2^53 in magnitude are followed; a literal with a fraction
    or an exponent is not.  [-0] is read as [0]. *)
Definition parse_number (s : list ascii) : Parsed JSValue :=
  let (neg, s1) :=
    match s with
    | c :: r => if (N_of_ascii c =? 45)%N then (true, r) else (false, s)
    | [] => (false, s)
    end in
  match s1 with
  | [] => PSyntax
  | c :: r =>
      if negb (is_digit c) then PSyntax
      else
        let (d, rest) :=
          if (N_of_ascii c =? 48)%N then ([c], r) else take_digits s1 in
        match rest with
        | x :: _ =>
            if ((N_of_ascii x =? 46) || (N_of_ascii x =? 101) || (N_of_ascii x =? 69))%N%bool
            then PUnmodelled
            else
              let n := digits_value d in
              if (9007199254740992 <? n)%N then PUnmodelled
              else POk (JNum (if neg then - Z.of_N n else Z.of_N n)) rest
        | [] =>
            let n := digits_value d in
            if (9007199254740992 <? n)%N then PUnmodelled
            else POk (JNum (if neg then - Z.of_N n else Z.of_N n)) rest
        end
  end.

Section Nested.

(** The parser of the values inside an array or an object. *)
Variable parse_inner : list ascii -> Parsed JSValue.

(** After [[], at the start of an element. *)
Fixpoint parse_elements (fuel : nat) (i : N) (acc : Props) (s : list ascii)
  : Parsed JSValue :=
  match fuel with
  | O => PUnmodelled
  | S f =>
      match parse_inner s with
      | POk v r =>
          match skip_ws r with
          | c :: r' =>
              if (N_of_ascii c =? 44)%N
              then parse_elements f (i + 1) (acc ++ [(N_to_string i, v)])%list r'
              else if (N_of_ascii c =? 93)%N
              then POk (JArr (i + 1) (acc ++ [(N_to_string i, v)])%list) r'
              else PSyntax
          | [] => PSyntax
          end
      | PSyntax => PSyntax
      | PUnmodelled => PUnmodelled
      end
  end.

(** After [{] or [,], at the start of a member.  A repeated key keeps its
    first place and takes the last value. *)
Fixpoint parse_members (fuel : nat) (acc : Props) (s : list ascii)
  : Parsed JSValue :=
  match fuel with
  | O => PUnmodelled
  | S f =>
      match skip_ws s with
      | c :: r =>
          if negb (N_of_ascii c =? 34)%N then PSyntax
          else
            match parse_chars r with
            | POk k r1 =>
                match skip_ws r1 with
                | c1 :: r2 =>
                    if negb (N_of_ascii c1 =? 58)%N then PSyntax
                    else
                      match parse_inner r2 with
                      | POk v r3 =>
                          let acc' := upsert (string_of_list_ascii k) v acc in
                          match skip_ws r3 with
                          | c3 :: r4 =>
                              if (N_of_ascii c3 =? 44)%N
                              then parse_members f acc' r4
                              else if (N_of_ascii c3 =? 125)%N
                              then POk (JObj acc') r4
                              else PSyntax
                          | [] => PSyntax
                          end
                      | PSyntax => PSyntax
                      | PUnmodelled => PUnmodelled
                      end
                | [] => PSyntax
                end
            | PSyntax => PSyntax
            | PUnmodelled => PUnmodelled
            end
      | [] => PSyntax
      end
  end.

End Nested.

Definition keyword (w : string) (v : JSValue) (s : list ascii) : Parsed JSValue :=
  match strip_prefix (list_ascii_of_string w) s with
  | Some r => POk v r
  | None => PSyntax
  end.

Fixpoint parse_value (fuel : nat) (s : list ascii) : Parsed JSValue :=
  match fuel with
  | O => PUnmodelled
  | S f =>
      match skip_ws s with
      | [] => PSyntax
      | c :: r =>
          let n := N_of_ascii c in
          if (n =? 123)%N then
            match skip_ws r with
            | c' :: r' =>
                if (N_of_ascii c' =? 125)%N then POk (JObj []) r'
                else parse_members (parse_value f) f [] r
            | [] => PSyntax
            end
          else if (n =? 91)%N then
            match skip_ws r with
            | c' :: r' =>
                if (N_of_ascii c' =? 93)%N then POk (JArr 0 []) r'
                else parse_elements (parse_value f) f 0 [] r
            | [] => PSyntax
            end
          else if (n =? 34)%N then
            match parse_chars r with
            | POk k r' => POk (JStr (string_of_list_ascii k)) r'
            | PSyntax => PSyntax
            | PUnmodelled => PUnmodelled
            end
          else if (n =? 116)%N then keyword "true" (JBool true) (c :: r)
          else if (n =? 102)%N then keyword "false" (JBool false) (c :: r)
          else if (n =? 110)%N then keyword "null" JNull (c :: r)
          else parse_number (c :: r)
      end
  end.

Definition parse (text : string) : Outcome JSValue :=
  let s := list_ascii_of_string text in
  match parse_value (S (List.length s)) s with
  | POk v r =>
      match skip_ws r with
      | [] => Returns v
      | _ :: _ => Throws EngineSyntaxError
      end
  | PSyntax => Throws EngineSyntaxError
  | PUnmodelled => Unmodelled
  end.

End JSON.

(** ** Node's [Buffer.from(value, encoding)] on a value read from JSON *)

Definition Buffer_from (v : JS.JSValue) (decode : string -> option bytes)
  : Outcome bytes :=
  match v with
  | JS.JStr s =>
      match decode s with
      | Some b => Returns b
      | None => Unmodelled
      end
  | JS.JArr _ _ | JS.JObj _ | JS.JBuiltin _ => Unmodelled
  | _ => Throws EngineTypeError
  end.

(** [text.length]: the number of UTF-16 code units of a text given by its
    UTF-8 bytes.  Every byte that starts a character counts once, and once
    more when it starts a four-byte character (a surrogate pair). *)
Definition utf16_length (s : string) : N :=
  fold_left
    (fun acc c =>
       let n := N_of_ascii c in
       if ((128 <=? n) && (n <? 192))%N%bool then acc
       else if (240 <=? n)%N then (acc + 2)%N
       else (acc + 1)%N)
    (list_ascii_of_string s) 0%N.

(** The optional third argument of [load]: [None] when it is left out. *)
Definition optional (t : option string) : JS.JSValue :=
  match t with
  | Some s => JS.JStr s
  | None => JS.JUndefined
  end.

(** ** The primitives of Node's [crypto] module

    They are taken as given: the embedding follows how the listing calls
    them, not what they compute. *)

Record NodeCrypto : Type := {
  (** [createHash('sha256').update(data).digest()] *)
  sha256 : bytes -> bytes;
  (** [pbkdf2(password, salt, iterations, keylen, 'sha256')] *)
  pbkdf2_sha256 : bytes -> bytes -> N -> N -> bytes;
  (** [createCipheriv('aes-256-gcm', key, iv)], then [update] and [final];
      the authentication tag is never asked for.  [createCipheriv] throws on
      a key that has not 32 bytes and on an [iv] that the cipher does not
      accept; this is not followed (the key of a store that the constructor
      or [load] built is what PBKDF2 returns for 32 bytes) *)
  aes256gcm : bytes -> bytes -> bytes -> bytes;
  (** [createDecipheriv('aes-256-cbc', key, iv)] with a 16-byte [iv], then
      [update(text, 'hex', 'utf8')] and [final('utf8')]; [None] when one of
      the two throws *)
  aes256cbc_open : bytes -> bytes -> string -> option string
}.

(** ** The first listing (source lines 16-142) *)

Module Keychain1.
Import JS.

Definition PBKDF2_ITERATIONS : N := 100000.
Definition MAX_PASSWORD_LENGTH : N := 64.

(** [constructor(password, salt, iv, data)]. *)
Record Keychain : Type := {
  password : string;
  salt : bytes;
  iv : bytes;
  data : JSValue
}.

Definition with_data (k : Keychain) (d : JSValue) : Keychain :=
  {| password := password k; salt := salt k; iv := iv k; data := d |}.

(** A method runs on [this] and leaves it in a new state, whether it returns
    or throws. *)
Definition Method (A : Type) : Type := Keychain -> Outcome A * Keychain.

(** [init(password)].  The two results of [getRandomBytes(16)] are
    arguments; [./lib], which defines it, is not among the sources, and the
    result is taken to be a [Buffer] of bytes (the spec: "Salt: random byte
    sequence", written as Base64 in the blob). *)
Definition init (password : string) (random_salt random_iv : bytes) : Keychain :=
  {| password := password; salt := random_salt; iv := random_iv; data := JArr 0 [] |}.

(** [load(password, repr, trustedDataCheck)]. *)
Definition load (password : string) (repr : string) (trustedDataCheck : option string)
  : Outcome Keychain :=
  parsed <- JSON.parse repr ;;
  serializedData <- GetV parsed "serializedData" ;;
  checksum <- GetV parsed "checksum" ;;
  let isValid := strict_equal checksum (optional trustedDataCheck) in
  if negb isValid then Throws (JsError "Data integrity check failed")
  else
    salt <- GetV serializedData "salt" ;;
    iv <- GetV serializedData "iv" ;;
    data <- GetV serializedData "data" ;;
    salt' <- Buffer_from salt Base64.decode ;;
    iv' <- Buffer_from iv Base64.decode ;;
    Returns {| password := password; salt := salt'; iv := iv'; data := data |}.

(** The object literal that [dump] hands to [JSON.stringify]. *)
Definition dumped (k : Keychain) : JSValue :=
  JObj [ ("salt", JStr (Base64.encode (salt k)));
         ("iv", JStr (Base64.encode (iv k)));
         ("data", data k);
         ("kvs", data k) ].

(** [serializedData] in [dump]. *)
Definition serialize (k : Keychain) : option string := JSON.stringify (dumped k).

(** [computeChecksum(data)]. *)
Definition computeChecksum (crypto : NodeCrypto) (text : string) : string :=
  Base64.encode (sha256 crypto (list_ascii_of_string text)).

(** [dump()]: [hash.update] rejects what is no string. *)
Definition dump (crypto : NodeCrypto) (k : Keychain) : Outcome (string * string) :=
  match serialize k with
  | Some serializedData =>
      Returns (serializedData, computeChecksum crypto serializedData)
  | None => Throws EngineTypeError
  end.

(** [get(name)]: [this.data[name] || null]. *)
Definition get (name : string) : Method JSValue :=
  fun k =>
    match GetV (data k) name with
    | Returns v => (Returns (if truthy v then v else JNull), k)
    | Throws e => (Throws e, k)
    | Unmodelled => (Unmodelled, k)
    end.

(** [set(name, value)]: [this.data[name] = value]. *)
Definition set (name value : string) : Method unit :=
  fun k =>
    match PutV (data k) name value with
    | Returns d => (Returns tt, with_data k d)
    | Throws e => (Throws e, k)
    | Unmodelled => (Unmodelled, k)
    end.

(** [remove(name)]. *)
Definition remove (name : string) : Method bool :=
  fun k =>
    match GetV (data k) name with
    | Returns v =>
        if truthy v then
          match DeleteV (data k) name with
          | Returns d => (Returns true, with_data k d)
          | Throws e => (Throws e, k)
          | Unmodelled => (Unmodelled, k)
          end
        else (Returns false, k)
    | Throws e => (Throws e, k)
    | Unmodelled => (Unmodelled, k)
    end.

End Keychain1.

(** ** The third listing (source lines 312-499) *)

Module Keychain3.
Import JS.

Definition PBKDF2_ITERATIONS : N := 100000.
Definition MAX_PASSWORD_LENGTH : N := 64.

(** [salt] and [iv] hold a [Buffer] after the constructor and the string of
    the blob after [load]. *)
Inductive Field : Type :=
| Buf (b : bytes)
| Str (s : string).

Record Keychain : Type := {
  data : Props;
  secrets : Props;
  salt : Field;
  iv : Field;
  key : bytes
}.

Definition with_data (k : Keychain) (d : Props) : Keychain :=
  {| data := d; secrets := secrets k; salt := salt k; iv := iv k; key := key k |}.

Definition Method (A : Type) : Type := Keychain -> Outcome A * Keychain.

(** [value.toString('hex')]: a string ignores the argument. *)
Definition toString_hex (f : Field) : string :=
  match f with
  | Buf b => Hex.encode b
  | Str s => s
  end.

(** The bytes a cipher reads from a [Buffer] or a string. *)
Definition field_bytes (f : Field) : bytes :=
  match f with
  | Buf b => b
  | Str s => list_ascii_of_string s
  end.

(** Modelled from the spec: [stringToBuffer] of [./lib], which is not among
    the sources; the bytes of a text are its UTF-8 encoding. *)
Definition stringToBuffer (s : string) : bytes := list_ascii_of_string s.

(** Modelled from the spec: [bufferToString] of [./lib], the text that the
    bytes encode. *)
Definition bufferToString (b : bytes) : string := string_of_list_ascii b.

(** Modelled from the spec: [encodeBuffer] of [./lib].  The spec writes bytes
    as Base64 text, and the comments at the call sites say "Convert name to
    Base64 encoded string". *)
Definition encodeBuffer (b : bytes) : string := Base64.encode b.

(** Modelled from the spec: [decodeBuffer] of [./lib], the bytes that a
    Base64 text stands for. *)
Definition decodeBuffer (v : JSValue) : Outcome bytes := Buffer_from v Base64.decode.

Section Crypto.

Variable crypto : NodeCrypto.

(** [constructor(password)]; the two results of [crypto.randomBytes(16)]
    are arguments. *)
Definition constructor (password : JSValue) (random_salt random_iv : bytes)
  : Outcome Keychain :=
  match password with
  | JStr p =>
      Returns {| data := []; secrets := [];
                 salt := Buf random_salt; iv := Buf random_iv;
                 key := pbkdf2_sha256 crypto (list_ascii_of_string p) random_salt
                          PBKDF2_ITERATIONS 32 |}
  | _ => Throws (JsTypeError "Password must be a string")
  end.

(** [init(password)]. *)
Definition init (password : string) (random_salt random_iv : bytes)
  : Outcome Keychain :=
  if (MAX_PASSWORD_LENGTH <? utf16_length password)%N
  then Throws (JsError "Password length exceeds the maximum allowed length")
  else constructor (JStr password) random_salt random_iv.

(** [load(password, repr, trustedDataCheck)]. *)
Definition load (password : string) (repr : string)
  (trustedDataCheck : option string) (random_salt random_iv : bytes)
  : Outcome Keychain :=
  parsed <- JSON.parse repr ;;
  salt <- GetV parsed "salt" ;;
  iv <- GetV parsed "iv" ;;
  encryptedData <- GetV parsed "data" ;;
  derivedKey <-
    match salt with
    | JStr s =>
        Returns (pbkdf2_sha256 crypto (list_ascii_of_string password)
                   (list_ascii_of_string s) PBKDF2_ITERATIONS 32)
    | _ => Throws EngineTypeError
    end ;;
  iv_bytes <- Buffer_from iv Hex.decode ;;
  if negb (List.length iv_bytes =? 16)%nat then Throws EngineTypeError
  else
    decryptedData <-
      match encryptedData with
      | JStr text =>
          match aes256cbc_open crypto derivedKey iv_bytes text with
          | Some plain => Returns plain
          | None => Throws CipherError
          end
      | _ => Throws EngineTypeError
      end ;;
    data <- JSON.parse decryptedData ;;
    let checksum := Hex.encode (sha256 crypto (list_ascii_of_string repr)) in
    if (truthy (optional trustedDataCheck)
        && negb (strict_equal (JStr checksum) (optional trustedDataCheck)))%bool
    then Throws (JsError "Data integrity check failed")
    else
      keychain <- constructor data random_salt random_iv ;;
      match salt, iv with
      | JStr s, JStr i =>
          Returns {| data := Keychain3.data keychain;
                     secrets := secrets keychain;
                     salt := Str s; iv := Str i; key := derivedKey |}
      | _, _ => Unmodelled
      end.

(** [dump()]. *)
Definition dump (k : Keychain) : Outcome (string * string) :=
  match JSON.stringify (JObj (data k)) with
  | None => Throws EngineTypeError
  | Some plain =>
      let encryptedData :=
        Hex.encode (aes256gcm crypto (key k) (field_bytes (iv k))
                      (list_ascii_of_string plain)) in
      match JSON.stringify
              (JObj [ ("salt", JStr (toString_hex (salt k)));
                      ("iv", JStr (toString_hex (iv k)));
                      ("data", JStr encryptedData) ]) with
      | None => Throws EngineTypeError
      | Some serializedData =>
          Returns (serializedData,
                   Hex.encode (sha256 crypto (list_ascii_of_string serializedData)))
      end
  end.

End Crypto.

(** [get(name)]. *)
Definition get (name : string) : Method JSValue :=
  fun k =>
    let nameBase64 := encodeBuffer (stringToBuffer name) in
    let valueBase64 := obj_get (data k) nameBase64 in
    if negb (strict_equal valueBase64 JUndefined)
    then (b <- decodeBuffer valueBase64 ;; Returns (JStr (bufferToString b)), k)
    else (Returns JNull, k).

(** [set(name, value)]. *)
Definition set (name value : string) : Method unit :=
  fun k =>
    let nameBase64 := encodeBuffer (stringToBuffer name) in
    let valueBase64 := encodeBuffer (stringToBuffer value) in
    (Returns tt, with_data k (obj_put (data k) nameBase64 valueBase64)).

(** [remove(name)]. *)
Definition remove (name : string) : Method bool :=
  fun k =>
    let nameBase64 := encodeBuffer (stringToBuffer name) in
    if negb (strict_equal (obj_get (data k) nameBase64) JUndefined)
    then (Returns true, with_data k (obj_delete (data k) nameBase64))
    else (Returns false, k).

End Keychain3.


(** ** What the second listing takes from the runtime *)

(** *** The code units of a text

    [text[i]] is the [i]-th UTF-16 code unit of the text.  A character of
    one, two or three UTF-8 bytes is one code unit; a character of four bytes
    is a surrogate pair, two code units of which none is a text of its own. *)

Definition is_continuation (c : ascii) : bool :=
  let n := N_of_ascii c in ((128 <=? n) && (n <? 192))%N%bool.

(** The characters of a text: each byte that starts one, with the
    continuation bytes that follow it. *)
Fixpoint characters (s : list ascii) : list (list ascii) :=
  match s with
  | [] => []
  | c :: r =>
      match characters r with
      | (x :: g) :: gs =>
          if is_continuation x then (c :: x :: g) :: gs
          else [c] :: (x :: g) :: gs
      | gs => [c] :: gs
      end
  end.

Definition units_of (g : list ascii) : list (option string) :=
  match g with
  | [] => []
  | c :: _ =>
      if (240 <=? N_of_ascii c)%N then [None; None]
      else [Some (string_of_list_ascii g)]
  end.

Definition code_units (s : string) : list (option string) :=
  flat_map units_of (characters (list_ascii_of_string s)).

(** [base[i]] for an integer [i] written in the source. *)
Definition Index (base : JS.JSValue) (i : N) : Outcome JS.JSValue :=
  match base with
  | JS.JStr s =>
      match nth_error (code_units s) (N.to_nat i) with
      | Some (Some u) => Returns (JS.JStr u)
      | Some None => Unmodelled
      | None => Returns JS.JUndefined
      end
  | _ => JS.GetV base (JS.N_to_string i)
  end.

(** *** [JSON.parse] of a value that need not be a string

    The argument is converted to a string first: a primitive to its text;
    the conversion of an object is not followed. *)
Definition ToString (v : JS.JSValue) : option string :=
  match v with
  | JS.JUndefined => Some "undefined"
  | JS.JNull => Some "null"
  | JS.JBool true => Some "true"
  | JS.JBool false => Some "false"
  | JS.JNum n => Some (JSON.Z_to_string n)
  | JS.JStr s => Some s
  | JS.JArr _ _ | JS.JObj _ | JS.JBuiltin _ => None
  end.

Definition JSON_parse (v : JS.JSValue) : Outcome JS.JSValue :=
  match ToString v with
  | Some text => JSON.parse text
  | None => Unmodelled
  end.

(** *** [const [a, b, c] = value]

    The pattern asks the value for its iterator.  An array gives its
    elements, [undefined] at a hole and past its end; [undefined], [null], a
    number, a boolean and an ordinary object have none.  A string iterates
    over its characters, which is not followed. *)
Definition array_element (len : N) (props : JS.Props) (i : N) : JS.JSValue :=
  if (i <? len)%N then
    match JS.lookup (JS.N_to_string i) props with
    | Some v => v
    | None => JS.JUndefined
    end
  else JS.JUndefined.

Definition destructure3 (v : JS.JSValue)
  : Outcome (JS.JSValue * JS.JSValue * JS.JSValue) :=
  match v with
  | JS.JArr len props =>
      Returns (array_element len props 0, array_element len props 1,
               array_element len props 2)
  | JS.JStr _ | JS.JBuiltin _ => Unmodelled
  | JS.JUndefined | JS.JNull | JS.JBool _ | JS.JNum _ | JS.JObj _ =>
      Throws EngineTypeError
  end.

(** ** The second listing (source lines 164-293) *)

Module Keychain2.
Import JS.

Definition PBKDF2_ITERATIONS : N := 100000.
Definition MAX_PASSWORD_LENGTH : N := 64.

(** [constructor(password, salt, iv, data)]. *)
Record Keychain : Type := {
  password : string;
  salt : bytes;
  iv : bytes;
  data : JSValue
}.

Definition with_data (k : Keychain) (d : JSValue) : Keychain :=
  {| password := password k; salt := salt k; iv := iv k; data := d |}.

Definition Method (A : Type) : Type := Keychain -> Outcome A * Keychain.

(** [init(password)]; the two results of [getRandomBytes(16)] are arguments,
    as in the first listing. *)
Definition init (password : string) (random_salt random_iv : bytes) : Keychain :=
  {| password := password; salt := random_salt; iv := random_iv; data := JArr 0 [] |}.

(** [load(password, repr, trustedDataCheck)].  [repr] is indexed, so it is
    taken as a value: the string that the documentation names, or the array
    that [dump] returns. *)
Definition load (password : string) (repr : JSValue) (trustedDataCheck : option string)
  : Outcome Keychain :=
  serializedData <- Index repr 0 ;;
  checksum <- Index repr 1 ;;
  let isValid := strict_equal checksum (optional trustedDataCheck) in
  if negb isValid then Throws (JsError "Data integrity check failed")
  else
    parsed <- JSON_parse serializedData ;;
    triple <- destructure3 parsed ;;
    let '(salt, iv, data) := triple in
    salt' <- Buffer_from salt Base64.decode ;;
    iv' <- Buffer_from iv Base64.decode ;;
    Returns {| password := password; salt := salt'; iv := iv'; data := data |}.

(** The object literal that [dump] hands to [JSON.stringify]. *)
Definition dumped (k : Keychain) : JSValue :=
  JObj [ ("salt", JStr (Base64.encode (salt k)));
         ("iv", JStr (Base64.encode (iv k)));
         ("data", data k) ].

(** [serializedData] in [dump]. *)
Definition serialize (k : Keychain) : option string := JSON.stringify (dumped k).

(** [computeChecksum(data)]. *)
Definition computeChecksum (crypto : NodeCrypto) (text : string) : string :=
  Base64.encode (sha256 crypto (list_ascii_of_string text)).

(** [dump()], with the lines that its two [console.log] calls write. *)
Definition dump (crypto : NodeCrypto) (k : Keychain)
  : Outcome (string * string) * list string :=
  match serialize k with
  | Some serializedData =>
      let checksum := computeChecksum crypto serializedData in
      (Returns (serializedData, checksum),
       [ "dump serializedData: " ++ serializedData;
         "dump checksum: " ++ checksum ])
  | None => (Throws EngineTypeError, [])
  end.

(** [get(name)]: [this.data[name] || null]. *)
Definition get (name : string) : Method JSValue :=
  fun k =>
    match GetV (data k) name with
    | Returns v => (Returns (if truthy v then v else JNull), k)
    | Throws e => (Throws e, k)
    | Unmodelled => (Unmodelled, k)
    end.

(** [set(name, value)]: [this.data[name] = value]. *)
Definition set (name value : string) : Method unit :=
  fun k =>
    match PutV (data k) name value with
    | Returns d => (Returns tt, with_data k d)
    | Throws e => (Throws e, k)
    | Unmodelled => (Unmodelled, k)
    end.

(** [remove(name)]. *)
Definition remove (name : string) : Method bool :=
  fun k =>
    match GetV (data k) name with
    | Returns v =>
        if truthy v then
          match DeleteV (data k) name with
          | Returns d => (Returns true, with_data k d)
          | Throws e => (Throws e, k)
          | Unmodelled => (Unmodelled, k)
          end
        else (Returns false, k)
    | Throws e => (Throws e, k)
    | Unmodelled => (Unmodelled, k)
    end.

End Keychain2.

(** ** [computeChecksum(data)] of the third listing (source lines 437-442) *)

Definition computeChecksum3 (crypto : NodeCrypto) (text : string) : string :=
  Base64.encode (sha256 crypto (list_ascii_of_string text)).
(** ** Sequences of record operations *)

Inductive Call : Type :=
| CallGet (name : string)
| CallSet (name value : string)
| CallRemove (name : string).

(** The outcome of a call without its value. *)
Definition void {A K : Type} (r : Outcome A * K) : Outcome unit * K :=
  (x <- fst r ;; Returns tt, snd r).

(** A sequence of calls runs on, from one store to the next, past calls that
    throw; it ends without a result ([None]) at a call whose outcome the
    embedding does not follow. *)
Module Run1.

Definition exec (c : Call) (k : Keychain1.Keychain)
  : Outcome unit * Keychain1.Keychain :=
  match c with
  | CallGet name => void (Keychain1.get name k)
  | CallSet name value => void (Keychain1.set name value k)
  | CallRemove name => void (Keychain1.remove name k)
  end.

Fixpoint run (cs : list Call) (k : Keychain1.Keychain) : option Keychain1.Keychain :=
  match cs with
  | [] => Some k
  | c :: r =>
      match exec c k with
      | (Unmodelled, _) => None
      | (_, k') => run r k'
      end
  end.

End Run1.

Module Run3.

Definition exec (c : Call) (k : Keychain3.Keychain)
  : Outcome unit * Keychain3.Keychain :=
  match c with
  | CallGet name => void (Keychain3.get name k)
  | CallSet name value => void (Keychain3.set name value k)
  | CallRemove name => void (Keychain3.remove name k)
  end.

Fixpoint run (cs : list Call) (k : Keychain3.Keychain) : option Keychain3.Keychain :=
  match cs with
  | [] => Some k
  | c :: r =>
      match exec c k with
      | (Unmodelled, _) => None
      | (_, k') => run r k'
      end
  end.

End Run3.


Module Run2.

Definition exec (c : Call) (k : Keychain2.Keychain)
  : Outcome unit * Keychain2.Keychain :=
  match c with
  | CallGet name => void (Keychain2.get name k)
  | CallSet name value => void (Keychain2.set name value k)
  | CallRemove name => void (Keychain2.remove name k)
  end.

Fixpoint run (cs : list Call) (k : Keychain2.Keychain) : option Keychain2.Keychain :=
  match cs with
  | [] => Some k
  | c :: r =>
      match exec c k with
      | (Unmodelled, _) => None
      | (_, k') => run r k'
      end
  end.

End Run2.
(** ** Vocabulary of the statements *)

(** [needle] occurs in [hay] as a run of consecutive bytes. *)
Fixpoint infix_of (needle hay : string) : bool :=
  (String.prefix needle hay
   || match hay with
      | EmptyString => false
      | String _ rest => infix_of needle rest
      end)%bool.

(** The number of places at which two texts differ, [None] when their
    lengths differ. *)
Fixpoint differences (a b : string) : option nat :=
  match a, b with
  | EmptyString, EmptyString => Some 0
  | String x a', String y b' =>
      match differences a' b' with
      | Some n => Some (if (x =? y)%char then n else S n)
      | None => None
      end
  | _, _ => None
  end.

(** A character that [JSON.stringify] writes as it is. *)
Definition plain_char (c : ascii) : bool :=
  let n := N_of_ascii c in
  negb ((n <? 32) || (n =? 34) || (n =? 92))%N%bool.

Definition plain (s : string) : bool := forallb plain_char (list_ascii_of_string s).

(** *** The blobs *)

(** The layout of what the first listing dumps: the container appears twice,
    as the JSON text [JSON.stringify] gives it, when it gives one. *)
Definition blob1 (salt iv : string) (container : option string) : string :=
  match container with
  | Some t =>
      JSON.q "{'salt':'" ++ salt ++ JSON.q "','iv':'" ++ iv
        ++ JSON.q "','data':" ++ t ++ JSON.q ",'kvs':" ++ t ++ "}"
  | None => JSON.q "{'salt':'" ++ salt ++ JSON.q "','iv':'" ++ iv ++ JSON.q "'}"
  end.

(** The same layout as a list of bytes, the members apart. *)
Definition blob1_bytes (s i t : list ascii) : list ascii :=
  "{"%char :: JSON.dquote ::
    (list_ascii_of_string "salt" ++ JSON.dquote :: ":"%char :: JSON.dquote ::
       (s ++ JSON.dquote :: ","%char :: JSON.dquote ::
          (list_ascii_of_string "iv" ++ JSON.dquote :: ":"%char :: JSON.dquote ::
             (i ++ JSON.dquote :: ","%char :: JSON.dquote ::
                (list_ascii_of_string "data" ++ JSON.dquote :: ":"%char ::
                   (t ++ ","%char :: JSON.dquote ::
                      (list_ascii_of_string "kvs" ++ JSON.dquote :: ":"%char ::
                         (t ++ ["}"%char]))))))))%list.

(** The layout of what the third listing dumps. *)
Definition blob3 (salt iv data : string) : string :=
  JSON.q "{'salt':'" ++ salt ++ JSON.q "','iv':'" ++ iv
    ++ JSON.q "','data':'" ++ data ++ JSON.q "'}".

(** The bytes a blob of the third listing is made of: the punctuation and
    member names of its layout, and hexadecimal digits. *)
Definition blob_char (c : ascii) : bool :=
  (Hex.is_hex_digit c
   || existsb (Ascii.eqb c) (list_ascii_of_string (JSON.q "{}:,'saltivd")))%bool.

(** A blob in the layout that [load] of the first listing reads, with the
    string [c] as its [checksum] member. *)
Definition forged_blob (c : string) : string :=
  JSON.q "{'serializedData':{'salt':'AAAA','iv':'AAAA','data':['hunter2']},'checksum':"
    ++ JSON.quote c ++ "}".

(** *** Arrays of strings

    The container of a store that [init] of the first listing created stays
    an array whose own properties are strings. *)

Definition strings_only (props : JS.Props) : bool :=
  forallb (fun p => match snd p with JS.JStr _ => true | _ => false end) props.

Definition array_of_strings (d : JS.JSValue) : bool :=
  match d with
  | JS.JArr _ props => strings_only props
  | _ => false
  end.

(** The string at an index, [None] at a hole. *)
Definition slot (props : JS.Props) (i : N) : option string :=
  match JS.lookup (JS.N_to_string i) props with
  | Some (JS.JStr s) => Some s
  | _ => None
  end.

(** The text of an array element: a quoted string, or [null] for a hole. *)
Definition elem_text (o : option string) : string :=
  match o with
  | Some s => JSON.quote s
  | None => "null"
  end.

Definition elem_value (o : option string) : JS.JSValue :=
  match o with
  | Some s => JS.JStr s
  | None => JS.JNull
  end.

Fixpoint entries (i : N) (os : list (option string)) : JS.Props :=
  match os with
  | [] => []
  | o :: r => (JS.N_to_string i, elem_value o) :: entries (i + 1) r
  end.

Definition array_text (os : list (option string)) : string :=
  "[" ++ JSON.join "," (map elem_text os) ++ "]".

Definition array_value (os : list (option string)) : JS.JSValue :=
  JS.JArr (N.of_nat (List.length os)) (entries 0 os).

(** What [JSON.parse] makes of the blob of a store of the first listing
    whose container is an array of strings. *)
Definition reloaded (k : Keychain1.Keychain) : JS.JSValue :=
  match Keychain1.data k with
  | JS.JArr len props =>
      let v := array_value (map (slot props) (JSON.indices len)) in
      JS.JObj [ ("salt", JS.JStr (Base64.encode (Keychain1.salt k)));
                ("iv", JS.JStr (Base64.encode (Keychain1.iv k)));
                ("data", v); ("kvs", v) ]
  | _ => JS.JUndefined
  end.

(** A text that [parse_value] reads to its end, whatever follows, given
    [m] units of fuel below the first. *)
Definition reads (m : nat) (t : string) (v : JS.JSValue) : Prop :=
  forall (f : nat) (rest : list ascii),
    m <= f ->
    JSON.parse_value (S f) (list_ascii_of_string t ++ rest) = JSON.POk v rest.

(** *** Sample stores *)

(** Sixteen bytes as [getRandomBytes(16)] may return them. *)
Definition sample_salt : bytes := list_ascii_of_string "0123456789abcdef".
Definition sample_iv : bytes := list_ascii_of_string "fedcba9876543210".

(** The store of the scenario: [init("Correct-Horse9!")], then
    [set("example.com", "p@ssw0rd")]. *)
Definition scenario_store (random_salt random_iv : bytes) : Keychain1.Keychain :=
  snd (Keychain1.set "example.com" "p@ssw0rd"
         (Keychain1.init "Correct-Horse9!" random_salt random_iv)).

(** A store that holds ["hunter2"] under the name ["0"], and its blob. *)
Definition leaky_store : Keychain1.Keychain :=
  snd (Keychain1.set "0" "hunter2"
         (Keychain1.init "Correct-Horse9!" sample_salt sample_iv)).

Definition leaky_blob : string :=
  JSON.q "{'salt':'MDEyMzQ1Njc4OWFiY2RlZg==','iv':'ZmVkY2JhOTg3NjU0MzIxMA==','data':['hunter2'],'kvs':['hunter2']}".

(** The SHA-256 digest of [leaky_blob] in Base64, as [dump] returns it. *)
Definition leaky_checksum : string := "ufJp7zmB26eNCfw1+xvdZ5tj4eCPFVyf67WT3qbaZi4=".

(** [leaky_blob] with one byte of its [data] member changed. *)
Definition tampered_blob : string :=
  JSON.q "{'salt':'MDEyMzQ1Njc4OWFiY2RlZg==','iv':'ZmVkY2JhOTg3NjU0MzIxMA==','data':['hunter3'],'kvs':['hunter2']}".


(** *** Containers and the stores that [init] gives rise to *)

(** A record container that property reads and writes work on: the array of
    [init], or what [load] read from a blob when that is an array or an
    object. *)
Definition container (d : JS.JSValue) : bool :=
  match d with
  | JS.JArr _ _ | JS.JObj _ => true
  | _ => false
  end.

(** What holds of the container of a store that [init] of the first or
    second listing created, whatever calls followed: it is an array, its own
    properties are strings, [length] is none of them (it is the array's own
    counter) and stays within the bound of an array length. *)
Definition kept_array (d : JS.JSValue) : bool :=
  match d with
  | JS.JArr len props =>
      (strings_only props
       && (len <=? 4294967295)%N
       && match JS.lookup "length" props with Some _ => false | None => true end)%bool
  | _ => false
  end.

(** *** Stand-ins for the primitives

    To run the listings on an example the primitives of [crypto] need values;
    these are not the real ones: the digest and the derived key are bytes of
    zeros, the cipher returns the plaintext, the decipher rejects. *)
Definition sample_crypto : NodeCrypto :=
  {| sha256 := fun _ => repeat Ascii.zero 32;
     pbkdf2_sha256 := fun _ _ _ keylen => repeat Ascii.zero (N.to_nat keylen);
     aes256gcm := fun _ _ plain => plain;
     aes256cbc_open := fun _ _ _ => None |}.

(** A second stand-in, whose decipher undoes the cipher of the first: it
    reads the hexadecimal text back into bytes.  It is no more the real
    decipher than the first; it shows [load] of the third listing on a blob
    that the decipher accepts. *)
Definition opening_crypto : NodeCrypto :=
  {| sha256 := fun _ => repeat Ascii.zero 32;
     pbkdf2_sha256 := fun _ _ _ keylen => repeat Ascii.zero (N.to_nat keylen);
     aes256gcm := fun _ _ plain => plain;
     aes256cbc_open := fun _ _ text =>
       option_map string_of_list_ascii (Hex.decode text) |}.

(** *** JSON texts of objects *)

(** The text of a member with a plain name, and of an object given by its
    members (name, text of the value). *)
Definition member_text (m : string * string) : string :=
  JSON.quote (fst m) ++ ":" ++ snd m.

Definition object_text (ms : list (string * string)) : string :=
  "{" ++ JSON.join "," (map member_text ms) ++ "}".

(** The object that the members make, filled in their order. *)
Definition object_value (ms : list (string * JS.JSValue)) : JS.JSValue :=
  JS.JObj (fold_left (fun acc m => JS.upsert (fst m) (snd m) acc) ms []).

(** A blob in the layout that [load] of the first listing reads: the salt,
    the initialisation vector and an array of strings and holes under
    [serializedData], and a checksum. *)
Definition layout1 (salt iv : bytes) (os : list (option string)) (c : string) : string :=
  object_text
    [ ("serializedData",
       object_text [ ("salt", JSON.quote (Base64.encode salt));
                     ("iv", JSON.quote (Base64.encode iv));
                     ("data", array_text os) ]);
      ("checksum", JSON.quote c) ].

(** *** What [load] of the second listing is given *)

(** The array [[a, b]] of two strings, as [dump] returns it. *)
Definition pair_of (a b : string) : JS.JSValue :=
  JS.JArr 2 [("0", JS.JStr a); ("1", JS.JStr b)].

(** The text of an array given by the texts of its elements. *)
Definition elements_text (ts : list string) : string :=
  "[" ++ JSON.join "," ts ++ "]".

(** A text in the layout that [load] of the second listing reads: the array
    of the salt and the initialisation vector in Base64 and an array of
    strings and holes. *)
Definition layout2 (salt iv : bytes) (os : list (option string)) : string :=
  elements_text [ JSON.quote (Base64.encode salt); JSON.quote (Base64.encode iv);
                  array_text os ].

(** The text of one double quote. *)
Definition one_quote : string := String JSON.dquote "".

(** A byte with which no JSON value starts, blanks apart. *)
Definition starts_no_value (c : ascii) : bool :=
  let n := N_of_ascii c in
  negb (JSON.is_ws c || (n =? 123) || (n =? 91) || (n =? 34) || (n =? 116)
        || (n =? 102) || (n =? 110) || (n =? 45) || JS.is_digit c)%N%bool.

(** What [JSON.parse] makes of the text of one character: a number, when
    the character is a digit, and a SyntaxError otherwise. *)
Definition number_or_syntax_error (o : Outcome JS.JSValue) : Prop :=
  match o with
  | Returns (JS.JNum _) => True
  | Throws EngineSyntaxError => True
  | _ => False
  end.

(** The own properties of an array with the given elements, from index [i]
    on. *)
Fixpoint numbered (i : N) (vs : list JS.JSValue) : JS.Props :=
  match vs with
  | [] => []
  | v :: r => (JS.N_to_string i, v) :: numbered (i + 1) r
  end.

(** *** Names and stores of the third listing *)

(** The first byte of a UTF-8 text is no continuation byte. *)
Definition starts_a_character (s : string) : bool :=
  match s with
  | EmptyString => true
  | String c _ => negb (is_continuation c)
  end.

Definition well_named (c : Call) : bool :=
  match c with
  | CallGet name | CallSet name _ | CallRemove name => starts_a_character name
  end.

(** The container holds Base64 texts only. *)
Definition encoded (props : JS.Props) : bool :=
  forallb (fun p => match snd p with
                    | JS.JStr s => match Base64.decode s with
                                   | Some _ => true
                                   | None => false
                                   end
                    | _ => false
                    end) props.

(** The outcome of [get] is a string or [null]. *)
Definition string_or_null (o : Outcome JS.JSValue) : bool :=
  match o with
  | Returns (JS.JStr _) | Returns JS.JNull => true
  | _ => false
  end.

(** *** Texts within texts *)

(** [needle] stands in [hay], between two texts. *)
Definition occurs (needle hay : string) : Prop :=
  exists before after : string, hay = before ++ needle ++ after.

(** The own properties of an array lie below its length, those that are
    named by an index. *)
Definition indexed_below (d : JS.JSValue) : bool :=
  match d with
  | JS.JArr len props => forallb (JS.below len) props
  | _ => false
  end.

(** *** The bytes of a blob of the third listing *)

(** A byte that a blob dumped from the store [k] can hold: a byte of the
    layout or a hexadecimal digit, or a byte of the JSON strings of [salt]
    and [iv] as the store holds them (hexadecimal digits for the Buffers of
    the constructor, the strings of the loaded blob after [load]). *)
Definition dumped_byte (k : Keychain3.Keychain) (c : ascii) : bool :=
  (blob_char c
   || existsb (Ascii.eqb c)
        (list_ascii_of_string (JSON.quote (Keychain3.toString_hex (Keychain3.salt k))))
   || existsb (Ascii.eqb c)
        (list_ascii_of_string (JSON.quote (Keychain3.toString_hex (Keychain3.iv k)))))%bool.
(** ** Properties of the runtime layer *)

Example base64_man : Base64.encode (list_ascii_of_string "Man") = "TWFu".
Proof. reflexivity. Qed.

Example base64_example_com :
  Base64.encode (list_ascii_of_string "example.com") = "ZXhhbXBsZS5jb20=".
Proof. reflexivity. Qed.

Example base64_back :
  Base64.decode "cEBzc3cwcmQ=" = Some (list_ascii_of_string "p@ssw0rd")
  /\ Base64.decode "cEBzc3cwcmQ" = None.
Proof. split; reflexivity. Qed.

Example hex_there_and_back :
  Hex.encode (list_ascii_of_string "Hi!") = "486921"
  /\ Hex.decode "486921zz" = Some (list_ascii_of_string "Hi!").
Proof. split; reflexivity. Qed.

Example utf16_length_of_text :
  utf16_length "Correct-Horse9!" = 15%N
  /\ utf16_length (String (ascii_of_N 195) (String (ascii_of_N 169) "")) = 1%N.
Proof. split; reflexivity. Qed.

Example parse_object :
  JSON.parse (JSON.q "{ 'a' : [1, 'x\n', null], 'b':{}, 'a': true }")
  = Returns (JS.JObj [("a", JS.JBool true); ("b", JS.JObj [])]).
Proof. vm_compute. reflexivity. Qed.

Example parse_array :
  JSON.parse (JSON.q "[-12, 'xA\u00e9', false]")
  = Returns (JS.JArr 3 [("0", JS.JNum (-12));
                        ("1", JS.JStr (String "x" (String "A"
                                (String (ascii_of_N 195) (String (ascii_of_N 169) "")))));
                        ("2", JS.JBool false)]).
Proof. vm_compute. reflexivity. Qed.

Example parse_rejects :
  JSON.parse (JSON.q "{'a':1,}") = Throws EngineSyntaxError
  /\ JSON.parse "1.5" = Unmodelled.
Proof. split; vm_compute; reflexivity. Qed.

Example stringify_order :
  JSON.stringify (JS.JObj [("b", JS.JStr "x"); ("10", JS.JNull); ("2", JS.JNum 7);
                           ("u", JS.JUndefined)])
  = Some (JSON.q "{'2':7,'10':null,'b':'x'}").
Proof. vm_compute. reflexivity. Qed.

Example stringify_array_drops_names :
  JSON.stringify (JS.JArr 2 [("example.com", JS.JStr "s"); ("1", JS.JStr "t")])
  = Some (JSON.q "[null,'t']").
Proof. vm_compute. reflexivity. Qed.

(** *** Texts *)

Lemma string_of_list_ascii_app (a b : list ascii) :
  string_of_list_ascii (a ++ b) = string_of_list_ascii a ++ string_of_list_ascii b.
Proof. induction a as [|c a IH]; cbn; [|rewrite IH]; reflexivity. Qed.

Lemma list_ascii_of_string_app (a b : string) :
  list_ascii_of_string (a ++ b)
  = (list_ascii_of_string a ++ list_ascii_of_string b)%list.
Proof. induction a as [|c a IH]; cbn; [|rewrite IH]; reflexivity. Qed.

Lemma append_assoc (a b c : string) : (a ++ b) ++ c = a ++ (b ++ c).
Proof. induction a as [|x a IH]; cbn; [|rewrite IH]; reflexivity. Qed.

Lemma prefix_forallb (P : ascii -> bool) (n h : string) :
  String.prefix n h = true ->
  forallb P (list_ascii_of_string h) = true ->
  forallb P (list_ascii_of_string n) = true.
Proof.
  revert h. induction n as [|c n IH]; intros h Hp Hh; auto.
  destruct h as [|d h]; cbn in Hp; try discriminate.
  destruct (ascii_dec c d) as [->|]; try discriminate.
  cbn in *. apply andb_prop in Hh as [Hd Hh]. rewrite Hd. eauto.
Qed.

(** What occurs in a text is made of the bytes of the text. *)
Lemma infix_forallb (P : ascii -> bool) (n h : string) :
  infix_of n h = true ->
  forallb P (list_ascii_of_string h) = true ->
  forallb P (list_ascii_of_string n) = true.
Proof.
  induction h as [|d h IH]; intros Hi Hh.
  - cbn [infix_of] in Hi. rewrite orb_false_r in Hi. eapply prefix_forallb; eauto.
  - cbn [infix_of] in Hi. apply orb_prop in Hi as [Hp|Hr].
    + eapply prefix_forallb; eauto.
    + cbn in Hh. apply andb_prop in Hh as [_ Hh]. auto.
Qed.

(** Induction over a list three elements at a time. *)
Lemma list_ind3 (A : Type) (P : list A -> Prop) :
  P [] -> (forall x, P [x]) -> (forall x y, P [x; y]) ->
  (forall x y z r, P r -> P (x :: y :: z :: r)) ->
  forall l, P l.
Proof.
  intros H0 H1 H2 H3 l.
  assert (G : P l /\ (forall x, P (x :: l)) /\ (forall x y, P (x :: y :: l))).
  { induction l as [|a l (IH0 & IH1 & IH2)].
    - auto.
    - repeat split; auto. }
  apply G.
Qed.

(** *** Base64: decoding what was encoded *)

Lemma value_digit (b5 b4 b3 b2 b1 b0 : bool) :
  Base64.value (Base64.digit (Base64.sextet b5 b4 b3 b2 b1 b0))
  = Some (Base64.sextet b5 b4 b3 b2 b1 b0)
  /\ Base64.is_pad (Base64.digit (Base64.sextet b5 b4 b3 b2 b1 b0)) = false.
Proof. destruct b5, b4, b3, b2, b1, b0; split; reflexivity. Qed.

Lemma sextet_bits (b5 b4 b3 b2 b1 b0 : bool) :
  let n := Base64.sextet b5 b4 b3 b2 b1 b0 in
  Base64.bit n 5 = b5 /\ Base64.bit n 4 = b4 /\ Base64.bit n 3 = b3
  /\ Base64.bit n 2 = b2 /\ Base64.bit n 1 = b1 /\ Base64.bit n 0 = b0.
Proof.
  destruct b5, b4, b3, b2, b1, b0; repeat split; reflexivity.
Qed.

Ltac sextet_bits_of a b c d e f :=
  let H := fresh "H" in
  pose proof (sextet_bits a b c d e f) as H; cbv zeta in H;
  destruct H as (? & ? & ? & ? & ? & ?).

Lemma byte1_sextets (x0 x1 x2 x3 x4 x5 x6 x7 y4 y5 y6 y7 : bool) :
  Base64.byte1 (Base64.sextet x7 x6 x5 x4 x3 x2) (Base64.sextet x1 x0 y7 y6 y5 y4)
  = Ascii x0 x1 x2 x3 x4 x5 x6 x7.
Proof.
  unfold Base64.byte1.
  sextet_bits_of x7 x6 x5 x4 x3 x2. sextet_bits_of x1 x0 y7 y6 y5 y4.
  congruence.
Qed.

Lemma byte2_sextets (x0 x1 y0 y1 y2 y3 y4 y5 y6 y7 z6 z7 : bool) :
  Base64.byte2 (Base64.sextet x1 x0 y7 y6 y5 y4) (Base64.sextet y3 y2 y1 y0 z7 z6)
  = Ascii y0 y1 y2 y3 y4 y5 y6 y7.
Proof.
  unfold Base64.byte2.
  sextet_bits_of x1 x0 y7 y6 y5 y4. sextet_bits_of y3 y2 y1 y0 z7 z6.
  congruence.
Qed.

Lemma byte3_sextets (y0 y1 y2 y3 z0 z1 z2 z3 z4 z5 z6 z7 : bool) :
  Base64.byte3 (Base64.sextet y3 y2 y1 y0 z7 z6) (Base64.sextet z5 z4 z3 z2 z1 z0)
  = Ascii z0 z1 z2 z3 z4 z5 z6 z7.
Proof.
  unfold Base64.byte3.
  sextet_bits_of y3 y2 y1 y0 z7 z6. sextet_bits_of z5 z4 z3 z2 z1 z0.
  congruence.
Qed.

Ltac digits_back :=
  repeat match goal with
         | |- context [Base64.value (Base64.digit (Base64.sextet ?a ?b ?c ?d ?e ?f))] =>
             rewrite (proj1 (value_digit a b c d e f))
         | |- context [Base64.is_pad (Base64.digit (Base64.sextet ?a ?b ?c ?d ?e ?f))] =>
             rewrite (proj2 (value_digit a b c d e f))
         end.

Lemma base64_decode_bytes (bs : bytes) :
  Base64.decode_chars (Base64.encode_bytes bs) = Some bs.
Proof.
  induction bs as [| x | x y | x y z r IH] using list_ind3.
  - reflexivity.
  - destruct x as [x0 x1 x2 x3 x4 x5 x6 x7].
    cbn [Base64.encode_bytes Base64.decode_chars]. digits_back.
    change (Base64.is_pad "=") with true. cbn [andb].
    now rewrite byte1_sextets.
  - destruct x as [x0 x1 x2 x3 x4 x5 x6 x7], y as [y0 y1 y2 y3 y4 y5 y6 y7].
    cbn [Base64.encode_bytes Base64.decode_chars]. digits_back.
    change (Base64.is_pad "=") with true. cbn [andb].
    rewrite byte1_sextets.
    now rewrite (byte2_sextets x0 x1 y0 y1 y2 y3 y4 y5 y6 y7 false false).
  - destruct x as [x0 x1 x2 x3 x4 x5 x6 x7], y as [y0 y1 y2 y3 y4 y5 y6 y7],
      z as [z0 z1 z2 z3 z4 z5 z6 z7].
    cbn [Base64.encode_bytes Base64.decode_chars]. digits_back. cbn [andb].
    rewrite IH.
    now rewrite byte1_sextets, byte2_sextets, byte3_sextets.
Qed.

(** [Buffer.from(buffer.toString('base64'), 'base64')] gives the bytes back. *)
Lemma base64_decode_encode (bs : bytes) :
  Base64.decode (Base64.encode bs) = Some bs.
Proof.
  unfold Base64.decode, Base64.encode.
  rewrite list_ascii_of_string_of_list_ascii.
  apply base64_decode_bytes.
Qed.

Lemma base64_first_digit (b5 b4 b3 b2 b1 b0 : bool) :
  (Base64.digit (Base64.sextet b5 b4 b3 b2 b1 b0) =? "_")%char = false.
Proof. destruct b5, b4, b3, b2, b1, b0; reflexivity. Qed.

(** No Base64 text is the name [__proto__]. *)
Lemma base64_is_not_proto (bs : bytes) :
  (Base64.encode bs =? "__proto__")%string = false.
Proof.
  unfold Base64.encode.
  destruct bs as [|[x0 x1 x2 x3 x4 x5 x6 x7] [|[y0 y1 y2 y3 y4 y5 y6 y7] [|[z0 z1 z2 z3 z4 z5 z6 z7] r]]];
    try reflexivity;
    cbn [Base64.encode_bytes string_of_list_ascii String.eqb];
    now rewrite base64_first_digit.
Qed.

(** *** Plain characters *)

Lemma escape_plain (c : ascii) : plain_char c = true -> JSON.escape_char c = [c].
Proof.
  destruct c as [[] [] [] [] [] [] [] []]; intros H; try reflexivity; discriminate H.
Qed.

Lemma flat_map_escape_plain (cs : list ascii) :
  forallb plain_char cs = true -> flat_map JSON.escape_char cs = cs.
Proof.
  induction cs as [|c cs IH]; cbn [forallb flat_map]; auto.
  intros H. apply andb_prop in H as [Hc Hcs].
  rewrite (escape_plain c Hc), (IH Hcs). reflexivity.
Qed.

(** The JSON text of a string of plain characters: the string in quotes. *)
Lemma quote_plain (s : string) :
  plain s = true -> JSON.quote s = JSON.q "'" ++ s ++ JSON.q "'".
Proof.
  intros H. unfold JSON.quote, JSON.quote_chars.
  rewrite (flat_map_escape_plain _ H).
  cbn [string_of_list_ascii]. rewrite string_of_list_ascii_app.
  rewrite string_of_list_ascii_of_string. reflexivity.
Qed.

Lemma hex_digit_plain (b3 b2 b1 b0 : bool) :
  plain_char (Hex.digit (Hex.nibble b3 b2 b1 b0)) = true
  /\ Hex.is_hex_digit (Hex.digit (Hex.nibble b3 b2 b1 b0)) = true.
Proof. destruct b3, b2, b1, b0; split; reflexivity. Qed.

Lemma hex_plain (b : bytes) : plain (Hex.encode b) = true.
Proof.
  unfold plain, Hex.encode. rewrite list_ascii_of_string_of_list_ascii.
  induction b as [|[x0 x1 x2 x3 x4 x5 x6 x7] b IH]; cbn [Hex.encode_bytes forallb]; auto.
  rewrite (proj1 (hex_digit_plain x7 x6 x5 x4)), (proj1 (hex_digit_plain x3 x2 x1 x0)).
  exact IH.
Qed.

Lemma hex_digits (b : bytes) :
  forallb Hex.is_hex_digit (list_ascii_of_string (Hex.encode b)) = true.
Proof.
  unfold Hex.encode. rewrite list_ascii_of_string_of_list_ascii.
  induction b as [|[x0 x1 x2 x3 x4 x5 x6 x7] b IH]; cbn [Hex.encode_bytes forallb]; auto.
  rewrite (proj2 (hex_digit_plain x7 x6 x5 x4)), (proj2 (hex_digit_plain x3 x2 x1 x0)).
  exact IH.
Qed.

Lemma base64_digit_plain (b5 b4 b3 b2 b1 b0 : bool) :
  plain_char (Base64.digit (Base64.sextet b5 b4 b3 b2 b1 b0)) = true.
Proof. destruct b5, b4, b3, b2, b1, b0; reflexivity. Qed.

Lemma base64_plain (b : bytes) : plain (Base64.encode b) = true.
Proof.
  unfold plain, Base64.encode. rewrite list_ascii_of_string_of_list_ascii.
  induction b as [| x | x y | x y z r IH] using list_ind3.
  - reflexivity.
  - destruct x as [x0 x1 x2 x3 x4 x5 x6 x7].
    cbn [Base64.encode_bytes forallb]. now rewrite !base64_digit_plain.
  - destruct x as [x0 x1 x2 x3 x4 x5 x6 x7], y as [y0 y1 y2 y3 y4 y5 y6 y7].
    cbn [Base64.encode_bytes forallb]. now rewrite !base64_digit_plain.
  - destruct x as [x0 x1 x2 x3 x4 x5 x6 x7], y as [y0 y1 y2 y3 y4 y5 y6 y7],
      z as [z0 z1 z2 z3 z4 z5 z6 z7].
    cbn [Base64.encode_bytes forallb]. now rewrite !base64_digit_plain.
Qed.

(** *** Own properties *)

Lemma lookup_upsert {V : Type} (k : string) (v : V) (ps : list (string * V)) :
  JS.lookup k (JS.upsert k v ps) = Some v.
Proof.
  induction ps as [|[k' v'] ps IH]; cbn.
  - now rewrite String.eqb_refl.
  - destruct (k' =? k)%string eqn:E; cbn; rewrite E; auto.
Qed.

Lemma lookup_erase {V : Type} (k : string) (ps : list (string * V)) :
  JS.lookup k (JS.erase k ps) = None.
Proof.
  induction ps as [|[k' v'] ps IH]; cbn; auto.
  destruct (k' =? k)%string eqn:E; cbn; try rewrite E; auto.
Qed.

(** After [obj[name] = value] with a Base64 name, [obj[name]] is the value. *)
Lemma obj_get_put (props : JS.Props) (bs : bytes) (value : string) :
  JS.obj_get (JS.obj_put props (Base64.encode bs) value) (Base64.encode bs)
  = JS.JStr value.
Proof.
  unfold JS.obj_get, JS.obj_put.
  destruct (JS.lookup (Base64.encode bs) props).
  - now rewrite lookup_upsert.
  - rewrite base64_is_not_proto. now rewrite lookup_upsert.
Qed.

Lemma strings_only_lookup (props : JS.Props) (k : string) (v : JS.JSValue) :
  strings_only props = true -> JS.lookup k props = Some v ->
  exists s, v = JS.JStr s.
Proof.
  induction props as [|[k' v'] props IH]; cbn; try discriminate.
  intros H E. apply andb_prop in H as [Hv Hp].
  destruct (k' =? k)%string.
  - injection E as <-. destruct v'; try discriminate. eauto.
  - auto.
Qed.

Lemma strings_only_upsert (props : JS.Props) (k s : string) :
  strings_only props = true -> strings_only (JS.upsert k (JS.JStr s) props) = true.
Proof.
  induction props as [|[k' v'] props IH]; cbn; auto.
  intros H. apply andb_prop in H as [Hv Hp].
  destruct (k' =? k)%string; cbn; [|rewrite Hv]; auto.
Qed.

Lemma strings_only_erase (props : JS.Props) (k : string) :
  strings_only props = true -> strings_only (JS.erase k props) = true.
Proof.
  induction props as [|[k' v'] props IH]; cbn; auto.
  intros H. apply andb_prop in H as [Hv Hp].
  destruct (k' =? k)%string; cbn; [|rewrite Hv]; auto.
Qed.

Lemma strings_only_filter (props : JS.Props) (keep : string * JS.JSValue -> bool) :
  strings_only props = true -> strings_only (filter keep props) = true.
Proof.
  induction props as [|p props IH]; cbn; auto.
  intros H. apply andb_prop in H as [Hv Hp].
  destruct (keep p); cbn; [rewrite Hv|]; auto.
Qed.

(** *** Reading back what [JSON.stringify] wrote *)

Lemma parse_chars_plain (cs rest : list ascii) :
  forallb plain_char cs = true ->
  JSON.parse_chars (cs ++ JSON.dquote :: rest) = JSON.POk cs rest.
Proof.
  induction cs as [|c cs IH]; intros H.
  - reflexivity.
  - cbn [forallb] in H. apply andb_prop in H as [Hc Hcs].
    cbn [app JSON.parse_chars]. rewrite (IH Hcs).
    unfold plain_char in Hc.
    destruct (N_of_ascii c <? 32)%N, (N_of_ascii c =? 34)%N, (N_of_ascii c =? 92)%N;
      try discriminate Hc.
    reflexivity.
Qed.

(** Every byte comes back from its escaped form. *)
Lemma parse_chars_escape (c : ascii) (tail : list ascii) :
  JSON.parse_chars (JSON.escape_char c ++ tail)
  = JSON.prepend [c] (JSON.parse_chars tail).
Proof. destruct c as [[] [] [] [] [] [] [] []]; reflexivity. Qed.

Lemma parse_chars_quoted (cs rest : list ascii) :
  JSON.parse_chars (flat_map JSON.escape_char cs ++ JSON.dquote :: rest)
  = JSON.POk cs rest.
Proof.
  induction cs as [|c cs IH].
  - reflexivity.
  - cbn [flat_map]. rewrite <- app_assoc, parse_chars_escape, IH. reflexivity.
Qed.

(** One step of [parse_value] at a brace, at a bracket, at a quote. *)
Lemma value_object (f : nat) (r : list ascii) :
  JSON.parse_value (S f) ("{"%char :: JSON.dquote :: r)
  = JSON.parse_members (JSON.parse_value f) f [] (JSON.dquote :: r).
Proof. reflexivity. Qed.

Lemma value_array_step (f : nat) (c : ascii) (r : list ascii) :
  JSON.is_ws c = false ->
  (N_of_ascii c =? 93)%N = false ->
  JSON.parse_value (S f) ("["%char :: c :: r)
  = JSON.parse_elements (JSON.parse_value f) f 0 [] (c :: r).
Proof.
  intros Hw Hc. cbn [JSON.parse_value].
  change (JSON.skip_ws ("["%char :: ?x)) with ("["%char :: x).
  cbv beta iota zeta.
  change (N_of_ascii "[" =? 123)%N with false.
  change (N_of_ascii "[" =? 91)%N with true. cbv iota.
  cbn [JSON.skip_ws]. rewrite Hw, Hc. reflexivity.
Qed.

Lemma value_string (f : nat) (v rest : list ascii) :
  forallb plain_char v = true ->
  JSON.parse_value (S f) (JSON.dquote :: v ++ JSON.dquote :: rest)
  = JSON.POk (JS.JStr (string_of_list_ascii v)) rest.
Proof.
  intros Hv. cbn [JSON.parse_value].
  change (JSON.skip_ws (JSON.dquote :: ?x)) with (JSON.dquote :: x).
  cbv beta iota zeta.
  change (N_of_ascii JSON.dquote =? 123)%N with false.
  change (N_of_ascii JSON.dquote =? 91)%N with false.
  change (N_of_ascii JSON.dquote =? 34)%N with true.
  cbv iota. rewrite (parse_chars_plain v _ Hv). reflexivity.
Qed.

Section Members.

Variable inner : list ascii -> JSON.Parsed JS.JSValue.

(** A member whose key is plain and whose value [inner] reads, followed by
    a comma or by the closing brace. *)
Lemma member_then_comma (f : nat) (acc : JS.Props) (k s r : list ascii)
  (v : JS.JSValue) :
  forallb plain_char k = true ->
  inner s = JSON.POk v (","%char :: r) ->
  JSON.parse_members inner (S f) acc
    (JSON.dquote :: k ++ JSON.dquote :: ":"%char :: s)
  = JSON.parse_members inner f (JS.upsert (string_of_list_ascii k) v acc) r.
Proof.
  intros Hk Hv. cbn [JSON.parse_members].
  change (JSON.skip_ws (JSON.dquote :: ?x)) with (JSON.dquote :: x).
  cbv beta iota.
  change (N_of_ascii JSON.dquote =? 34)%N with true. cbn [negb].
  rewrite (parse_chars_plain k _ Hk).
  change (JSON.skip_ws (":"%char :: s)) with (":"%char :: s). cbv beta iota.
  change (N_of_ascii ":" =? 58)%N with true. cbn [negb].
  rewrite Hv. reflexivity.
Qed.

Lemma member_then_brace (f : nat) (acc : JS.Props) (k s r : list ascii)
  (v : JS.JSValue) :
  forallb plain_char k = true ->
  inner s = JSON.POk v ("}"%char :: r) ->
  JSON.parse_members inner (S f) acc
    (JSON.dquote :: k ++ JSON.dquote :: ":"%char :: s)
  = JSON.POk (JS.JObj (JS.upsert (string_of_list_ascii k) v acc)) r.
Proof.
  intros Hk Hv. cbn [JSON.parse_members].
  change (JSON.skip_ws (JSON.dquote :: ?x)) with (JSON.dquote :: x).
  cbv beta iota.
  change (N_of_ascii JSON.dquote =? 34)%N with true. cbn [negb].
  rewrite (parse_chars_plain k _ Hk).
  change (JSON.skip_ws (":"%char :: s)) with (":"%char :: s). cbv beta iota.
  change (N_of_ascii ":" =? 58)%N with true. cbn [negb].
  rewrite Hv. reflexivity.
Qed.

End Members.

Lemma reads_quote (s : string) : reads 0 (JSON.quote s) (JS.JStr s).
Proof.
  intros f rest _. unfold JSON.quote, JSON.quote_chars.
  rewrite list_ascii_of_string_of_list_ascii.
  cbn [app]. rewrite <- app_assoc. cbn [app].
  cbn [JSON.parse_value].
  change (JSON.skip_ws (JSON.dquote :: ?x)) with (JSON.dquote :: x).
  cbv beta iota zeta.
  change (N_of_ascii JSON.dquote =? 123)%N with false.
  change (N_of_ascii JSON.dquote =? 91)%N with false.
  change (N_of_ascii JSON.dquote =? 34)%N with true.
  cbv iota. rewrite parse_chars_quoted.
  now rewrite string_of_list_ascii_of_string.
Qed.

Lemma reads_null : reads 0 "null" JS.JNull.
Proof. intros f rest _. reflexivity. Qed.

Lemma reads_elem (o : option string) : reads 0 (elem_text o) (elem_value o).
Proof. destruct o; [apply reads_quote|apply reads_null]. Qed.

Lemma join_cons2 (sep a b : string) (r : list string) :
  JSON.join sep (a :: b :: r) = a ++ sep ++ JSON.join sep (b :: r).
Proof. reflexivity. Qed.

(** The elements of an array of strings and holes, read one after the
    other up to the closing bracket. *)
Lemma elements_read (f0 : nat) (os : list (option string)) :
  forall (o : option string) (fuel : nat) (i : N) (acc : JS.Props) (rest : list ascii),
    List.length os < fuel ->
    JSON.parse_elements (JSON.parse_value (S f0)) fuel i acc
      (list_ascii_of_string (JSON.join "," (map elem_text (o :: os)))
         ++ "]"%char :: rest)
    = JSON.POk
        (JS.JArr (i + N.of_nat (S (List.length os)))
           (acc ++ entries i (o :: os))) rest.
Proof.
  induction os as [|o' os IH]; intros o fuel i acc rest Hf;
    (destruct fuel as [|fuel]; [cbn in Hf; lia|]).
  - cbn [map JSON.join]. cbn [JSON.parse_elements].
    rewrite (reads_elem o f0 _ (Nat.le_0_l _)).
    reflexivity.
  - cbn [map]. rewrite join_cons2. rewrite !list_ascii_of_string_app.
    rewrite <- !app_assoc. cbn [JSON.parse_elements].
    rewrite (reads_elem o f0 _ (Nat.le_0_l _)).
    cbn [list_ascii_of_string app].
    change (JSON.skip_ws (","%char :: ?x)) with (","%char :: x).
    cbv beta iota.
    change (N_of_ascii "," =? 44)%N with true. cbv iota.
    change (elem_text o' :: map elem_text os) with (map elem_text (o' :: os)).
    rewrite IH by (cbn in Hf; lia).
    cbn [entries List.length]. rewrite <- app_assoc. cbn [app].
    f_equal. f_equal. lia.
Qed.

Lemma elem_text_head (o : option string) :
  exists c r, list_ascii_of_string (elem_text o) = c :: r
              /\ JSON.is_ws c = false /\ (N_of_ascii c =? 93)%N = false.
Proof.
  destruct o as [s|].
  - exists JSON.dquote. eexists. split; [|split; reflexivity].
    unfold elem_text, JSON.quote, JSON.quote_chars.
    rewrite list_ascii_of_string_of_list_ascii. reflexivity.
  - exists "n"%char. eexists. repeat split; reflexivity.
Qed.

(** [JSON.parse] reads the text of an array of strings and holes back. *)
Lemma reads_array (os : list (option string)) :
  reads (List.length os) (array_text os) (array_value os).
Proof.
  intros f rest Hf. unfold array_text.
  rewrite !list_ascii_of_string_app. cbn [list_ascii_of_string app].
  rewrite <- app_assoc. cbn [app].
  destruct os as [|o os].
  - reflexivity.
  - destruct f as [|f0]; [cbn in Hf; lia|].
    destruct (elem_text_head o) as (c & r & Hc & Hw & Hb).
    assert (Hj : exists r', list_ascii_of_string
                              (JSON.join "," (map elem_text (o :: os))) = c :: r').
    { destruct os as [|o' os]; cbn [map].
      - cbn [JSON.join]. eauto.
      - rewrite join_cons2, list_ascii_of_string_app, Hc. cbn [app]. eauto. }
    destruct Hj as [r' Hj].
    pose proof (elements_read f0 os o (S f0) 0 [] rest) as E.
    rewrite Hj in *. cbn [app] in *.
    rewrite (value_array_step (S f0) c _ Hw Hb).
    rewrite E by (cbn in Hf; lia).
    unfold array_value. cbn [app List.length]. reflexivity.
Qed.

Lemma length_elem_text (o : option string) :
  1 <= List.length (list_ascii_of_string (elem_text o)).
Proof.
  destruct o as [s|]; cbn; [|lia].
  unfold JSON.quote, JSON.quote_chars.
  rewrite list_ascii_of_string_of_list_ascii. cbn. lia.
Qed.

Lemma length_join_texts (os : list (option string)) :
  List.length os
  <= List.length (list_ascii_of_string (JSON.join "," (map elem_text os))).
Proof.
  induction os as [|o [|o' os] IH].
  - cbn. lia.
  - cbn [map JSON.join List.length]. apply length_elem_text.
  - cbn [map] in *. rewrite join_cons2.
    rewrite !list_ascii_of_string_app, !length_app.
    pose proof (length_elem_text o). cbn [List.length] in *. lia.
Qed.

Lemma length_array_text (os : list (option string)) :
  List.length os <= List.length (list_ascii_of_string (array_text os)).
Proof.
  unfold array_text.
  rewrite !list_ascii_of_string_app, !length_app.
  pose proof (length_join_texts os). lia.
Qed.

(** *** The blob of the first listing *)

Ltac eval_q :=
  repeat match goal with
         | |- context [JSON.q ?s] =>
             let v := eval vm_compute in (JSON.q s) in change (JSON.q s) with v
         end.

Lemma blob1_as_bytes (s i t : string) :
  list_ascii_of_string (blob1 s i (Some t))
  = blob1_bytes (list_ascii_of_string s) (list_ascii_of_string i)
      (list_ascii_of_string t).
Proof.
  unfold blob1, blob1_bytes. eval_q.
  rewrite !list_ascii_of_string_app. reflexivity.
Qed.

Lemma parse_value_blob1 (n m : nat) (s i : list ascii) (t : string) (v : JS.JSValue) :
  forallb plain_char s = true -> forallb plain_char i = true ->
  reads m t v -> m <= S (S (S n)) ->
  JSON.parse_value (S (S (S (S (S n))))) (blob1_bytes s i (list_ascii_of_string t))
  = JSON.POk
      (JS.JObj [("salt", JS.JStr (string_of_list_ascii s));
                ("iv", JS.JStr (string_of_list_ascii i));
                ("data", v); ("kvs", v)]) [].
Proof.
  intros Hs Hi Ht Hm. unfold blob1_bytes.
  rewrite value_object.
  erewrite member_then_comma;
    [ | reflexivity | apply value_string; exact Hs ].
  erewrite member_then_comma;
    [ | reflexivity | apply value_string; exact Hi ].
  erewrite member_then_comma;
    [ | reflexivity | apply Ht; exact Hm ].
  erewrite member_then_brace;
    [ | reflexivity | apply Ht; exact Hm ].
  reflexivity.
Qed.

(** [JSON.parse] reads a blob of the first listing back, when it reads the
    text of the container. *)
Lemma parse_blob1 (m : nat) (s i t : string) (v : JS.JSValue) :
  plain s = true -> plain i = true ->
  reads m t v -> m <= List.length (list_ascii_of_string t) ->
  JSON.parse (blob1 s i (Some t))
  = Returns (JS.JObj [("salt", JS.JStr s); ("iv", JS.JStr i);
                      ("data", v); ("kvs", v)]).
Proof.
  intros Hs Hi Ht Hm. unfold JSON.parse. rewrite blob1_as_bytes.
  assert (F : exists n,
             List.length
               (blob1_bytes (list_ascii_of_string s) (list_ascii_of_string i)
                  (list_ascii_of_string t)) = S (S (S (S n)))
             /\ m <= S (S (S n))).
  { unfold blob1_bytes. cbn [List.length app list_ascii_of_string].
    eexists. split; [reflexivity|].
    repeat (rewrite length_app; cbn [List.length]). lia. }
  destruct F as (n & -> & Hn).
  rewrite (parse_value_blob1 n m _ _ t v Hs Hi Ht Hn).
  cbn [JSON.skip_ws]. now rewrite !string_of_list_ascii_of_string.
Qed.

(** *** The JSON text of an array of strings *)

Lemma lookup_map_snd {V W : Type} (g : V -> W) (k : string) (ps : list (string * V)) :
  JS.lookup k (map (fun p => (fst p, g (snd p))) ps)
  = option_map g (JS.lookup k ps).
Proof.
  induction ps as [|[k' v] ps IH]; cbn; auto.
  destruct (k' =? k)%string; auto.
Qed.

Lemma stringify_array_texts (len : N) (props : JS.Props) :
  JSON.stringify (JS.JArr len props)
  = Some ("[" ++ JSON.join ","
                   (map (JSON.element
                           (map (fun p => (fst p, JSON.stringify (snd p))) props))
                        (JSON.indices len)) ++ "]").
Proof.
  cbn [JSON.stringify].
  match goal with
  | |- context [JSON.element ?t] =>
      assert (E : t = map (fun p => (fst p, JSON.stringify (snd p))) props)
  end.
  { induction props as [|[k v] props IH]; cbn [map fst snd]; [|rewrite IH];
      reflexivity. }
  rewrite E. reflexivity.
Qed.

Lemma stringify_strings (len : N) (props : JS.Props) :
  strings_only props = true ->
  JSON.stringify (JS.JArr len props)
  = Some (array_text (map (slot props) (JSON.indices len))).
Proof.
  intros H. rewrite stringify_array_texts. unfold array_text.
  rewrite map_map. do 4 f_equal. apply map_ext. intros i.
  unfold JSON.element, slot. rewrite lookup_map_snd.
  destruct (JS.lookup (JS.N_to_string i) props) as [v|] eqn:E; cbn; auto.
  destruct (strings_only_lookup _ _ _ H E) as [s ->]. reflexivity.
Qed.

(** ** How the steps of a method end *)

Lemma bind_assoc {A B C : Type} (m : Outcome A) (f : A -> Outcome B)
  (g : B -> Outcome C) :
  bind (bind m f) g = bind m (fun x => bind (f x) g).
Proof. destruct m; reflexivity. Qed.

Lemma parse_throws (text : string) (e : JSError) :
  JSON.parse text = Throws e -> e = EngineSyntaxError.
Proof.
  unfold JSON.parse.
  destruct (JSON.parse_value _ _) as [v r| |]; try discriminate.
  - destruct (JSON.skip_ws r); try discriminate. now intros [= <-].
  - now intros [= <-].
Qed.

Lemma GetV_throws (v : JS.JSValue) (name : string) (e : JSError) :
  JS.GetV v name = Throws e -> e = EngineTypeError.
Proof.
  destruct v; cbn; try discriminate; try (now intros [= <-]).
  - destruct (name =? "length")%string; try discriminate.
    destruct (JS.array_index name); discriminate.
  - destruct (JS.lookup name props); try discriminate.
    destruct (name =? "length")%string; discriminate.
Qed.

Lemma Buffer_from_throws (v : JS.JSValue) (decode : string -> option bytes)
  (e : JSError) :
  Buffer_from v decode = Throws e -> e = EngineTypeError.
Proof.
  destruct v; cbn; try discriminate; try (now intros [= <-]).
  destruct (decode s); discriminate.
Qed.

(** Peels the steps of a computation that is known to return. *)
Ltac step_returns H :=
  repeat match type of H with
         | bind ?m _ = Returns _ =>
             let E := fresh "E" in
             destruct m eqn:E; cbn [bind] in H; try discriminate H
         | (if ?b then _ else _) = Returns _ =>
             let E := fresh "E" in destruct b eqn:E; try discriminate H
         | match ?x with _ => _ end = Returns _ =>
             let E := fresh "E" in destruct x eqn:E; try discriminate H
         end.

(** Peels the steps of a computation that is known to throw an error that
    the runtime does not raise. *)
Ltac step_throws H :=
  repeat match type of H with
         | bind (JSON.parse ?s) _ = Throws _ =>
             let E := fresh "E" in
             destruct (JSON.parse s) eqn:E; cbn [bind] in H;
             [ | injection H as ->; apply parse_throws in E; discriminate E
               | discriminate H ]
         | bind (JS.GetV ?v ?n) _ = Throws _ =>
             let E := fresh "E" in
             destruct (JS.GetV v n) eqn:E; cbn [bind] in H;
             [ | injection H as ->; apply GetV_throws in E; discriminate E
               | discriminate H ]
         | bind (Buffer_from ?v ?d) _ = Throws _ =>
             let E := fresh "E" in
             destruct (Buffer_from v d) eqn:E; cbn [bind] in H;
             [ | injection H as ->; apply Buffer_from_throws in E; discriminate E
               | discriminate H ]
         | bind (match ?x with _ => _ end) _ = Throws _ =>
             destruct x; cbn [bind] in H; try discriminate H
         | (if ?b then _ else _) = Throws _ => destruct b; try discriminate H
         | match ?x with _ => _ end = Throws _ => destruct x; try discriminate H
         end.

(** ** The record operations leave the rest of the store alone *)

Section Frame1.

Import Keychain1.

Lemma get1_frame (name : string) (k : Keychain) : snd (get name k) = k.
Proof. unfold get. now destruct (JS.GetV (data k) name). Qed.

Lemma set1_frame (name value : string) (k : Keychain) :
  salt (snd (set name value k)) = salt k /\ iv (snd (set name value k)) = iv k
  /\ password (snd (set name value k)) = password k.
Proof. unfold set. now destruct (JS.PutV (data k) name value). Qed.

Lemma remove1_frame (name : string) (k : Keychain) :
  salt (snd (remove name k)) = salt k /\ iv (snd (remove name k)) = iv k
  /\ password (snd (remove name k)) = password k.
Proof.
  unfold remove.
  destruct (JS.GetV (data k) name) as [v| |]; auto.
  destruct (JS.truthy v); auto.
  now destruct (JS.DeleteV (data k) name).
Qed.

Lemma exec1_frame (c : Call) (k : Keychain) :
  salt (snd (Run1.exec c k)) = salt k /\ iv (snd (Run1.exec c k)) = iv k
  /\ password (snd (Run1.exec c k)) = password k.
Proof.
  destruct c; cbn [Run1.exec void snd].
  - now rewrite get1_frame.
  - apply set1_frame.
  - apply remove1_frame.
Qed.

Lemma run1_frame (cs : list Call) :
  forall k k' : Keychain,
    Run1.run cs k = Some k' ->
    salt k' = salt k /\ iv k' = iv k /\ password k' = password k.
Proof.
  induction cs as [|c cs IH]; intros k k' H; cbn [Run1.run] in H.
  - injection H as <-. auto.
  - destruct (exec1_frame c k) as (Hs & Hi & Hp).
    destruct (Run1.exec c k) as [o k1]. cbn [snd] in *.
    destruct o; try discriminate H;
      destruct (IH _ _ H) as (Hs' & Hi' & Hp'); repeat split; congruence.
Qed.

(** [remove] that answers [false] has touched nothing. *)
Lemma remove1_false (name : string) (k : Keychain) :
  fst (remove name k) = Returns false -> snd (remove name k) = k.
Proof.
  unfold remove.
  destruct (JS.GetV (data k) name) as [v| |]; auto.
  destruct (JS.truthy v); auto.
  destruct (JS.DeleteV (data k) name); cbn; auto; discriminate.
Qed.

(** The container of a store that [init] created stays an array of
    strings. *)
Lemma exec1_strings (c : Call) (k : Keychain) :
  array_of_strings (data k) = true ->
  array_of_strings (data (snd (Run1.exec c k))) = true.
Proof.
  intros H. destruct (data k) as [ | | | | |len props| | ] eqn:D; try discriminate H.
  cbn [array_of_strings] in H.
  assert (K : array_of_strings (data k) = true) by (rewrite D; exact H).
  destruct c as [name|name value|name]; cbn [Run1.exec void snd].
  - now rewrite get1_frame.
  - unfold set. rewrite D. cbn [JS.PutV].
    destruct (JS.lookup name props);
      [cbn [snd with_data data array_of_strings]; now apply strings_only_upsert|].
    destruct (name =? "length")%string.
    { destruct (JS.array_length_of_string value);
        cbn [snd with_data data array_of_strings]; auto.
      now apply strings_only_filter. }
    destruct (name =? "__proto__")%string;
      [cbn [snd with_data data array_of_strings]; exact H|].
    destruct (JS.array_index name);
      cbn [snd with_data data array_of_strings]; now apply strings_only_upsert.
  - unfold remove. rewrite D. cbn [JS.GetV JS.DeleteV].
    destruct (JS.lookup name props) as [v|].
    { destruct (JS.truthy v); cbn [snd with_data data array_of_strings]; auto.
      now apply strings_only_erase. }
    destruct (name =? "length")%string.
    { destruct (JS.truthy _); cbn [snd with_data data array_of_strings]; auto. }
    destruct (JS.truthy _); cbn [snd with_data data array_of_strings]; auto.
Qed.

Lemma run1_strings (cs : list Call) :
  forall k k' : Keychain,
    array_of_strings (data k) = true ->
    Run1.run cs k = Some k' ->
    array_of_strings (data k') = true.
Proof.
  induction cs as [|c cs IH]; intros k k' Hk H; cbn [Run1.run] in H.
  - now injection H as <-.
  - pose proof (exec1_strings c k Hk) as Hc.
    destruct (Run1.exec c k) as [o k1]. cbn [snd] in *.
    destruct o; try discriminate H; eauto.
Qed.

End Frame1.

Section Frame3.

Import Keychain3.

Lemma exec3_frame (c : Call) (k : Keychain) :
  salt (snd (Run3.exec c k)) = salt k /\ iv (snd (Run3.exec c k)) = iv k
  /\ key (snd (Run3.exec c k)) = key k.
Proof.
  destruct c; cbn [Run3.exec void snd]; unfold get, set, remove;
    repeat match goal with |- context [if ?b then _ else _] => destruct b end;
    auto.
Qed.

Lemma run3_frame (cs : list Call) :
  forall k k' : Keychain,
    Run3.run cs k = Some k' ->
    salt k' = salt k /\ iv k' = iv k /\ key k' = key k.
Proof.
  induction cs as [|c cs IH]; intros k k' H; cbn [Run3.run] in H.
  - injection H as <-. auto.
  - destruct (exec3_frame c k) as (Hs & Hi & Hp).
    destruct (Run3.exec c k) as [o k1]. cbn [snd] in *.
    destruct o; try discriminate H;
      destruct (IH _ _ H) as (Hs' & Hi' & Hp'); repeat split; congruence.
Qed.

(** In the third listing [get] after [set] gives the secret back, the empty
    one included. *)
Lemma get3_after_set (name value : string) (k : Keychain) :
  fst (get name (snd (set name value k))) = Returns (JS.JStr value).
Proof.
  unfold get, set, encodeBuffer, stringToBuffer. cbn [snd data with_data].
  rewrite obj_get_put. cbn [JS.strict_equal negb fst].
  unfold decodeBuffer, Buffer_from. rewrite base64_decode_encode. cbn [bind].
  unfold bufferToString. now rewrite string_of_list_ascii_of_string.
Qed.

End Frame3.

(** C10.  A call of [get], [set] or [remove], returning or throwing, leaves
    the store's [salt] and [iv] as they were, in the first listing and in
    the third, and so does every sequence of such calls; the two fields are
    written by the constructor, on behalf of [init] and [load], and by
    [load] itself. *)
Theorem record_operations_keep_salt_and_iv :
  forall (c : Call) (cs : list Call)
         (k1 : Keychain1.Keychain) (k3 : Keychain3.Keychain),
    (Keychain1.salt (snd (Run1.exec c k1)) = Keychain1.salt k1
     /\ Keychain1.iv (snd (Run1.exec c k1)) = Keychain1.iv k1)
    /\ (Keychain3.salt (snd (Run3.exec c k3)) = Keychain3.salt k3
        /\ Keychain3.iv (snd (Run3.exec c k3)) = Keychain3.iv k3)
    /\ match Run1.run cs k1 with
       | Some k => Keychain1.salt k = Keychain1.salt k1
                   /\ Keychain1.iv k = Keychain1.iv k1
       | None => True
       end
    /\ match Run3.run cs k3 with
       | Some k => Keychain3.salt k = Keychain3.salt k3
                   /\ Keychain3.iv k = Keychain3.iv k3
       | None => True
       end.
Proof.
  intros c cs k1 k3. repeat split.
  - apply exec1_frame.
  - apply exec1_frame.
  - apply exec3_frame.
  - apply exec3_frame.
  - destruct (Run1.run cs k1) as [k|] eqn:E; auto.
    destruct (run1_frame cs k1 k E) as (? & ? & _). auto.
  - destruct (Run3.run cs k3) as [k|] eqn:E; auto.
    destruct (run3_frame cs k3 k E) as (? & ? & _). auto.
Qed.

(** ** The first listing at the public interface *)

(** On a fresh store a name that the prototype chain of an array does not
    know reads as [null]; so does [length], which is [0]. *)
Lemma fresh_store_other_names (pw : string) (rs ri : bytes) (name : string) :
  JS.inherited JS.array_chain name = JS.JUndefined ->
  fst (Keychain1.get name (Keychain1.init pw rs ri)) = Returns JS.JNull.
Proof.
  intros H. unfold Keychain1.get, Keychain1.init. cbn -[JS.inherited].
  destruct (name =? "length")%string; cbn -[JS.inherited]; auto.
  now rewrite H.
Qed.

(** C9.  On a store fresh from [init], [get("constructor")] does not return
    [null]: [this.data["constructor"]] reaches the constructor that every
    array inherits, and [|| null] lets it through. *)
Theorem fresh_store_get_constructor :
  forall (pw : string) (rs ri : bytes),
    fst (Keychain1.get "constructor" (Keychain1.init pw rs ri))
    = Returns (JS.JBuiltin "Array.prototype.constructor").
Proof. intros. reflexivity. Qed.

(** C7.  [remove] tests [this.data[name]] for truth.  On a fresh store
    [remove("constructor")] answers [true] although no entry exists, and
    leaves the store as it was, so that [get("constructor")] still is not
    [null]; after [set("example.com", "")] the entry exists and
    [remove("example.com")] answers [false] and keeps it. *)
Theorem remove_answers_by_truthiness :
  forall (pw : string) (rs ri : bytes),
    let fresh := Keychain1.init pw rs ri in
    let k := snd (Keychain1.set "example.com" "" fresh) in
    Keychain1.remove "constructor" fresh = (Returns true, fresh)
    /\ Keychain1.data k = JS.JArr 0 [("example.com", JS.JStr "")]
    /\ Keychain1.remove "example.com" k = (Returns false, k).
Proof. intros. repeat split. Qed.

(** [get] never returns the empty string: [|| null] turns it into [null]. *)
Lemma get1_never_empty (name : string) (k : Keychain1.Keychain) :
  fst (Keychain1.get name k) <> Returns (JS.JStr "").
Proof.
  unfold Keychain1.get.
  destruct (JS.GetV (Keychain1.data k) name) as [v| |]; cbn; try discriminate.
  destruct (JS.truthy v) eqn:E; try discriminate.
  intros H. injection H as ->. discriminate.
Qed.

(** C6.  In the first listing the empty secret does not come back:
    after [set("example.com", "")] on a fresh store, [get("example.com")]
    returns [null]; and on no store does [get] after [set(name, "")] return
    the empty string. *)
Theorem empty_secret_reads_back_null :
  forall (pw : string) (rs ri : bytes) (name : string) (k : Keychain1.Keychain),
    fst (Keychain1.get "example.com"
           (snd (Keychain1.set "example.com" "" (Keychain1.init pw rs ri))))
    = Returns JS.JNull
    /\ fst (Keychain1.get name (snd (Keychain1.set name "" k)))
       <> Returns (JS.JStr "").
Proof.
  intros. split.
  - reflexivity.
  - apply get1_never_empty.
Qed.

(** A secret that is not empty, under a name that is neither [length] nor
    [__proto__], does come back on a fresh store. *)
Lemma get1_after_set (pw : string) (rs ri : bytes) (name value : string) :
  (name =? "length")%string = false ->
  (name =? "__proto__")%string = false ->
  (value =? "")%string = false ->
  fst (Keychain1.get name (snd (Keychain1.set name value (Keychain1.init pw rs ri))))
  = Returns (JS.JStr value).
Proof.
  intros Hl Hp Hv. unfold Keychain1.get, Keychain1.set, Keychain1.init.
  cbn. rewrite Hl, Hp.
  destruct (JS.array_index name); cbn; rewrite String.eqb_refl; cbn; now rewrite Hv.
Qed.

(** ** The third listing at the public interface *)

(** In memory the third listing does what the scenario asks: after
    [set("example.com", "p@ssw0rd")] on a store fresh from [init],
    [get("example.com")] returns the secret, [get("other.com")] returns
    [null], [remove("example.com")] answers [true] and [get("example.com")]
    returns [null] from then on. *)
Example scenario_in_memory (crypto : NodeCrypto) (rs ri : bytes) :
  match Keychain3.init crypto "Correct-Horse9!" rs ri with
  | Returns k0 =>
      let k := snd (Keychain3.set "example.com" "p@ssw0rd" k0) in
      fst (Keychain3.get "example.com" k) = Returns (JS.JStr "p@ssw0rd")
      /\ fst (Keychain3.get "other.com" k) = Returns JS.JNull
      /\ fst (Keychain3.remove "example.com" k) = Returns true
      /\ fst (Keychain3.get "example.com" (snd (Keychain3.remove "example.com" k)))
         = Returns JS.JNull
      /\ Run3.run [CallSet "example.com" "p@ssw0rd"; CallGet "example.com"] k0
         = Some k
  | _ => False
  end.
Proof. cbn. repeat split. Qed.

(** ** [dump] *)

Lemma serialize1_layout (k : Keychain1.Keychain) :
  Keychain1.serialize k
  = Some (blob1 (Base64.encode (Keychain1.salt k)) (Base64.encode (Keychain1.iv k))
            (JSON.stringify (Keychain1.data k))).
Proof.
  unfold Keychain1.serialize, Keychain1.dumped.
  cbn -[JSON.quote JSON.q String.append].
  rewrite !(quote_plain _ (base64_plain _)).
  unfold blob1.
  destruct (JSON.stringify (Keychain1.data k)) as [t|];
    cbn -[String.append]; f_equal;
    change (JSON.quote "salt") with (JSON.q "'salt'");
    change (JSON.quote "iv") with (JSON.q "'iv'");
    change (JSON.quote "data") with (JSON.q "'data'");
    change (JSON.quote "kvs") with (JSON.q "'kvs'");
    repeat rewrite append_assoc; reflexivity.
Qed.

Lemma dump3_layout (crypto : NodeCrypto) (k : Keychain3.Keychain) (rs ri : bytes) :
  Keychain3.salt k = Keychain3.Buf rs ->
  Keychain3.iv k = Keychain3.Buf ri ->
  exists plain,
    JSON.stringify (JS.JObj (Keychain3.data k)) = Some plain
    /\ Keychain3.dump crypto k
       = Returns
           (blob3 (Hex.encode rs) (Hex.encode ri)
              (Hex.encode (aes256gcm crypto (Keychain3.key k) ri
                             (list_ascii_of_string plain))),
            Hex.encode
              (sha256 crypto
                 (list_ascii_of_string
                    (blob3 (Hex.encode rs) (Hex.encode ri)
                       (Hex.encode (aes256gcm crypto (Keychain3.key k) ri
                                      (list_ascii_of_string plain))))))).
Proof.
  intros Hs Hi. unfold Keychain3.dump. rewrite Hs, Hi.
  cbn [Keychain3.toString_hex Keychain3.field_bytes].
  destruct (JSON.stringify (JS.JObj (Keychain3.data k))) as [plain|] eqn:E;
    [|discriminate E].
  exists plain. split; auto.
  set (ct := Hex.encode (aes256gcm _ _ _ _)).
  assert (L : JSON.stringify
                (JS.JObj [("salt", JS.JStr (Hex.encode rs));
                          ("iv", JS.JStr (Hex.encode ri));
                          ("data", JS.JStr ct)])
              = Some (blob3 (Hex.encode rs) (Hex.encode ri) ct)).
  { cbn -[JSON.quote JSON.q String.append].
    subst ct. rewrite !(quote_plain _ (hex_plain _)).
    unfold blob3. f_equal.
    change (JSON.quote "salt") with (JSON.q "'salt'");
    change (JSON.quote "iv") with (JSON.q "'iv'");
    change (JSON.quote "data") with (JSON.q "'data'");
    repeat rewrite append_assoc; reflexivity. }
  rewrite L. reflexivity.
Qed.

Lemma hex_digit_blob_char (cs : list ascii) :
  forallb Hex.is_hex_digit cs = true -> forallb blob_char cs = true.
Proof.
  induction cs as [|c cs IH]; cbn [forallb]; auto.
  intros H. apply andb_prop in H as [Hc Hcs].
  unfold blob_char at 1. rewrite Hc. cbn [orb andb]. auto.
Qed.

Lemma blob3_chars (rs ri ct : bytes) :
  forallb blob_char
    (list_ascii_of_string (blob3 (Hex.encode rs) (Hex.encode ri) (Hex.encode ct)))
  = true.
Proof.
  unfold blob3.
  rewrite !list_ascii_of_string_app, !forallb_app.
  rewrite !(hex_digit_blob_char _ (hex_digits _)).
  reflexivity.
Qed.

Lemma init3_fields (crypto : NodeCrypto) (pw : string) (rs ri : bytes)
  (k : Keychain3.Keychain) :
  Keychain3.init crypto pw rs ri = Returns k ->
  Keychain3.salt k = Keychain3.Buf rs /\ Keychain3.iv k = Keychain3.Buf ri
  /\ Keychain3.data k = [].
Proof.
  unfold Keychain3.init, Keychain3.constructor.
  destruct (_ <? _)%N; try discriminate. intros [= <-]. auto.
Qed.

(** The names and secrets of the scenario hold such bytes. *)
Example scenario_strings_are_no_blob_text :
  forallb blob_char (list_ascii_of_string "example.com") = false
  /\ forallb blob_char (list_ascii_of_string "p@ssw0rd") = false.
Proof. split; reflexivity. Qed.

(** ** [load] *)

(** [dump] of the first listing returns [serialize] and its digest. *)
Lemma dump1_serialize (crypto : NodeCrypto) (k : Keychain1.Keychain) (blob : string) :
  Keychain1.serialize k = Some blob ->
  Keychain1.dump crypto k = Returns (blob, Keychain1.computeChecksum crypto blob).
Proof. intros H. unfold Keychain1.dump. now rewrite H. Qed.

(** [JSON.parse] reads the blob of a store of the first listing back, when
    the container is an array of strings. *)
Lemma reload1 (k : Keychain1.Keychain) :
  array_of_strings (Keychain1.data k) = true ->
  exists blob,
    Keychain1.serialize k = Some blob /\ JSON.parse blob = Returns (reloaded k).
Proof.
  intros H. rewrite serialize1_layout. unfold reloaded.
  destruct (Keychain1.data k) as [ | | | | |len props| | ]; try discriminate H.
  cbn [array_of_strings] in H. rewrite (stringify_strings len props H).
  eexists. split; [reflexivity|].
  apply (parse_blob1 (List.length (map (slot props) (JSON.indices len)))).
  - apply base64_plain.
  - apply base64_plain.
  - apply reads_array.
  - apply length_array_text.
Qed.

(** On such a blob [load] of the first listing does not get past its two
    destructurings: the blob has no [checksum] and no [serializedData]. *)
Lemma load1_of_dumped (crypto : NodeCrypto) (k : Keychain1.Keychain) (pw : string) :
  array_of_strings (Keychain1.data k) = true ->
  (r <- Keychain1.dump crypto k ;; Keychain1.load pw (fst r) (Some (snd r)))
  = Throws (JsError "Data integrity check failed")
  /\ (r <- Keychain1.dump crypto k ;; Keychain1.load pw (fst r) None)
     = Throws EngineTypeError.
Proof.
  intros H. destruct (reload1 k H) as (blob & Hs & Hp).
  unfold Keychain1.dump. rewrite Hs. cbn [bind fst snd].
  unfold Keychain1.load. rewrite Hp. cbn [bind].
  unfold reloaded.
  destruct (Keychain1.data k) as [ | | | | |len props| | ]; try discriminate H.
  split; reflexivity.
Qed.

Lemma constructor3_empty (crypto : NodeCrypto) (p : JS.JSValue) (rs ri : bytes)
  (k : Keychain3.Keychain) :
  Keychain3.constructor crypto p rs ri = Returns k ->
  Keychain3.data k = [] /\ Keychain3.secrets k = [].
Proof.
  unfold Keychain3.constructor. intros H.
  destruct p; try discriminate H. injection H as <-. auto.
Qed.

(** What [load] of the third listing returns holds no record: the parsed
    container is handed to the constructor as its [password], and the
    constructor starts from [this.data = {}]. *)
Lemma load3_restores_nothing (crypto : NodeCrypto) (pw repr : string)
  (t : option string) (rs ri : bytes) (k : Keychain3.Keychain) :
  Keychain3.load crypto pw repr t rs ri = Returns k ->
  Keychain3.data k = [] /\ Keychain3.secrets k = [].
Proof.
  unfold Keychain3.load. intros H. step_returns H.
  injection H as <-. cbn.
  eapply constructor3_empty; eauto.
Qed.

Lemma get3_on_empty (k : Keychain3.Keychain) :
  Keychain3.data k = [] ->
  fst (Keychain3.get "example.com" k) = Returns JS.JNull.
Proof. intros H. unfold Keychain3.get. rewrite H. reflexivity. Qed.

(** C1.  The scenario does not go through, whatever bytes [init] draws.  In
    the first listing the blob that [dump] writes has no [checksum] member
    (and no [serializedData]), so [load] with the dumped checksum throws
    "Data integrity check failed", whatever SHA-256 computes.  In the
    third listing a store returned by [load], from any blob, answers
    [get("example.com")] with [null]. *)
Theorem lifecycle_reload_fails :
  forall (crypto : NodeCrypto) (random_salt random_iv : bytes)
         (pw repr : string) (t : option string) (rs ri : bytes),
    (r <- Keychain1.dump crypto (scenario_store random_salt random_iv) ;;
     Keychain1.load "Correct-Horse9!" (fst r) (Some (snd r)))
    = Throws (JsError "Data integrity check failed")
    /\ match Keychain3.load crypto pw repr t rs ri with
       | Returns k => fst (Keychain3.get "example.com" k) = Returns JS.JNull
       | _ => True
       end.
Proof.
  intros. split.
  - now apply load1_of_dumped.
  - destruct (Keychain3.load crypto pw repr t rs ri) as [k| |] eqn:E; auto.
    apply get3_on_empty. now apply load3_restores_nothing in E.
Qed.

(** The blob of the scenario, for the sample bytes: the record is not in it. *)
Example scenario_blob :
  Keychain1.serialize (scenario_store sample_salt sample_iv)
  = Some (JSON.q "{'salt':'MDEyMzQ1Njc4OWFiY2RlZg==','iv':'ZmVkY2JhOTg3NjU0MzIxMA==','data':[],'kvs':[]}").
Proof. vm_compute. reflexivity. Qed.

(** The store of the scenario is one that a sequence of calls reaches. *)
Example run1_reaches_scenario :
  Run1.run [CallSet "example.com" "p@ssw0rd"; CallGet "example.com"]
    (Keychain1.init "Correct-Horse9!" sample_salt sample_iv)
  = Some (scenario_store sample_salt sample_iv).
Proof. reflexivity. Qed.

(** C8.  With the checksum left out, [load] of the first listing does not
    return on what [dump] wrote, for any store that [init] created and any
    sequence of calls drove: the comparison passes ([undefined ===
    undefined]) and the destructuring of the missing [serializedData]
    raises a TypeError. *)
Theorem load_without_checksum_fails :
  forall (crypto : NodeCrypto) (pw pw' : string) (rs ri : bytes) (cs : list Call),
    match Run1.run cs (Keychain1.init pw rs ri) with
    | Some k =>
        (r <- Keychain1.dump crypto k ;; Keychain1.load pw' (fst r) None)
        = Throws EngineTypeError
    | None => True
    end.
Proof.
  intros. destruct (Run1.run cs (Keychain1.init pw rs ri)) as [k|] eqn:R; auto.
  apply load1_of_dumped.
  eapply run1_strings; [|exact R]. reflexivity.
Qed.

(** With the dumped checksum it throws the integrity error, for the same
    stores. *)
Lemma load_with_dumped_checksum_fails (crypto : NodeCrypto) (pw pw' : string)
  (rs ri : bytes) (cs : list Call) (k : Keychain1.Keychain) :
  Run1.run cs (Keychain1.init pw rs ri) = Some k ->
  (r <- Keychain1.dump crypto k ;; Keychain1.load pw' (fst r) (Some (snd r)))
  = Throws (JsError "Data integrity check failed").
Proof.
  intros R. apply load1_of_dumped.
  eapply run1_strings; [|exact R]. reflexivity.
Qed.

(** Without a trusted checksum the third listing raises no integrity error. *)
Lemma load3_optional_checksum (crypto : NodeCrypto) (pw repr : string)
  (rs ri : bytes) :
  Keychain3.load crypto pw repr None rs ri
  <> Throws (JsError "Data integrity check failed").
Proof.
  unfold Keychain3.load, Keychain3.constructor. cbn [optional JS.truthy andb].
  intros H. step_throws H.
Qed.

(** *** A blob written for [load] of the first listing *)

Lemma forged_as_bytes (c : string) :
  list_ascii_of_string (forged_blob c)
  = ("{"%char :: JSON.dquote ::
       (list_ascii_of_string "serializedData" ++ JSON.dquote :: ":"%char ::
          (list_ascii_of_string
             (JSON.q "{'salt':'AAAA','iv':'AAAA','data':['hunter2']}")
           ++ ","%char :: JSON.dquote ::
              (list_ascii_of_string "checksum" ++ JSON.dquote :: ":"%char ::
                 (list_ascii_of_string (JSON.quote c) ++ ["}"%char])))))%list.
Proof.
  unfold forged_blob. eval_q.
  rewrite !list_ascii_of_string_app. reflexivity.
Qed.

Lemma parse_forged (c : string) :
  JSON.parse (forged_blob c)
  = Returns
      (JS.JObj
         [ ("serializedData",
            JS.JObj [ ("salt", JS.JStr "AAAA"); ("iv", JS.JStr "AAAA");
                      ("data", JS.JArr 1 [("0", JS.JStr "hunter2")]) ]);
           ("checksum", JS.JStr c) ]).
Proof.
  unfold JSON.parse. rewrite forged_as_bytes.
  match goal with
  | |- context [JSON.parse_value (S (List.length ?l)) _] =>
      assert (F : exists n, List.length l = S (S (S (S (S (S n))))))
  end.
  { cbn [List.length List.app list_ascii_of_string]. eexists. reflexivity. }
  destruct F as (n & ->).
  rewrite value_object.
  erewrite member_then_comma; [ | reflexivity | reflexivity ].
  erewrite member_then_brace;
    [ | reflexivity | apply reads_quote; apply Nat.le_0_l ].
  reflexivity.
Qed.

(** C2.  [load] of the first listing computes no digest: whatever string is
    trusted, a blob whose [checksum] member repeats that string is accepted,
    and the store it returns holds what the blob says. *)
Theorem load_compares_the_embedded_checksum :
  forall (pw c : string),
    Keychain1.load pw (forged_blob c) (Some c)
    = Returns {| Keychain1.password := pw;
                 Keychain1.salt := [Ascii.zero; Ascii.zero; Ascii.zero];
                 Keychain1.iv := [Ascii.zero; Ascii.zero; Ascii.zero];
                 Keychain1.data := JS.JArr 1 [("0", JS.JStr "hunter2")] |}.
Proof.
  intros. unfold Keychain1.load. rewrite parse_forged.
  cbn [bind JS.GetV JS.obj_get JS.lookup String.eqb Ascii.eqb Bool.eqb].
  cbn [optional JS.strict_equal]. rewrite String.eqb_refl. cbn [negb].
  reflexivity.
Qed.

(** The same blob with the text of the example. *)
Example forged_blob_text :
  forged_blob "no digest"
  = JSON.q "{'serializedData':{'salt':'AAAA','iv':'AAAA','data':['hunter2']},'checksum':'no digest'}".
Proof. vm_compute. reflexivity. Qed.

(** ** Tampering and wrong passwords *)

(** [load] of the third listing does not return when a trusted checksum
    that is not empty differs from the digest of the blob. *)
Lemma load3_checks_digest (crypto : NodeCrypto) (pw repr t : string)
  (rs ri : bytes) (k : Keychain3.Keychain) :
  (t =? "")%string = false ->
  (Hex.encode (sha256 crypto (list_ascii_of_string repr)) =? t)%string = false ->
  Keychain3.load crypto pw repr (Some t) rs ri <> Returns k.
Proof.
  intros Ht Hd H. unfold Keychain3.load in H.
  cbn [optional JS.truthy JS.strict_equal] in H.
  rewrite Ht, Hd in H. cbn [negb andb] in H.
  step_returns H.
Qed.

(** C5, the claim as stated fails: in the first listing [load] with a wrong
    password, on the dumped blob with the dumped checksum, throws "Data
    integrity check failed" before [get] is reached, as it does with the
    right password; without a checksum both throw a TypeError. *)
Lemma wrong_password_same_outcome :
  Keychain1.serialize leaky_store = Some leaky_blob
  /\ (k <- Keychain1.load "a wrong password" leaky_blob (Some leaky_checksum) ;;
      fst (Keychain1.get "0" k)) = Throws (JsError "Data integrity check failed")
  /\ (k <- Keychain1.load "Correct-Horse9!" leaky_blob (Some leaky_checksum) ;;
      fst (Keychain1.get "0" k)) = Throws (JsError "Data integrity check failed")
  /\ (k <- Keychain1.load "a wrong password" leaky_blob None ;;
      fst (Keychain1.get "0" k)) = Throws EngineTypeError
  /\ (k <- Keychain1.load "Correct-Horse9!" leaky_blob None ;;
      fst (Keychain1.get "0" k)) = Throws EngineTypeError.
Proof. repeat split; vm_compute; reflexivity. Qed.

(** C5, amended.  The first listing never checks the password: [load]
    followed by [get] has the same outcome for every two passwords, on every
    blob, with or without a trusted checksum. *)
Theorem load_and_get_ignore_the_password :
  forall (p1 p2 repr : string) (t : option string) (name : string),
    (k <- Keychain1.load p1 repr t ;; fst (Keychain1.get name k))
    = (k <- Keychain1.load p2 repr t ;; fst (Keychain1.get name k)).
Proof.
  intros. unfold Keychain1.load.
  repeat (rewrite ?bind_assoc;
          match goal with
          | |- bind (if ?b then _ else _) _ = _ =>
              destruct b; cbn [bind]; try reflexivity
          | |- bind ?m _ = bind ?m _ => destruct m; cbn [bind]; try reflexivity
          end).
  unfold Keychain1.get. cbn [Keychain1.data].
  destruct (JS.GetV _ name); reflexivity.
Qed.

(** A blob in the layout that [load] of the first listing reads gives its
    record to whoever loads it, whatever the password. *)
Lemma forged_blob_opens (pw c : string) :
  (k <- Keychain1.load pw (forged_blob c) (Some c) ;; fst (Keychain1.get "0" k))
  = Returns (JS.JStr "hunter2").
Proof.
  unfold Keychain1.load. rewrite parse_forged.
  cbn [bind JS.GetV JS.obj_get JS.lookup String.eqb Ascii.eqb Bool.eqb].
  cbn [optional JS.strict_equal]. rewrite String.eqb_refl. cbn [negb].
  reflexivity.
Qed.

(** * Further properties of the listings *)

(** ** Own properties, names and array indices *)

Lemma lookup_upsert_other {V : Type} (k k' : string) (v : V) (ps : list (string * V)) :
  (k =? k')%string = false ->
  JS.lookup k' (JS.upsert k v ps) = JS.lookup k' ps.
Proof.
  intros H. induction ps as [|[a x] r IH]; cbn.
  - now rewrite H.
  - destruct (a =? k)%string eqn:E; cbn.
    + apply String.eqb_eq in E. subst a. now rewrite H.
    + destruct (a =? k')%string; auto.
Qed.

Lemma lookup_erase_other {V : Type} (k k' : string) (ps : list (string * V)) :
  (k =? k')%string = false ->
  JS.lookup k' (JS.erase k ps) = JS.lookup k' ps.
Proof.
  intros H. induction ps as [|[a x] r IH]; cbn; [reflexivity|].
  destruct (a =? k)%string eqn:E; cbn.
  - apply String.eqb_eq in E. subst a. now rewrite H.
  - destruct (a =? k')%string; auto.
Qed.

Lemma lookup_filter_none {V : Type} (keep : string * V -> bool) (k : string)
  (ps : list (string * V)) :
  JS.lookup k ps = None -> JS.lookup k (filter keep ps) = None.
Proof.
  induction ps as [|[a x] r IH]; cbn; [reflexivity|].
  destruct (a =? k)%string eqn:E; [discriminate|]. intros H.
  destruct (keep (a, x)); cbn; [rewrite E|]; auto.
Qed.

Lemma N_to_uint_nonnil (n : N) : N.to_uint n <> Decimal.Nil.
Proof.
  destruct n as [|p]; [discriminate|].
  cbn. apply DecimalPos.Unsigned.to_uint_nonnil.
Qed.

(** The decimal name of an integer below 2^32-1 is an array index. *)
Lemma array_index_N_to_string (i : N) :
  (i < 4294967295)%N -> JS.array_index (JS.N_to_string i) = Some i.
Proof.
  intros H. unfold JS.array_index, JS.N_to_string.
  rewrite NilZero.usu by apply N_to_uint_nonnil.
  rewrite DecimalN.Unsigned.of_to, String.eqb_refl.
  apply N.ltb_lt in H. now rewrite H.
Qed.

Lemma array_index_name (name : string) (i : N) :
  JS.array_index name = Some i ->
  name = JS.N_to_string i /\ (i < 4294967295)%N.
Proof.
  unfold JS.array_index. destruct (NilZero.uint_of_string name) as [u|]; [|discriminate].
  destruct (JS.N_to_string (N.of_uint u) =? name)%string eqn:E; [|discriminate].
  destruct (N.of_uint u <? 4294967295)%N eqn:B; [|discriminate].
  cbn. intros [= <-]. apply String.eqb_eq in E. apply N.ltb_lt in B. auto.
Qed.

Lemma mem_In (s : string) (l : list string) : JS.mem s l = true -> In s l.
Proof.
  unfold JS.mem. intros H. apply existsb_exists in H as (x & Hx & E).
  apply String.eqb_eq in E. now subst.
Qed.

(** No array index is a name of the prototype chain, nor [length], nor
    [__proto__]. *)
Lemma index_not_inherited (name : string) (i : N) :
  JS.array_index name = Some i ->
  JS.inherited JS.array_chain name = JS.JUndefined
  /\ (name =? "length")%string = false
  /\ (name =? "__proto__")%string = false.
Proof.
  intros H.
  assert (A : JS.mem name JS.Array_prototype = false).
  { destruct (JS.mem name JS.Array_prototype) eqn:M; [|reflexivity].
    apply mem_In in M. cbv [JS.Array_prototype In] in M.
    repeat (destruct M as [<-|M]; [vm_compute in H; discriminate H|]).
    destruct M. }
  assert (O : JS.mem name JS.Object_prototype = false).
  { destruct (JS.mem name JS.Object_prototype) eqn:M; [|reflexivity].
    apply mem_In in M. cbv [JS.Object_prototype In] in M.
    repeat (destruct M as [<-|M]; [vm_compute in H; discriminate H|]).
    destruct M. }
  repeat split.
  - cbn [JS.inherited JS.array_chain JS.object_chain]. now rewrite A, O.
  - destruct (name =? "length")%string eqn:E; [|reflexivity].
    apply String.eqb_eq in E. subst. vm_compute in H. discriminate H.
  - destruct (name =? "__proto__")%string eqn:E; [|reflexivity].
    apply String.eqb_eq in E. subst. vm_compute in H. discriminate H.
Qed.

Lemma inherited_array_object (name : string) :
  JS.inherited JS.array_chain name = JS.JUndefined ->
  JS.inherited JS.object_chain name = JS.JUndefined.
Proof.
  cbn [JS.inherited JS.array_chain].
  destruct (JS.mem name JS.Array_prototype); [discriminate|auto].
Qed.

Lemma lookup_below (n i : N) (name : string) (props : JS.Props) :
  JS.array_index name = Some i -> (n <= i)%N ->
  JS.lookup name (filter (JS.below n) props) = None.
Proof.
  intros H L. induction props as [|[a x] r IH]; cbn; [reflexivity|].
  destruct (JS.below n (a, x)) eqn:B; [|exact IH].
  cbn. destruct (a =? name)%string eqn:E; [|exact IH].
  apply String.eqb_eq in E. subst a.
  unfold JS.below in B. cbn [fst] in B. rewrite H in B.
  apply N.ltb_lt in B. lia.
Qed.

Lemma lookup_below_kept (n i : N) (name : string) (props : JS.Props) :
  JS.array_index name = Some i -> (i < n)%N ->
  JS.lookup name (filter (JS.below n) props) = JS.lookup name props.
Proof.
  intros H L. induction props as [|[a x] r IH]; cbn; [reflexivity|].
  destruct (a =? name)%string eqn:E.
  - pose proof E as E'. apply String.eqb_eq in E'. subst a.
    unfold JS.below. cbn [fst]. rewrite H.
    apply N.ltb_lt in L. rewrite L. cbn. now rewrite E.
  - destruct (JS.below n (a, x)); cbn; [rewrite E|]; exact IH.
Qed.

Lemma lookup_below_named (n : N) (name : string) (props : JS.Props) :
  JS.array_index name = None ->
  JS.lookup name (filter (JS.below n) props) = JS.lookup name props.
Proof.
  intros H. induction props as [|[a x] r IH]; cbn; [reflexivity|].
  destruct (a =? name)%string eqn:E.
  - pose proof E as E'. apply String.eqb_eq in E'. subst a.
    unfold JS.below. cbn [fst]. rewrite H. cbn. now rewrite E.
  - destruct (JS.below n (a, x)); cbn; [rewrite E|]; exact IH.
Qed.

(** ** The container of a store that [init] created *)

Lemma length_of_string_bound (value : string) (n : N) :
  JS.array_length_of_string value = JS.LenOk n -> (n <= 4294967295)%N.
Proof.
  unfold JS.array_length_of_string.
  destruct (forallb JS.is_digit (list_ascii_of_string value)).
  - destruct (JS.digits_value (list_ascii_of_string value) <? 4294967296)%N eqn:B;
      [|discriminate].
    intros [= <-]. apply N.ltb_lt in B. lia.
  - destruct (forallb JS.numeric_char (list_ascii_of_string value)); discriminate.
Qed.

Lemma kept_array_spec (d : JS.JSValue) :
  kept_array d = true ->
  exists len props,
    d = JS.JArr len props /\ strings_only props = true
    /\ (len <= 4294967295)%N /\ JS.lookup "length" props = None.
Proof.
  destruct d as [| | | | |len props| |]; try discriminate. cbn.
  intros H. apply andb_prop in H as [H L]. apply andb_prop in H as [S B].
  exists len, props. repeat split; auto.
  - now apply N.leb_le.
  - destruct (JS.lookup "length" props); [discriminate|reflexivity].
Qed.

Lemma kept_array_intro (len : N) (props : JS.Props) :
  strings_only props = true -> (len <= 4294967295)%N ->
  JS.lookup "length" props = None ->
  kept_array (JS.JArr len props) = true.
Proof.
  intros S B L. cbn. rewrite S, L. apply N.leb_le in B. now rewrite B.
Qed.

Lemma kept_array_strings (d : JS.JSValue) :
  kept_array d = true -> array_of_strings d = true.
Proof.
  intros H. apply kept_array_spec in H as (len & props & -> & S & _). exact S.
Qed.

(** [this.data[name] = value] keeps the container such an array. *)
Lemma PutV_kept (d : JS.JSValue) (name value : string) :
  kept_array d = true ->
  match JS.PutV d name value with
  | Returns d' => kept_array d' = true
  | _ => True
  end.
Proof.
  intros H. apply kept_array_spec in H as (len & props & -> & S & B & L).
  cbn [JS.PutV].
  destruct (JS.lookup name props) eqn:Own.
  - apply kept_array_intro; auto using strings_only_upsert.
    destruct (name =? "length")%string eqn:E.
    + apply String.eqb_eq in E. subst. congruence.
    + now rewrite lookup_upsert_other.
  - destruct (name =? "length")%string eqn:E.
    + destruct (JS.array_length_of_string value) as [n| |] eqn:A; auto.
      apply kept_array_intro; auto using strings_only_filter, lookup_filter_none.
      eapply length_of_string_bound; eauto.
    + destruct (name =? "__proto__")%string.
      * now apply kept_array_intro.
      * destruct (JS.array_index name) as [i|] eqn:I.
        -- apply kept_array_intro; auto using strings_only_upsert.
           ++ apply array_index_name in I as [_ I]. lia.
           ++ now rewrite lookup_upsert_other.
        -- apply kept_array_intro; auto using strings_only_upsert.
           now rewrite lookup_upsert_other.
Qed.

Lemma lookup_erase_none {V : Type} (k k' : string) (ps : list (string * V)) :
  JS.lookup k' ps = None -> JS.lookup k' (JS.erase k ps) = None.
Proof.
  induction ps as [|[a x] r IH]; cbn; [reflexivity|].
  destruct (a =? k')%string eqn:E; [discriminate|]. intros H.
  destruct (a =? k)%string; cbn; [|rewrite E]; auto.
Qed.

(** [delete this.data[name]] keeps it such an array. *)
Lemma DeleteV_kept (d : JS.JSValue) (name : string) :
  kept_array d = true ->
  match JS.DeleteV d name with
  | Returns d' => kept_array d' = true
  | _ => True
  end.
Proof.
  intros H. apply kept_array_spec in H as (len & props & -> & S & B & L).
  cbn [JS.DeleteV].
  destruct (JS.lookup name props) eqn:Own.
  - apply kept_array_intro; auto using strings_only_erase, lookup_erase_none.
  - destruct (name =? "length")%string; auto.
    now apply kept_array_intro.
Qed.

Lemma exec1_kept (c : Call) (k : Keychain1.Keychain) :
  kept_array (Keychain1.data k) = true ->
  kept_array (Keychain1.data (snd (Run1.exec c k))) = true.
Proof.
  intros H. destruct c as [name|name value|name]; cbn [Run1.exec void snd].
  - unfold Keychain1.get. now destruct (JS.GetV _ _).
  - unfold Keychain1.set. pose proof (PutV_kept _ name value H) as P.
    now destruct (JS.PutV _ _ _).
  - unfold Keychain1.remove. destruct (JS.GetV _ _) as [v| |]; auto.
    destruct (JS.truthy v); auto.
    pose proof (DeleteV_kept _ name H) as P.
    now destruct (JS.DeleteV _ _).
Qed.

Lemma run1_kept (cs : list Call) :
  forall k k' : Keychain1.Keychain,
    kept_array (Keychain1.data k) = true ->
    Run1.run cs k = Some k' ->
    kept_array (Keychain1.data k') = true.
Proof.
  induction cs as [|c cs IH]; intros k k' H R; cbn in R.
  - now injection R as <-.
  - pose proof (exec1_kept c k H) as H'.
    destruct (Run1.exec c k) as [[u|e|] k1]; try discriminate; eauto.
Qed.

Lemma reached1_kept (pw : string) (rs ri : bytes) (cs : list Call)
  (k : Keychain1.Keychain) :
  Run1.run cs (Keychain1.init pw rs ri) = Some k ->
  kept_array (Keychain1.data k) = true.
Proof. apply run1_kept. reflexivity. Qed.

(** ** The record operations of the first listing *)

Lemma GetV_own (len : N) (props : JS.Props) (name : string) (v : JS.JSValue) :
  JS.lookup name props = Some v -> JS.GetV (JS.JArr len props) name = Returns v.
Proof. intros H. cbn. now rewrite H. Qed.

(** What [this.data[name]] reads after [this.data[name] = value]. *)
Lemma GetV_PutV (d : JS.JSValue) (name value : string) :
  container d = true ->
  (name =? "length")%string = false ->
  (name =? "__proto__")%string = false ->
  exists d', JS.PutV d name value = Returns d'
             /\ container d' = true
             /\ JS.GetV d' name = Returns (JS.JStr value).
Proof.
  intros C L P. destruct d as [| | | | |len props|props|]; try discriminate.
  - cbn [JS.PutV]. rewrite L, P.
    destruct (JS.lookup name props) eqn:Own; [|destruct (JS.array_index name)];
      eexists; (split; [reflexivity|split; [reflexivity|]]);
      apply GetV_own, lookup_upsert.
  - cbn [JS.PutV]. unfold JS.obj_put. rewrite P.
    eexists; split; [reflexivity|split; [reflexivity|]].
    cbn [JS.GetV]. unfold JS.obj_get.
    destruct (JS.lookup name props); now rewrite lookup_upsert.
Qed.

(** What [this.data[other]] reads after [this.data[name] = value]. *)
Lemma GetV_PutV_other (d : JS.JSValue) (name value other : string) :
  container d = true ->
  (name =? "length")%string = false ->
  (name =? other)%string = false ->
  (other =? "length")%string = false ->
  exists d', JS.PutV d name value = Returns d'
             /\ JS.GetV d' other = JS.GetV d other.
Proof.
  intros C L D O. destruct d as [| | | | |len props|props|]; try discriminate.
  - cbn [JS.PutV]. rewrite L.
    destruct (JS.lookup name props) eqn:Own;
      [|destruct (name =? "__proto__")%string; [|destruct (JS.array_index name)]];
      eexists; (split; [reflexivity|]); cbn [JS.GetV];
      rewrite ?lookup_upsert_other by exact D; rewrite ?O; reflexivity.
  - cbn [JS.PutV]. unfold JS.obj_put.
    eexists; split; [reflexivity|]. cbn [JS.GetV]. unfold JS.obj_get.
    destruct (JS.lookup name props);
      [|destruct (name =? "__proto__")%string];
      rewrite ?lookup_upsert_other by exact D; reflexivity.
Qed.

(** What [this.data[name]] reads after [delete this.data[name]], for a name
    that held a string and that the prototype chain does not know. *)
Lemma DeleteV_own (d : JS.JSValue) (name value : string) :
  container d = true ->
  JS.GetV d name = Returns (JS.JStr value) ->
  JS.inherited JS.array_chain name = JS.JUndefined ->
  (name =? "length")%string = false ->
  exists d', JS.DeleteV d name = Returns d'
             /\ JS.GetV d' name = Returns JS.JUndefined.
Proof.
  intros C Hg I L. destruct d as [| | | | |len props|props|]; try discriminate.
  - cbn [JS.GetV] in Hg. cbn [JS.DeleteV JS.GetV].
    destruct (JS.lookup name props) eqn:Own.
    + eexists; split; [reflexivity|]. cbn [JS.GetV].
      now rewrite lookup_erase, L, I.
    + rewrite L in Hg. rewrite I in Hg. discriminate Hg.
  - eexists; split; [reflexivity|]. cbn [JS.GetV].
    unfold JS.obj_get, JS.obj_delete. rewrite lookup_erase.
    now rewrite (inherited_array_object _ I).
Qed.

Lemma length_is_inherited_nowhere (name : string) :
  JS.inherited JS.array_chain name = JS.JUndefined ->
  (name =? "__proto__")%string = false.
Proof.
  intros I. destruct (name =? "__proto__")%string eqn:E; [|reflexivity].
  apply String.eqb_eq in E. subst. discriminate I.
Qed.

(** X1.  First listing, [set] then [get]: on a store whose container is an
    array or an object, [set(name, value)] returns, and [get(name)] then
    returns [value], for every name other than [length] and [__proto__] and
    every secret that is not empty. *)
Theorem set_then_get_first_listing (k : Keychain1.Keychain) (name value : string) :
  container (Keychain1.data k) = true ->
  (name =? "length")%string = false ->
  (name =? "__proto__")%string = false ->
  (value =? "")%string = false ->
  fst (Keychain1.set name value k) = Returns tt
  /\ fst (Keychain1.get name (snd (Keychain1.set name value k)))
     = Returns (JS.JStr value).
Proof.
  intros C L P V.
  destruct (GetV_PutV _ name value C L P) as (d' & Hp & _ & Hg).
  unfold Keychain1.set. rewrite Hp. cbn [fst snd]. split; [reflexivity|].
  unfold Keychain1.get. cbn [Keychain1.with_data Keychain1.data].
  rewrite Hg. cbn [fst JS.truthy]. now rewrite V.
Qed.

Lemma set_then_get_first_listing_witness :
  fst (Keychain1.set "example.com" "p@ssw0rd"
         (Keychain1.init "Correct-Horse9!" sample_salt sample_iv)) = Returns tt
  /\ fst (Keychain1.get "example.com"
            (snd (Keychain1.set "example.com" "p@ssw0rd"
                    (Keychain1.init "Correct-Horse9!" sample_salt sample_iv))))
     = Returns (JS.JStr "p@ssw0rd").
Proof.
  apply (set_then_get_first_listing
           (Keychain1.init "Correct-Horse9!" sample_salt sample_iv)
           "example.com" "p@ssw0rd"); reflexivity.
Defined.

(** X2.  First listing, [set] leaves the other records alone: after
    [set(name, value)] with a name other than [length], [get(other)] returns
    what it returned before, for every other name but [length] (which an
    array counts by itself). *)
Theorem set_keeps_other_records_first_listing (k : Keychain1.Keychain)
  (name value other : string) :
  container (Keychain1.data k) = true ->
  (name =? "length")%string = false ->
  (name =? other)%string = false ->
  (other =? "length")%string = false ->
  fst (Keychain1.get other (snd (Keychain1.set name value k)))
  = fst (Keychain1.get other k).
Proof.
  intros C L D O.
  destruct (GetV_PutV_other _ name value other C L D O) as (d' & Hp & Hg).
  unfold Keychain1.set. rewrite Hp. cbn [snd].
  unfold Keychain1.get. cbn [Keychain1.with_data Keychain1.data].
  rewrite Hg. destruct (JS.GetV (Keychain1.data k) other); reflexivity.
Qed.

Lemma set_keeps_other_records_first_listing_witness :
  fst (Keychain1.get "example.com"
         (snd (Keychain1.set "other.com" "hunter2" (scenario_store sample_salt sample_iv))))
  = fst (Keychain1.get "example.com" (scenario_store sample_salt sample_iv))
  /\ fst (Keychain1.get "example.com" (scenario_store sample_salt sample_iv))
     = Returns (JS.JStr "p@ssw0rd").
Proof.
  split; [|reflexivity].
  apply (set_keeps_other_records_first_listing
           (scenario_store sample_salt sample_iv) "other.com" "hunter2" "example.com");
    reflexivity.
Defined.

(** X3.  First listing, [remove] after [set]: for a name that the prototype
    chain of arrays does not know (and that is not [length]) and a secret that
    is not empty, [remove(name)] after [set(name, value)] answers [true],
    [get(name)] then returns [null], and a second [remove(name)] answers
    [false] and leaves the store as it is. *)
Theorem remove_after_set_first_listing (k : Keychain1.Keychain) (name value : string) :
  container (Keychain1.data k) = true ->
  JS.inherited JS.array_chain name = JS.JUndefined ->
  (name =? "length")%string = false ->
  (value =? "")%string = false ->
  let k1 := snd (Keychain1.set name value k) in
  let k2 := snd (Keychain1.remove name k1) in
  fst (Keychain1.remove name k1) = Returns true
  /\ fst (Keychain1.get name k2) = Returns JS.JNull
  /\ Keychain1.remove name k2 = (Returns false, k2).
Proof.
  intros C I L V.
  pose proof (length_is_inherited_nowhere name I) as P.
  destruct (GetV_PutV _ name value C L P) as (d' & Hp & C' & Hg).
  cbv zeta. unfold Keychain1.set. rewrite Hp. cbn [snd].
  pose proof (DeleteV_own d' name value C' Hg I L) as D.
  destruct D as (d'' & Hd & Hu).
  assert (R : Keychain1.remove name (Keychain1.with_data k d')
              = (Returns true, Keychain1.with_data (Keychain1.with_data k d') d'')).
  { unfold Keychain1.remove. cbn [Keychain1.with_data Keychain1.data].
    rewrite Hg. cbn [JS.truthy]. rewrite V. cbn [negb]. now rewrite Hd. }
  rewrite R. cbn [fst snd]. split; [reflexivity|].
  unfold Keychain1.get, Keychain1.remove. cbn [Keychain1.with_data Keychain1.data].
  rewrite Hu. cbn [JS.truthy fst]. auto.
Qed.

Lemma remove_after_set_first_listing_witness :
  let k1 := snd (Keychain1.set "example.com" "p@ssw0rd"
                   (Keychain1.init "Correct-Horse9!" sample_salt sample_iv)) in
  let k2 := snd (Keychain1.remove "example.com" k1) in
  fst (Keychain1.remove "example.com" k1) = Returns true
  /\ fst (Keychain1.get "example.com" k2) = Returns JS.JNull
  /\ Keychain1.remove "example.com" k2 = (Returns false, k2).
Proof.
  apply (remove_after_set_first_listing
           (Keychain1.init "Correct-Horse9!" sample_salt sample_iv)
           "example.com" "p@ssw0rd"); reflexivity.
Defined.

(** ** The name [length] in the first listing *)

Lemma reached1_array (pw : string) (rs ri : bytes) (cs : list Call)
  (k : Keychain1.Keychain) :
  Run1.run cs (Keychain1.init pw rs ri) = Some k ->
  exists len props,
    Keychain1.data k = JS.JArr len props /\ strings_only props = true
    /\ (len <= 4294967295)%N /\ JS.lookup "length" props = None.
Proof. intros R. apply kept_array_spec. eapply reached1_kept; eauto. Qed.

Lemma digits_are_numeric (cs : list ascii) :
  forallb JS.numeric_char cs = false -> forallb JS.is_digit cs = false.
Proof.
  induction cs as [|c cs IH]; cbn [forallb]; [discriminate|].
  intros H. destruct (JS.is_digit c) eqn:D; [|reflexivity].
  assert (N : JS.numeric_char c = true) by (unfold JS.numeric_char; now rewrite D).
  rewrite N in H. cbn [andb] in *. auto.
Qed.

(** X4.  First listing, [set("length", value)] stores no record.  On a
    store that [init] created, after any calls: a value that holds a
    character of no numeric literal, and a value of decimal digits that
    write 2^32 or more, make it throw a RangeError and leave the store as it
    is; a value of decimal digits that write [n] below 2^32 (the empty value
    writes 0) makes it cut the array down to [n] elements, after which [get]
    returns [null] for every index name from [n] on and what it returned
    before for every other index name.  Other values are not followed. *)
Theorem set_length_truncates (pw : string) (rs ri : bytes) (cs : list Call)
  (k : Keychain1.Keychain) (value : string) :
  Run1.run cs (Keychain1.init pw rs ri) = Some k ->
  (forallb JS.numeric_char (list_ascii_of_string value) = false ->
   Keychain1.set "length" value k = (Throws EngineRangeError, k))
  /\ (forallb JS.is_digit (list_ascii_of_string value) = true ->
      (4294967296 <= JS.digits_value (list_ascii_of_string value))%N ->
      Keychain1.set "length" value k = (Throws EngineRangeError, k))
  /\ (forallb JS.is_digit (list_ascii_of_string value) = true ->
      (JS.digits_value (list_ascii_of_string value) < 4294967296)%N ->
      fst (Keychain1.set "length" value k) = Returns tt
      /\ forall (name : string) (i : N),
           JS.array_index name = Some i ->
           fst (Keychain1.get name (snd (Keychain1.set "length" value k)))
           = if (i <? JS.digits_value (list_ascii_of_string value))%N
             then fst (Keychain1.get name k) else Returns JS.JNull).
Proof.
  intros R. destruct (reached1_array _ _ _ _ _ R) as (len & props & D & S & B & L).
  unfold Keychain1.set. rewrite D. cbn [JS.PutV]. rewrite L.
  change ("length" =? "length")%string with true. cbv iota.
  unfold JS.array_length_of_string.
  split; [|split].
  - intros H. rewrite (digits_are_numeric _ H), H. reflexivity.
  - intros H G. rewrite H. apply N.ltb_ge in G. rewrite G. reflexivity.
  - intros H G. rewrite H. apply N.ltb_lt in G. rewrite G. apply N.ltb_lt in G.
    cbn [fst snd]. split; [reflexivity|].
    set (n := JS.digits_value (list_ascii_of_string value)) in *.
    intros name i I.
    destruct (index_not_inherited _ _ I) as (U & NL & _).
    unfold Keychain1.get. cbn [Keychain1.with_data Keychain1.data]. rewrite D.
    cbn [JS.GetV]. rewrite NL, U.
    destruct (i <? n)%N eqn:C.
    + apply N.ltb_lt in C. rewrite (lookup_below_kept n i name props I C).
      now destruct (JS.lookup name props).
    + apply N.ltb_ge in C. now rewrite (lookup_below n i name props I C).
Qed.

Lemma set_length_truncates_witness :
  let k := snd (Keychain1.set "1" "hunter2"
                  (snd (Keychain1.set "0" "p@ssw0rd"
                          (Keychain1.init "Correct-Horse9!" sample_salt sample_iv)))) in
  Keychain1.set "length" "p@ssw0rd" k = (Throws EngineRangeError, k)
  /\ Keychain1.set "length" "4294967296" k = (Throws EngineRangeError, k)
  /\ fst (Keychain1.get "1" k) = Returns (JS.JStr "hunter2")
  /\ fst (Keychain1.get "1" (snd (Keychain1.set "length" "1" k))) = Returns JS.JNull
  /\ fst (Keychain1.get "0" (snd (Keychain1.set "length" "1" k)))
     = Returns (JS.JStr "p@ssw0rd").
Proof.
  cbv zeta.
  pose proof (fun value =>
                set_length_truncates "Correct-Horse9!" sample_salt sample_iv
                  [CallSet "0" "p@ssw0rd"; CallSet "1" "hunter2"] _ value eq_refl)
    as T.
  split; [|split; [|split; [reflexivity|split]]].
  - apply (proj1 (T "p@ssw0rd")). reflexivity.
  - apply (proj1 (proj2 (T "4294967296"))); [reflexivity|].
    vm_compute. discriminate.
  - apply (proj2 (proj2 (proj2 (T "1")) eq_refl eq_refl) "1" 1%N eq_refl).
  - apply (proj2 (proj2 (proj2 (T "1")) eq_refl eq_refl) "0" 0%N eq_refl).
Defined.

(** X5.  First listing, [length] is no record name.  On a store that [init]
    created, after any calls, the container is an array;
    [get("length")] returns the length of the array, a number, once it is
    not zero, and [remove("length")] then throws a TypeError (the property
    cannot be deleted); while the length is zero they answer [null] and
    [false].  Both leave the store as it is. *)
Theorem length_is_no_record (pw : string) (rs ri : bytes) (cs : list Call)
  (k : Keychain1.Keychain) :
  Run1.run cs (Keychain1.init pw rs ri) = Some k ->
  exists (len : N) (props : JS.Props),
    Keychain1.data k = JS.JArr len props
    /\ Keychain1.get "length" k
       = (Returns (if (0 <? len)%N then JS.JNum (Z.of_N len) else JS.JNull), k)
    /\ Keychain1.remove "length" k
       = (if (0 <? len)%N then Throws EngineTypeError else Returns false, k).
Proof.
  intros R. destruct (reached1_array _ _ _ _ _ R) as (len & props & D & S & B & L).
  exists len, props. split; [exact D|].
  unfold Keychain1.get, Keychain1.remove. rewrite D.
  cbn [JS.GetV JS.DeleteV]. rewrite L.
  change ("length" =? "length")%string with true. cbv iota. cbn [JS.truthy].
  destruct len as [|p]; split; reflexivity.
Qed.

Lemma length_is_no_record_witness :
  exists (len : N) (props : JS.Props),
    Keychain1.data leaky_store = JS.JArr len props
    /\ Keychain1.get "length" leaky_store
       = (Returns (if (0 <? len)%N then JS.JNum (Z.of_N len) else JS.JNull), leaky_store)
    /\ Keychain1.remove "length" leaky_store
       = (if (0 <? len)%N then Throws EngineTypeError else Returns false, leaky_store).
Proof.
  apply (length_is_no_record "Correct-Horse9!" sample_salt sample_iv
           [CallSet "0" "hunter2"] leaky_store eq_refl).
Defined.

(** ** What [dump] of the first listing writes *)

Lemma indices_below (len i : N) : In i (JSON.indices len) -> (i < len)%N.
Proof.
  unfold JSON.indices. intros H. apply in_map_iff in H as (n & <- & H).
  apply in_seq in H. lia.
Qed.

(** A record under a name that is no array index is in no slot of the
    array. *)
Lemma slots_upsert_named (len : N) (props : JS.Props) (name : string) (v : JS.JSValue) :
  (len <= 4294967295)%N -> JS.array_index name = None ->
  map (slot (JS.upsert name v props)) (JSON.indices len)
  = map (slot props) (JSON.indices len).
Proof.
  intros B I. apply map_ext_in. intros i Hi. apply indices_below in Hi.
  unfold slot. rewrite lookup_upsert_other; [reflexivity|].
  destruct (name =? JS.N_to_string i)%string eqn:E; [|reflexivity].
  apply String.eqb_eq in E. subst name.
  rewrite array_index_N_to_string in I by lia. discriminate I.
Qed.

(** X6.  First listing, [dump] leaves out every record whose name is no
    array index: on a store that [init] created, after any calls,
    [set(name, value)] with such a name (a domain name, say) changes nothing
    in what [dump] returns. *)
Theorem dump_ignores_named_records (crypto : NodeCrypto) (pw : string)
  (rs ri : bytes) (cs : list Call) (k : Keychain1.Keychain) (name value : string) :
  Run1.run cs (Keychain1.init pw rs ri) = Some k ->
  JS.array_index name = None ->
  (name =? "length")%string = false ->
  fst (Keychain1.set name value k) = Returns tt
  /\ Keychain1.dump crypto (snd (Keychain1.set name value k))
     = Keychain1.dump crypto k.
Proof.
  intros R I NL.
  destruct (reached1_array _ _ _ _ _ R) as (len & props & D & S & B & L).
  assert (E : exists props',
             JS.PutV (Keychain1.data k) name value = Returns (JS.JArr len props')
             /\ strings_only props' = true
             /\ map (slot props') (JSON.indices len)
                = map (slot props) (JSON.indices len)).
  { rewrite D. cbn [JS.PutV]. rewrite NL, I.
    destruct (JS.lookup name props); [|destruct (name =? "__proto__")%string];
      eexists; (split; [reflexivity|]);
      auto using strings_only_upsert, slots_upsert_named. }
  destruct E as (props' & Hp & S' & M).
  unfold Keychain1.set. rewrite Hp. cbn [fst snd]. split; [reflexivity|].
  unfold Keychain1.dump. rewrite !serialize1_layout.
  cbn [Keychain1.with_data Keychain1.data Keychain1.salt Keychain1.iv].
  rewrite D, (stringify_strings _ _ S), (stringify_strings _ _ S'), M.
  reflexivity.
Qed.

Lemma dump_ignores_named_records_witness :
  fst (Keychain1.set "example.com" "p@ssw0rd"
         (Keychain1.init "Correct-Horse9!" sample_salt sample_iv)) = Returns tt
  /\ Keychain1.dump sample_crypto (scenario_store sample_salt sample_iv)
     = Keychain1.dump sample_crypto
         (Keychain1.init "Correct-Horse9!" sample_salt sample_iv).
Proof.
  apply (dump_ignores_named_records sample_crypto "Correct-Horse9!"
           sample_salt sample_iv []
           (Keychain1.init "Correct-Horse9!" sample_salt sample_iv)
           "example.com" "p@ssw0rd" eq_refl eq_refl eq_refl).
Defined.

(** X7.  First listing, what [dump] writes is JSON text that gives the salt
    and the initialisation vector back: on a store that [init] created, after
    any calls, when [dump] returns a text and a checksum, the checksum is the
    SHA-256 digest of the text in Base64, [JSON.parse] reads the text, and
    [Buffer.from(..., 'base64')] on its [salt] and [iv] members gives the
    bytes that [init] drew. *)
Theorem dump_is_json_with_salt_and_iv (crypto : NodeCrypto) (pw : string)
  (rs ri : bytes) (cs : list Call) (k : Keychain1.Keychain)
  (blob checksum : string) :
  Run1.run cs (Keychain1.init pw rs ri) = Some k ->
  Keychain1.dump crypto k = Returns (blob, checksum) ->
  checksum = Base64.encode (sha256 crypto (list_ascii_of_string blob))
  /\ (parsed <- JSON.parse blob ;; salt <- JS.GetV parsed "salt" ;;
      Buffer_from salt Base64.decode) = Returns rs
  /\ (parsed <- JSON.parse blob ;; iv <- JS.GetV parsed "iv" ;;
      Buffer_from iv Base64.decode) = Returns ri.
Proof.
  intros R Hd.
  pose proof (reached1_kept _ _ _ _ _ R) as K.
  destruct (run1_frame cs _ _ R) as (Hs & Hi & _).
  cbn [Keychain1.init Keychain1.salt Keychain1.iv] in Hs, Hi.
  destruct (reload1 k (kept_array_strings _ K)) as (text & Sz & P).
  rewrite (dump1_serialize crypto k text Sz) in Hd.
  injection Hd as <- <-. split; [reflexivity|].
  rewrite P. unfold reloaded.
  apply kept_array_spec in K as (len & props & -> & _).
  cbn [bind JS.GetV JS.obj_get JS.lookup String.eqb Ascii.eqb Bool.eqb].
  unfold Buffer_from. rewrite !base64_decode_encode, Hs, Hi. auto.
Qed.

Lemma dump_is_json_with_salt_and_iv_witness :
  Keychain1.dump sample_crypto leaky_store
  = Returns (leaky_blob, Base64.encode (repeat Ascii.zero 32))
  /\ (parsed <- JSON.parse leaky_blob ;; salt <- JS.GetV parsed "salt" ;;
      Buffer_from salt Base64.decode) = Returns sample_salt
  /\ (parsed <- JSON.parse leaky_blob ;; iv <- JS.GetV parsed "iv" ;;
      Buffer_from iv Base64.decode) = Returns sample_iv.
Proof.
  assert (D : Keychain1.dump sample_crypto leaky_store
              = Returns (leaky_blob, Base64.encode (repeat Ascii.zero 32)))
    by (vm_compute; reflexivity).
  split; [exact D|].
  exact (proj2 (dump_is_json_with_salt_and_iv sample_crypto "Correct-Horse9!"
                  sample_salt sample_iv [CallSet "0" "hunter2"] leaky_store
                  _ _ eq_refl D)).
Defined.

(** ** Reading the text of an object back *)

Lemma member_as_bytes (k t : string) :
  plain k = true ->
  list_ascii_of_string (member_text (k, t))
  = (JSON.dquote :: list_ascii_of_string k
       ++ JSON.dquote :: ":"%char :: list_ascii_of_string t)%list.
Proof.
  intros Hk. unfold member_text. cbn [fst snd].
  rewrite (quote_plain k Hk). eval_q.
  rewrite !list_ascii_of_string_app. cbn [list_ascii_of_string app].
  rewrite <- app_assoc. reflexivity.
Qed.

(** The members of an object, read one after the other up to the closing
    brace, when [inner] reads the text of each value. *)
Lemma members_read (inner : list ascii -> JSON.Parsed JS.JSValue)
  (ms : list (string * string)) :
  forall (m0 : string * string) (v0 : JS.JSValue) (vs : list JS.JSValue)
         (fuel : nat) (acc : JS.Props) (rest : list ascii),
    List.length ms < fuel ->
    Forall (fun m => plain (fst m) = true) (m0 :: ms) ->
    Forall2 (fun m v => forall r, inner (list_ascii_of_string (snd m) ++ r)%list = JSON.POk v r)
      (m0 :: ms) (v0 :: vs) ->
    JSON.parse_members inner fuel acc
      (list_ascii_of_string (JSON.join "," (map member_text (m0 :: ms)))
         ++ "}"%char :: rest)%list
    = JSON.POk
        (JS.JObj (fold_left (fun a m => JS.upsert (fst m) (snd m) a)
                    (combine (map fst (m0 :: ms)) (v0 :: vs)) acc)) rest.
Proof.
  induction ms as [|m1 ms IH]; intros [k t] v0 vs fuel acc rest Hf Hp Hv;
    (destruct fuel as [|fuel]; [cbn in Hf; lia|]);
    inversion Hp as [|? ? Hk Hp']; subst;
    inversion Hv as [|? ? ? ? H0 Hv']; subst; cbn [fst snd] in *.
  - inversion Hv'; subst.
    cbn [map JSON.join]. rewrite (member_as_bytes k t Hk).
    cbn [app]. rewrite <- !app_assoc. cbn [app].
    erewrite member_then_brace; [ | exact Hk | apply H0 ].
    cbn [map combine fold_left fst snd].
    now rewrite string_of_list_ascii_of_string.
  - destruct vs as [|v1 vs]; [inversion Hv'|].
    cbn [map]. rewrite join_cons2. rewrite !list_ascii_of_string_app.
    rewrite (member_as_bytes k t Hk).
    cbn [app list_ascii_of_string]. rewrite <- !app_assoc. cbn [app].
    erewrite member_then_comma; [ | exact Hk | apply H0 ].
    change (member_text m1 :: map member_text ms) with (map member_text (m1 :: ms)).
    rewrite (IH m1 v1 vs) by (auto; cbn in Hf; lia).
    cbn [map combine fold_left fst snd].
    now rewrite string_of_list_ascii_of_string.
Qed.

(** [JSON.parse] reads the text of an object with plain member names back,
    when it reads the texts of the values. *)
Lemma reads_object (m : nat) (m0 : string * string) (ms : list (string * string))
  (v0 : JS.JSValue) (vs : list JS.JSValue) :
  Forall (fun x => plain (fst x) = true) (m0 :: ms) ->
  Forall2 (fun x v => reads m (snd x) v) (m0 :: ms) (v0 :: vs) ->
  reads (S (m + List.length ms)) (object_text (m0 :: ms))
    (object_value (combine (map fst (m0 :: ms)) (v0 :: vs))).
Proof.
  intros Hp Hv f rest Hf. unfold object_text, object_value.
  rewrite !list_ascii_of_string_app. cbn [list_ascii_of_string app].
  rewrite <- app_assoc. cbn [app].
  destruct f as [|f]; [lia|].
  assert (Hq : exists r', list_ascii_of_string
                            (JSON.join "," (map member_text (m0 :: ms)))
                          = JSON.dquote :: r').
  { inversion Hp as [|? ? Hk _]; subst. destruct m0 as [k t]. cbn [fst] in Hk.
    destruct ms as [|m1 ms]; cbn [map].
    - cbn [JSON.join]. rewrite (member_as_bytes k t Hk). eauto.
    - rewrite join_cons2, list_ascii_of_string_app, (member_as_bytes k t Hk).
      cbn [app]. eauto. }
  destruct Hq as [r' Hq].
  pose proof (members_read (JSON.parse_value (S f)) ms m0 v0 vs (S f) [] rest) as E.
  rewrite Hq in *. cbn [app] in *.
  rewrite value_object. apply E; [lia|exact Hp|].
  clear E Hq. revert Hv. generalize (m0 :: ms) (v0 :: vs).
  induction 1 as [|x v l l' H _ IH]; constructor; auto.
  intros r. apply H. lia.
Qed.

Lemma parse_of_reads (m : nat) (t : string) (v : JS.JSValue) :
  reads m t v -> m <= List.length (list_ascii_of_string t) ->
  JSON.parse t = Returns v.
Proof.
  intros H Hm. unfold JSON.parse.
  pose proof (H (List.length (list_ascii_of_string t)) [] Hm) as E.
  rewrite app_nil_r in E. now rewrite E.
Qed.

Lemma reads_more (m m' : nat) (t : string) (v : JS.JSValue) :
  reads m t v -> m <= m' -> reads m' t v.
Proof. intros H L f rest Hf. apply H. lia. Qed.

Lemma length_object_text (ms : list (string * string)) :
  List.length (list_ascii_of_string (JSON.join "," (map member_text ms))) + 2
  = List.length (list_ascii_of_string (object_text ms)).
Proof.
  unfold object_text. rewrite !list_ascii_of_string_app.
  cbn [list_ascii_of_string]. rewrite !length_app. cbn [List.length]. lia.
Qed.

Lemma length_member_text (k t : string) :
  List.length (list_ascii_of_string t) + 3
  <= List.length (list_ascii_of_string (member_text (k, t))).
Proof.
  unfold member_text, JSON.quote, JSON.quote_chars. cbn [fst snd].
  rewrite !list_ascii_of_string_app, list_ascii_of_string_of_list_ascii.
  cbn [list_ascii_of_string]. cbn [List.length]. rewrite !length_app.
  cbn [List.length]. rewrite length_app. cbn [List.length]. lia.
Qed.

(** ** What [load] of the first listing reads *)

Lemma Forall2_reads3 (m : nat) (k1 k2 k3 t1 t2 t3 : string) (v1 v2 v3 : JS.JSValue) :
  reads m t1 v1 -> reads m t2 v2 -> reads m t3 v3 ->
  Forall2 (fun x v => reads m (snd x) v)
    [(k1, t1); (k2, t2); (k3, t3)] [v1; v2; v3].
Proof. intros; repeat constructor; assumption. Qed.

Lemma parse_layout1 (salt iv : string) (os : list (option string)) (c : string) :
  JSON.parse
    (object_text
       [ ("serializedData",
          object_text [ ("salt", JSON.quote salt); ("iv", JSON.quote iv);
                        ("data", array_text os) ]);
         ("checksum", JSON.quote c) ])
  = Returns
      (JS.JObj
         [ ("serializedData",
            JS.JObj [ ("salt", JS.JStr salt); ("iv", JS.JStr iv);
                      ("data", array_value os) ]);
           ("checksum", JS.JStr c) ]).
Proof.
  set (n := List.length os).
  assert (I : reads (S (n + 2))
                (object_text [ ("salt", JSON.quote salt); ("iv", JSON.quote iv);
                               ("data", array_text os) ])
                (JS.JObj [ ("salt", JS.JStr salt); ("iv", JS.JStr iv);
                           ("data", array_value os) ])).
  { apply (reads_object n ("salt", JSON.quote salt)
             [("iv", JSON.quote iv); ("data", array_text os)]
             (JS.JStr salt) [JS.JStr iv; array_value os]).
    - repeat constructor.
    - apply Forall2_reads3.
      + eapply reads_more; [apply reads_quote|lia].
      + eapply reads_more; [apply reads_quote|lia].
      + apply reads_array. }
  apply (parse_of_reads (S (S (n + 2) + 1))).
  - apply (reads_object (S (n + 2)) ("serializedData", _) [("checksum", JSON.quote c)]
             (JS.JObj _) [JS.JStr c]).
    + repeat constructor.
    + repeat constructor; [exact I|].
      eapply reads_more; [apply reads_quote|lia].
  - rewrite <- length_object_text. cbn [map JSON.join].
    rewrite list_ascii_of_string_app, length_app.
    pose proof (length_member_text "serializedData"
                  (object_text [ ("salt", JSON.quote salt); ("iv", JSON.quote iv);
                                 ("data", array_text os) ])) as L1.
    rewrite <- length_object_text in L1. cbn [map JSON.join] in L1.
    rewrite !list_ascii_of_string_app, !length_app in L1.
    pose proof (length_member_text "data" (array_text os)) as L2.
    pose proof (length_array_text os) as L3. fold n in L3.
    lia.
Qed.

Lemma load_layout1_store (pw : string) (salt iv : bytes)
  (os : list (option string)) (c : string) :
  Keychain1.load pw (layout1 salt iv os c) (Some c)
  = Returns {| Keychain1.password := pw; Keychain1.salt := salt;
               Keychain1.iv := iv; Keychain1.data := array_value os |}.
Proof.
  unfold Keychain1.load, layout1. rewrite parse_layout1.
  cbn [bind JS.GetV JS.obj_get JS.lookup String.eqb Ascii.eqb Bool.eqb].
  cbn [optional JS.strict_equal]. rewrite String.eqb_refl. cbn [negb].
  unfold Buffer_from. now rewrite !base64_decode_encode.
Qed.

(** X8.  First listing, the layout that [load] reads.  On the JSON text of
    an object with a [serializedData] member, holding the salt and the
    initialisation vector in Base64 and an array of strings, and a
    [checksum] member, [load] returns the store with these bytes and that
    array when the trusted checksum is the [checksum] member, and throws
    "Data integrity check failed" when it is another string or is left
    out. *)
Theorem load_reads_its_layout :
  forall (pw : string) (salt iv : bytes) (os : list (option string))
         (c : string) (t : option string),
    Keychain1.load pw (layout1 salt iv os c) t
    = match t with
      | Some c' =>
          if (c =? c')%string
          then Returns {| Keychain1.password := pw; Keychain1.salt := salt;
                          Keychain1.iv := iv; Keychain1.data := array_value os |}
          else Throws (JsError "Data integrity check failed")
      | None => Throws (JsError "Data integrity check failed")
      end.
Proof.
  intros. unfold Keychain1.load, layout1. rewrite parse_layout1.
  cbn [bind JS.GetV JS.obj_get JS.lookup String.eqb Ascii.eqb Bool.eqb].
  destruct t as [c'|]; cbn [optional JS.strict_equal]; [|reflexivity].
  destruct (c =? c')%string; cbn [negb]; [|reflexivity].
  unfold Buffer_from. now rewrite !base64_decode_encode.
Qed.

(** Such a blob, for the sample bytes and two records. *)
Example layout1_text :
  layout1 sample_salt sample_iv [Some "hunter2"; None; Some "p@ssw0rd"] "c"
  = JSON.q "{'serializedData':{'salt':'MDEyMzQ1Njc4OWFiY2RlZg==','iv':'ZmVkY2JhOTg3NjU0MzIxMA==','data':['hunter2',null,'p@ssw0rd']},'checksum':'c'}".
Proof. vm_compute. reflexivity. Qed.

(** ** [get] on a store that [load] of the first listing returned *)

Lemma N_to_string_injective (a b : N) :
  JS.N_to_string a = JS.N_to_string b -> a = b.
Proof.
  unfold JS.N_to_string. intros H.
  apply (f_equal NilZero.uint_of_string) in H.
  rewrite !NilZero.usu in H by apply N_to_uint_nonnil.
  injection H as H. now apply DecimalN.Unsigned.to_uint_inj.
Qed.

Lemma N_to_string_eqb (a b : N) :
  (JS.N_to_string a =? JS.N_to_string b)%string = (a =? b)%N.
Proof.
  destruct (N.eqb_spec a b) as [->|D].
  - apply String.eqb_refl.
  - destruct (_ =? _)%string eqn:E; [|reflexivity].
    apply String.eqb_eq, N_to_string_injective in E. contradiction.
Qed.

(** The element at an index of an array of strings and holes. *)
Lemma lookup_entries (os : list (option string)) :
  forall (i : N) (j : nat),
    JS.lookup (JS.N_to_string (i + N.of_nat j)) (entries i os)
    = option_map elem_value (nth_error os j).
Proof.
  induction os as [|o os IH]; intros i j.
  - now destruct j.
  - cbn [entries JS.lookup]. rewrite N_to_string_eqb.
    destruct j as [|j].
    + rewrite N.add_0_r, N.eqb_refl. reflexivity.
    + destruct (N.eqb_spec i (i + N.of_nat (S j))) as [E|_]; [lia|].
      replace (i + N.of_nat (S j))%N with (i + 1 + N.of_nat j)%N by lia.
      apply IH.
Qed.

(** X9.  First listing, [get] after [load].  On the store that [load]
    returns for a blob in its layout, [get] under the decimal name of an
    index returns the string that the array of the blob holds there, and
    [null] where the array holds [null] or the empty string, or ends. *)
Theorem get_after_load_first_listing (pw : string) (salt iv : bytes)
  (os : list (option string)) (c : string) (j : N) :
  (j < 4294967295)%N ->
  (k <- Keychain1.load pw (layout1 salt iv os c) (Some c) ;;
   fst (Keychain1.get (JS.N_to_string j) k))
  = Returns match nth_error os (N.to_nat j) with
            | Some (Some s) => if (s =? "")%string then JS.JNull else JS.JStr s
            | _ => JS.JNull
            end.
Proof.
  intros B. rewrite load_layout1_store. cbn [bind].
  destruct (index_not_inherited _ _ (array_index_N_to_string j B)) as (U & L & _).
  unfold Keychain1.get, array_value. cbn [Keychain1.data JS.GetV].
  pose proof (lookup_entries os 0 (N.to_nat j)) as E.
  rewrite N.add_0_l, N2Nat.id in E. rewrite E, L, U.
  destruct (nth_error os (N.to_nat j)) as [[s|]|]; cbn [option_map elem_value fst];
    try reflexivity.
  cbn [JS.truthy]. now destruct (s =? "")%string.
Qed.

Lemma get_after_load_first_listing_witness :
  (k <- Keychain1.load "Correct-Horse9!"
          (layout1 sample_salt sample_iv [Some "hunter2"; None; Some "p@ssw0rd"] "c")
          (Some "c") ;;
   fst (Keychain1.get "2" k))
  = Returns (JS.JStr "p@ssw0rd").
Proof.
  apply (get_after_load_first_listing "Correct-Horse9!" sample_salt sample_iv
           [Some "hunter2"; None; Some "p@ssw0rd"] "c" 2%N eq_refl).
Defined.

(** ** Code units *)

Lemma characters_step (c : ascii) (r : list ascii) :
  characters (c :: r)
  = match characters r with
    | (x :: g) :: gs =>
        if is_continuation x then (c :: x :: g) :: gs
        else [c] :: (x :: g) :: gs
    | gs => [c] :: gs
    end.
Proof. reflexivity. Qed.

Lemma characters_head (c : ascii) (r : list ascii) :
  exists conts gs,
    characters (c :: r) = (c :: conts) :: gs
    /\ forallb is_continuation conts = true.
Proof.
  revert c. induction r as [|x r IH]; intros c.
  - exists [], []. split; reflexivity.
  - destruct (IH x) as (conts & gs & E & F).
    rewrite characters_step, E.
    destruct (is_continuation x) eqn:Cx.
    + exists (x :: conts), gs. split; [reflexivity|]. cbn. now rewrite Cx.
    + exists [], ((x :: conts) :: gs). split; reflexivity.
Qed.

(** Every character is a byte followed by continuation bytes. *)
Lemma characters_shape (s : list ascii) (g : list ascii) :
  In g (characters s) ->
  exists c conts, g = c :: conts /\ forallb is_continuation conts = true.
Proof.
  revert g. induction s as [|c r IH]; intros g H; [destruct H|].
  destruct r as [|x r].
  - destruct H as [<-|[]]. exists c, []. auto.
  - destruct (characters_head x r) as (conts & gs & E & F).
    rewrite characters_step in H. rewrite E in H, IH.
    destruct (is_continuation x) eqn:Cx.
    + destruct H as [<-|H].
      * exists c, (x :: conts). split; [reflexivity|]. cbn. now rewrite Cx.
      * apply IH. now right.
    + destruct H as [<-|H].
      * exists c, []. auto.
      * apply IH. exact H.
Qed.

(** A byte that is no continuation byte starts a character of its own. *)
Lemma characters_cons (c x : ascii) (r : list ascii) :
  is_continuation x = false ->
  characters (c :: x :: r) = [c] :: characters (x :: r).
Proof.
  intros Cx. destruct (characters_head x r) as (conts & gs & E & _).
  rewrite characters_step, E. now rewrite Cx.
Qed.

Lemma code_unit_character (s : string) (i : nat) (u : string) :
  nth_error (code_units s) i = Some (Some u) ->
  exists c conts,
    u = string_of_list_ascii (c :: conts)
    /\ forallb is_continuation conts = true.
Proof.
  intros H. apply nth_error_In in H. unfold code_units in H.
  apply in_flat_map in H as (g & Hg & Hu).
  apply characters_shape in Hg as (c & conts & -> & F).
  exists c, conts. split; [|exact F].
  cbn [units_of] in Hu. destruct (240 <=? N_of_ascii c)%N.
  - destruct Hu as [Hu|[Hu|[]]]; discriminate Hu.
  - destruct Hu as [Hu|[]]. now injection Hu as <-.
Qed.

(** ** [JSON.parse] on one character *)

Lemma ascii_of_code (c : ascii) (n : N) :
  (N_of_ascii c =? n)%N = true -> c = ascii_of_N n.
Proof.
  intros H. apply N.eqb_eq in H. rewrite <- H. now rewrite ascii_N_embedding.
Qed.

Lemma parse_value_blanks (f : nat) (s s' : list ascii) :
  JSON.skip_ws s = JSON.skip_ws s' ->
  JSON.parse_value (S f) s = JSON.parse_value (S f) s'.
Proof. intros H. simpl. now rewrite H. Qed.

Lemma starts_no_value_spec (c : ascii) :
  starts_no_value c = true ->
  JSON.is_ws c = false /\ (N_of_ascii c =? 123)%N = false
  /\ (N_of_ascii c =? 91)%N = false /\ (N_of_ascii c =? 34)%N = false
  /\ (N_of_ascii c =? 116)%N = false /\ (N_of_ascii c =? 102)%N = false
  /\ (N_of_ascii c =? 110)%N = false /\ (N_of_ascii c =? 45)%N = false
  /\ JS.is_digit c = false.
Proof.
  unfold starts_no_value. cbv zeta. intros H. apply negb_true_iff in H.
  do 8 (apply orb_false_iff in H as [H ?]). repeat split; assumption.
Qed.

(** No value starts with such a byte. *)
Lemma value_of_other (f : nat) (c : ascii) (r : list ascii) :
  starts_no_value c = true -> JSON.parse_value (S f) (c :: r) = JSON.PSyntax.
Proof.
  intros H. apply starts_no_value_spec in H
    as (W & H1 & H2 & H3 & H4 & H5 & H6 & H7 & D).
  simpl. rewrite W. cbv zeta. rewrite H1, H2, H3, H4, H5, H6.
  unfold JSON.parse_number. rewrite H7, D. reflexivity.
Qed.

Lemma continuation_spec (x : ascii) :
  is_continuation x = true ->
  starts_no_value x = true
  /\ (N_of_ascii x =? 125)%N = false /\ (N_of_ascii x =? 93)%N = false
  /\ (N_of_ascii x =? 92)%N = false /\ (N_of_ascii x <? 32)%N = false
  /\ (N_of_ascii x =? 46)%N = false /\ (N_of_ascii x =? 101)%N = false
  /\ (N_of_ascii x =? 69)%N = false
  /\ ("r" =? x)%char = false /\ ("a" =? x)%char = false /\ ("u" =? x)%char = false.
Proof.
  destruct x as [[] [] [] [] [] [] [] []]; intros H; try discriminate H;
    vm_compute; repeat split.
Qed.

Lemma chars_of_continuations (l : list ascii) :
  forallb is_continuation l = true -> JSON.parse_chars l = JSON.PSyntax.
Proof.
  induction l as [|x l IH]; intros H; [reflexivity|].
  cbn [forallb] in H. apply andb_prop in H as [Hx Hl].
  destruct (continuation_spec x Hx) as (S & _ & _ & B & L & _).
  apply starts_no_value_spec in S as (_ & _ & _ & Q & _).
  cbn [JSON.parse_chars]. rewrite Q, B, L, (IH Hl). reflexivity.
Qed.

Lemma members_of_other (inner : list ascii -> JSON.Parsed JS.JSValue) (f : nat)
  (acc : JS.Props) (x : ascii) (r : list ascii) :
  JSON.is_ws x = false -> (N_of_ascii x =? 34)%N = false ->
  JSON.parse_members inner (S f) acc (x :: r) = JSON.PSyntax.
Proof. intros W Q. cbn [JSON.parse_members JSON.skip_ws]. now rewrite W, Q. Qed.

Lemma elements_of_syntax (inner : list ascii -> JSON.Parsed JS.JSValue) (f : nat)
  (i : N) (acc : JS.Props) (s : list ascii) :
  inner s = JSON.PSyntax -> JSON.parse_elements inner (S f) i acc s = JSON.PSyntax.
Proof. intros H. cbn [JSON.parse_elements]. now rewrite H. Qed.


Lemma value_brace (f : nat) (x : ascii) (r : list ascii) :
  JSON.is_ws x = false -> (N_of_ascii x =? 125)%N = false ->
  JSON.parse_value (S f) ("{"%char :: x :: r)
  = JSON.parse_members (JSON.parse_value f) f [] (x :: r).
Proof.
  intros W B. cbn [JSON.parse_value].
  change (JSON.skip_ws ("{"%char :: ?y)) with ("{"%char :: y).
  cbv beta iota zeta.
  change (N_of_ascii "{" =? 123)%N with true. cbv iota.
  cbn [JSON.skip_ws]. rewrite W, B. reflexivity.
Qed.

Lemma value_quote (f : nat) (r : list ascii) :
  JSON.parse_value (S f) (JSON.dquote :: r)
  = match JSON.parse_chars r with
    | JSON.POk k r' => JSON.POk (JS.JStr (string_of_list_ascii k)) r'
    | JSON.PSyntax => JSON.PSyntax
    | JSON.PUnmodelled => JSON.PUnmodelled
    end.
Proof. reflexivity. Qed.

Lemma value_keyword_t (f : nat) (r : list ascii) :
  JSON.parse_value (S f) ("t"%char :: r)
  = JSON.keyword "true" (JS.JBool true) ("t"%char :: r).
Proof. reflexivity. Qed.

Lemma value_keyword_f (f : nat) (r : list ascii) :
  JSON.parse_value (S f) ("f"%char :: r)
  = JSON.keyword "false" (JS.JBool false) ("f"%char :: r).
Proof. reflexivity. Qed.

Lemma value_keyword_n (f : nat) (r : list ascii) :
  JSON.parse_value (S f) ("n"%char :: r)
  = JSON.keyword "null" JS.JNull ("n"%char :: r).
Proof. reflexivity. Qed.

Lemma value_minus (f : nat) (r : list ascii) :
  JSON.parse_value (S f) ("-"%char :: r) = JSON.parse_number ("-"%char :: r).
Proof. reflexivity. Qed.

Lemma value_digit_start (f : nat) (c : ascii) (r : list ascii) :
  JS.is_digit c = true ->
  JSON.parse_value (S f) (c :: r) = JSON.parse_number (c :: r).
Proof.
  destruct c as [[] [] [] [] [] [] [] []]; intros H; try discriminate H;
    reflexivity.
Qed.

Lemma digit_spec (c : ascii) :
  JS.is_digit c = true ->
  (N_of_ascii c =? 45)%N = false
  /\ (9007199254740992 <? JS.digits_value [c])%N = false.
Proof.
  destruct c as [[] [] [] [] [] [] [] []]; intros H; try discriminate H;
    vm_compute; split; reflexivity.
Qed.

(** A digit followed by a byte that no number holds: the number ends
    there. *)
Lemma number_of_one_digit (c x : ascii) (r : list ascii) :
  JS.is_digit c = true -> JS.is_digit x = false ->
  (N_of_ascii x =? 46)%N = false -> (N_of_ascii x =? 101)%N = false ->
  (N_of_ascii x =? 69)%N = false ->
  exists n, JSON.parse_number (c :: x :: r) = JSON.POk (JS.JNum n) (x :: r).
Proof.
  intros Dc Dx H1 H2 H3. destruct (digit_spec c Dc) as [M B].
  assert (T : (if (N_of_ascii c =? 48)%N then ([c], x :: r)
               else JSON.take_digits (c :: x :: r)) = ([c], x :: r)).
  { destruct (N_of_ascii c =? 48)%N; [reflexivity|].
    cbn [JSON.take_digits]. now rewrite Dc, Dx. }
  unfold JSON.parse_number. rewrite M. cbv beta iota. rewrite Dc. cbn [negb].
  rewrite T. rewrite H1, H2, H3. cbn [orb]. rewrite B.
  eexists. reflexivity.
Qed.

(** [JSON.parse] on the text of one character. *)
Lemma parse_character (c : ascii) (conts : list ascii) :
  forallb is_continuation conts = true ->
  number_or_syntax_error (JSON.parse (string_of_list_ascii (c :: conts))).
Proof.
  intros F. destruct conts as [|x xs].
  - destruct c as [[] [] [] [] [] [] [] []]; vm_compute; exact I.
  - cbn [forallb] in F. apply andb_prop in F as [Hx Hxs].
    destruct (continuation_spec x Hx)
      as (SN & B125 & B93 & B92 & L32 & B46 & B101 & B69 & Er & Ea & Eu).
    pose proof (starts_no_value_spec x SN)
      as (Wx & _ & _ & Qx & _ & _ & _ & _ & Dx).
    unfold JSON.parse. rewrite list_ascii_of_string_of_list_ascii.
    cbn [List.length]. set (n := List.length xs).
    assert (Done : forall p,
               p = JSON.PSyntax ->
               number_or_syntax_error
                 match p with
                 | JSON.POk v r =>
                     match JSON.skip_ws r with
                     | [] => Returns v
                     | _ :: _ => Throws EngineSyntaxError
                     end
                 | JSON.PSyntax => Throws EngineSyntaxError
                 | JSON.PUnmodelled => Unmodelled
                 end) by (intros p ->; exact I).
    destruct (JSON.is_ws c) eqn:W.
    { apply Done.
      rewrite (parse_value_blanks _ (c :: x :: xs) (x :: xs))
        by (cbn [JSON.skip_ws]; now rewrite W).
      now apply value_of_other. }
    destruct (starts_no_value c) eqn:S0; [apply Done; now apply value_of_other|].
    unfold starts_no_value in S0. cbv zeta in S0. apply negb_false_iff in S0.
    rewrite W in S0. cbn [orb] in S0.
    repeat (apply orb_true_iff in S0 as [S0|S0]).
    + apply ascii_of_code in S0. subst c. apply Done.
      rewrite (value_brace _ x xs Wx B125). now apply members_of_other.
    + apply ascii_of_code in S0. subst c. apply Done.
      change (ascii_of_N 91) with "["%char.
      rewrite (value_array_step _ x xs Wx B93).
      apply elements_of_syntax. now apply value_of_other.
    + apply ascii_of_code in S0. subst c. apply Done.
      change (ascii_of_N 34) with JSON.dquote. rewrite value_quote.
      rewrite (chars_of_continuations (x :: xs)); [reflexivity|].
      cbn [forallb]. now rewrite Hx, Hxs.
    + apply ascii_of_code in S0. subst c. apply Done.
      change (ascii_of_N 116) with "t"%char. rewrite value_keyword_t.
      unfold JSON.keyword. cbn [list_ascii_of_string JSON.strip_prefix].
      change ("t" =? "t")%char with true. cbv iota. now rewrite Er.
    + apply ascii_of_code in S0. subst c. apply Done.
      change (ascii_of_N 102) with "f"%char. rewrite value_keyword_f.
      unfold JSON.keyword. cbn [list_ascii_of_string JSON.strip_prefix].
      change ("f" =? "f")%char with true. cbv iota. now rewrite Ea.
    + apply ascii_of_code in S0. subst c. apply Done.
      change (ascii_of_N 110) with "n"%char. rewrite value_keyword_n.
      unfold JSON.keyword. cbn [list_ascii_of_string JSON.strip_prefix].
      change ("n" =? "n")%char with true. cbv iota. now rewrite Eu.
    + apply ascii_of_code in S0. subst c. apply Done.
      change (ascii_of_N 45) with "-"%char. rewrite value_minus.
      unfold JSON.parse_number.
      change (N_of_ascii "-" =? 45)%N with true. cbv iota beta. now rewrite Dx.
    + rewrite (value_digit_start _ c _ S0).
      destruct (number_of_one_digit c x xs S0 Dx B46 B101 B69) as (v & ->).
      cbn [JSON.skip_ws]. rewrite Wx. exact I.
Qed.

(** ** [load] of the second listing on a text *)

Lemma no_unit_at_all (l : list (option string)) :
  nth_error l 0 = None -> nth_error l 1 = None.
Proof. destruct l; [reflexivity|discriminate]. Qed.

(** Past the comparison of the checksums, on one character. *)
Lemma load2_on_character (pw u : string) (invalid : bool) (U : Prop) :
  number_or_syntax_error (JSON.parse u) ->
  match (if invalid then Throws (JsError "Data integrity check failed")
         else
           parsed <- JSON_parse (JS.JStr u) ;;
           triple <- destructure3 parsed ;;
           (let '(salt, iv, data) := triple in
            salt' <- Buffer_from salt Base64.decode ;;
            iv' <- Buffer_from iv Base64.decode ;;
            Returns {| Keychain2.password := pw; Keychain2.salt := salt';
                       Keychain2.iv := iv'; Keychain2.data := data |}))
  with
  | Returns _ => False
  | Throws e =>
      e = JsError "Data integrity check failed"
      \/ e = EngineSyntaxError \/ e = EngineTypeError
  | Unmodelled => U
  end.
Proof.
  intros P. destruct invalid; [auto|].
  unfold JSON_parse. cbn [ToString].
  destruct (JSON.parse u) as [[]|[]|]; cbn in P; try contradiction;
    cbn [bind destructure3]; auto.
Qed.

(** X10.  Second listing, [load] returns on no text.  Given a string as
    [repr], as the documentation asks, [load] takes its first code unit for
    the serialized data and its second for the checksum: it throws "Data
    integrity check failed", or a SyntaxError or TypeError on the one
    character, and never returns a store.  (The embedding does not follow the
    case where one of the two code units is half of a surrogate pair.) *)
Theorem load_second_listing_rejects_every_text :
  forall (pw repr : string) (t : option string),
    match Keychain2.load pw (JS.JStr repr) t with
    | Returns _ => False
    | Throws e =>
        e = JsError "Data integrity check failed"
        \/ e = EngineSyntaxError \/ e = EngineTypeError
    | Unmodelled =>
        nth_error (code_units repr) 0 = Some None
        \/ nth_error (code_units repr) 1 = Some None
    end.
Proof.
  intros. unfold Keychain2.load. cbn [Index].
  change (N.to_nat 0) with 0%nat. change (N.to_nat 1) with 1%nat.
  destruct (nth_error (code_units repr) 0) as [[u|]|] eqn:E0; cbn [bind].
  - assert (P : number_or_syntax_error (JSON.parse u)).
    { apply code_unit_character in E0 as (c & conts & -> & F).
      now apply parse_character. }
    destruct (nth_error (code_units repr) 1) as [[w|]|] eqn:E1; cbn [bind].
    + cbv zeta. now apply load2_on_character.
    + auto.
    + cbv zeta. now apply load2_on_character.
  - auto.
  - rewrite (no_unit_at_all _ E0). cbn [bind].
    destruct (JS.strict_equal _ _); cbn [negb]; auto.
    change (JSON_parse JS.JUndefined) with (Throws (A := JS.JSValue) EngineSyntaxError).
    cbn [bind]. auto.
Qed.

Example code_units_of_text :
  code_units (JSON.q "{'a") = [Some "{"; Some one_quote; Some "a"]
  /\ Index (JS.JStr (JSON.q "{'a")) 1 = Returns (JS.JStr one_quote)
  /\ Index (JS.JStr "ab") 2 = Returns JS.JUndefined.
Proof. repeat split. Qed.

(** A character of two bytes is one code unit, a character of four bytes is
    two. *)
Example code_units_of_characters :
  code_units (String (ascii_of_N 195) (String (ascii_of_N 169) "a"))
  = [Some (String (ascii_of_N 195) (String (ascii_of_N 169) "")); Some "a"]
  /\ code_units (String (ascii_of_N 240) (String (ascii_of_N 159)
                   (String (ascii_of_N 152) (String (ascii_of_N 128) "a"))))
     = [None; None; Some "a"]
  /\ utf16_length (String (ascii_of_N 240) (String (ascii_of_N 159)
                     (String (ascii_of_N 152) (String (ascii_of_N 128) "a")))) = 3%N.
Proof. repeat split. Qed.

(** ** What [dump] of the second listing writes *)

Lemma serialize2_layout (k : Keychain2.Keychain) :
  Keychain2.serialize k
  = Some (object_text
            (("salt", JSON.quote (Base64.encode (Keychain2.salt k)))
               :: ("iv", JSON.quote (Base64.encode (Keychain2.iv k)))
               :: match JSON.stringify (Keychain2.data k) with
                  | Some t => [("data", t)]
                  | None => []
                  end)).
Proof.
  unfold Keychain2.serialize, Keychain2.dumped.
  cbn -[JSON.quote String.append Base64.encode].
  destruct (JSON.stringify (Keychain2.data k)); reflexivity.
Qed.

(** The text starts with a brace and a quote. *)
Lemma serialize2_head (k : Keychain2.Keychain) :
  exists (blob : string) (rest : list ascii),
    Keychain2.serialize k = Some blob
    /\ list_ascii_of_string blob = "{"%char :: JSON.dquote :: "s"%char :: rest.
Proof.
  rewrite serialize2_layout.
  destruct (JSON.stringify (Keychain2.data k));
    eexists; eexists; (split; [reflexivity|]);
    unfold object_text, member_text; cbn [map fst snd];
    rewrite !join_cons2; rewrite !list_ascii_of_string_app;
    change (JSON.quote "salt") with (JSON.q "'salt'"); eval_q;
    cbn [list_ascii_of_string app]; reflexivity.
Qed.

Lemma units_of_head (blob : string) (rest : list ascii) :
  list_ascii_of_string blob = "{"%char :: JSON.dquote :: "s"%char :: rest ->
  nth_error (code_units blob) 0 = Some (Some "{")
  /\ nth_error (code_units blob) 1 = Some (Some one_quote).
Proof.
  intros E. unfold code_units. rewrite E.
  rewrite !characters_cons by reflexivity. split; reflexivity.
Qed.

Lemma base64_is_no_quote (b : bytes) :
  (one_quote =? Base64.encode b)%string = false.
Proof.
  destruct (one_quote =? Base64.encode b)%string eqn:E; [|reflexivity].
  apply String.eqb_eq in E. pose proof (base64_plain b) as P.
  rewrite <- E in P. discriminate P.
Qed.

(** X11.  Second listing, [load] does not read the text that [dump] wrote.
    For every store, and every text and checksum that [dump] returned on it:
    the text starts with a brace and a double quote; [load] on this text
    takes the brace for the serialized data and the quote for the checksum,
    and throws "Data integrity check failed", with the dumped checksum and
    with none; only when the trusted checksum is the text of one double quote
    does it get to [JSON.parse], which throws a SyntaxError on the brace. *)
Theorem load_of_dumped_text_second_listing :
  forall (crypto : NodeCrypto) (pw : string) (k : Keychain2.Keychain)
         (blob checksum : string) (t : option string),
    fst (Keychain2.dump crypto k) = Returns (blob, checksum) ->
    Keychain2.load pw (JS.JStr blob) t
    = (if JS.strict_equal (JS.JStr one_quote) (optional t)
       then Throws EngineSyntaxError
       else Throws (JsError "Data integrity check failed"))
    /\ Keychain2.load pw (JS.JStr blob) (Some checksum)
       = Throws (JsError "Data integrity check failed")
    /\ Keychain2.load pw (JS.JStr blob) None
       = Throws (JsError "Data integrity check failed").
Proof.
  intros crypto pw k blob checksum t Hd.
  destruct (serialize2_head k) as (text & rest & Sz & E).
  unfold Keychain2.dump in Hd. rewrite Sz in Hd. cbn [fst] in Hd.
  injection Hd as <- <-.
  destruct (units_of_head text rest E) as (U0 & U1).
  assert (L : forall t',
             Keychain2.load pw (JS.JStr text) t'
             = if JS.strict_equal (JS.JStr one_quote) (optional t')
               then Throws EngineSyntaxError
               else Throws (JsError "Data integrity check failed")).
  { intros t'. unfold Keychain2.load. cbn [Index].
    change (N.to_nat 0) with 0%nat. change (N.to_nat 1) with 1%nat.
    rewrite U0, U1. cbn [bind]. cbv zeta.
    destruct (JS.strict_equal (JS.JStr one_quote) (optional t')); reflexivity. }
  split; [apply L|]. split; rewrite L; [|reflexivity].
  unfold Keychain2.computeChecksum. cbn [optional JS.strict_equal].
  now rewrite base64_is_no_quote.
Qed.

Lemma load_of_dumped_text_second_listing_witness :
  let k := snd (Keychain2.set "0" "hunter2"
                  (Keychain2.init "Correct-Horse9!" sample_salt sample_iv)) in
  let blob :=
    JSON.q "{'salt':'MDEyMzQ1Njc4OWFiY2RlZg==','iv':'ZmVkY2JhOTg3NjU0MzIxMA==','data':['hunter2']}" in
  let checksum := Base64.encode (repeat Ascii.zero 32) in
  fst (Keychain2.dump sample_crypto k) = Returns (blob, checksum)
  /\ Keychain2.load "Correct-Horse9!" (JS.JStr blob) (Some checksum)
     = Throws (JsError "Data integrity check failed")
  /\ Keychain2.load "Correct-Horse9!" (JS.JStr blob) None
     = Throws (JsError "Data integrity check failed")
  /\ Keychain2.load "Correct-Horse9!" (JS.JStr blob) (Some one_quote)
     = Throws EngineSyntaxError.
Proof.
  cbv zeta.
  match goal with
  | |- ?h /\ _ => assert (D : h) by (vm_compute; reflexivity)
  end.
  pose proof (load_of_dumped_text_second_listing sample_crypto "Correct-Horse9!"
                _ _ _ (Some one_quote) D) as [Q [C N]].
  split; [exact D|]. split; [exact C|]. split; [exact N|exact Q].
Defined.

(** ** Stores of the second listing *)

Lemma exec2_kept (c : Call) (k : Keychain2.Keychain) :
  kept_array (Keychain2.data k) = true ->
  kept_array (Keychain2.data (snd (Run2.exec c k))) = true.
Proof.
  intros H. destruct c as [name|name value|name]; cbn [Run2.exec void snd].
  - unfold Keychain2.get. now destruct (JS.GetV _ _).
  - unfold Keychain2.set. pose proof (PutV_kept _ name value H) as P.
    now destruct (JS.PutV _ _ _).
  - unfold Keychain2.remove. destruct (JS.GetV _ _) as [v| |]; auto.
    destruct (JS.truthy v); auto.
    pose proof (DeleteV_kept _ name H) as P.
    now destruct (JS.DeleteV _ _).
Qed.

Lemma run2_kept (cs : list Call) :
  forall k k' : Keychain2.Keychain,
    kept_array (Keychain2.data k) = true ->
    Run2.run cs k = Some k' ->
    kept_array (Keychain2.data k') = true.
Proof.
  induction cs as [|c cs IH]; intros k k' H R; cbn in R.
  - now injection R as <-.
  - pose proof (exec2_kept c k H) as H'.
    destruct (Run2.exec c k) as [[u|e|] k1]; try discriminate; eauto.
Qed.

Lemma exec2_frame (c : Call) (k : Keychain2.Keychain) :
  Keychain2.salt (snd (Run2.exec c k)) = Keychain2.salt k
  /\ Keychain2.iv (snd (Run2.exec c k)) = Keychain2.iv k.
Proof.
  destruct c as [name|name value|name]; cbn [Run2.exec void snd].
  - unfold Keychain2.get. now destruct (JS.GetV _ _).
  - unfold Keychain2.set. now destruct (JS.PutV _ _ _).
  - unfold Keychain2.remove. destruct (JS.GetV _ _) as [v| |]; auto.
    destruct (JS.truthy v); auto. now destruct (JS.DeleteV _ _).
Qed.

Lemma run2_frame (cs : list Call) :
  forall k k' : Keychain2.Keychain,
    Run2.run cs k = Some k' ->
    Keychain2.salt k' = Keychain2.salt k /\ Keychain2.iv k' = Keychain2.iv k.
Proof.
  induction cs as [|c cs IH]; intros k k' R; cbn in R.
  - now injection R as <-.
  - destruct (exec2_frame c k) as [Hs Hi].
    destruct (Run2.exec c k) as [[u|e|] k1]; try discriminate;
      cbn [snd] in *; destruct (IH _ _ R) as [Hs' Hi']; split; congruence.
Qed.

(** [JSON.parse] reads the text dumped from a store that [init] created:
    an object. *)
Lemma reload2 (k : Keychain2.Keychain) :
  kept_array (Keychain2.data k) = true ->
  exists (blob : string) (v : JS.JSValue),
    Keychain2.serialize k = Some blob
    /\ JSON.parse blob
       = Returns (JS.JObj [ ("salt", JS.JStr (Base64.encode (Keychain2.salt k)));
                            ("iv", JS.JStr (Base64.encode (Keychain2.iv k)));
                            ("data", v) ]).
Proof.
  intros K. apply kept_array_spec in K as (len & props & D & Hs & _).
  rewrite serialize2_layout, D, (stringify_strings _ _ Hs).
  set (os := map (slot props) (JSON.indices len)).
  eexists. exists (array_value os). split; [reflexivity|].
  apply (parse_of_reads (S (List.length os + 2))).
  - apply (reads_object (List.length os) ("salt", _) [("iv", _); ("data", _)]
             (JS.JStr _) [JS.JStr _; array_value os]).
    + repeat constructor.
    + apply Forall2_reads3.
      * eapply reads_more; [apply reads_quote|lia].
      * eapply reads_more; [apply reads_quote|lia].
      * apply reads_array.
  - rewrite <- length_object_text. cbn [map]. rewrite !join_cons2.
    rewrite !list_ascii_of_string_app, !length_app.
    pose proof (length_member_text "data" (array_text os)) as L2.
    pose proof (length_array_text os) as L3.
    pose proof (length_member_text "salt" (JSON.quote (Base64.encode (Keychain2.salt k)))).
    pose proof (length_member_text "iv" (JSON.quote (Base64.encode (Keychain2.iv k)))).
    cbn [JSON.join]. lia.
Qed.

(** X12.  Second listing, [load] does not read what [dump] returned either.
    For a store that [init] created, after any calls, and the text and the
    checksum that [dump] returned on it: [load] on the array of the two, with
    that checksum as the trusted one, throws a TypeError: the text is that of
    an object, and [load] takes it apart as an array.  With the checksum left
    out it throws "Data integrity check failed". *)
Theorem load_of_dump_second_listing (crypto : NodeCrypto) (pw pw' : string)
  (rs ri : bytes) (cs : list Call) (k : Keychain2.Keychain)
  (blob checksum : string) :
  Run2.run cs (Keychain2.init pw rs ri) = Some k ->
  fst (Keychain2.dump crypto k) = Returns (blob, checksum) ->
  Keychain2.load pw' (pair_of blob checksum) (Some checksum)
  = Throws EngineTypeError
  /\ Keychain2.load pw' (pair_of blob checksum) None
     = Throws (JsError "Data integrity check failed").
Proof.
  intros R Hd.
  assert (K : kept_array (Keychain2.data k) = true)
    by (eapply run2_kept; [|exact R]; reflexivity).
  destruct (reload2 k K) as (text & v & Sz & P).
  unfold Keychain2.dump in Hd. rewrite Sz in Hd. cbn [fst] in Hd.
  injection Hd as <- <-.
  unfold Keychain2.load, pair_of. cbn [Index JS.GetV].
  change (JS.N_to_string 0) with "0". change (JS.N_to_string 1) with "1".
  cbn [JS.lookup String.eqb Ascii.eqb Bool.eqb bind optional JS.strict_equal].
  rewrite String.eqb_refl. cbn [negb].
  unfold JSON_parse. cbn [ToString]. rewrite P. split; reflexivity.
Qed.

Lemma load_of_dump_second_listing_witness :
  let k := snd (Keychain2.set "0" "hunter2"
                  (Keychain2.init "Correct-Horse9!" sample_salt sample_iv)) in
  let blob :=
    JSON.q "{'salt':'MDEyMzQ1Njc4OWFiY2RlZg==','iv':'ZmVkY2JhOTg3NjU0MzIxMA==','data':['hunter2']}" in
  let checksum := Base64.encode (repeat Ascii.zero 32) in
  fst (Keychain2.dump sample_crypto k) = Returns (blob, checksum)
  /\ Keychain2.load "Correct-Horse9!" (pair_of blob checksum) (Some checksum)
     = Throws EngineTypeError
  /\ Keychain2.load "Correct-Horse9!" (pair_of blob checksum) None
     = Throws (JsError "Data integrity check failed").
Proof.
  cbv zeta.
  match goal with
  | |- ?h /\ _ => assert (D : h) by (vm_compute; reflexivity)
  end.
  split; [exact D|].
  exact (load_of_dump_second_listing sample_crypto "Correct-Horse9!" "Correct-Horse9!"
           sample_salt sample_iv [CallSet "0" "hunter2"] _ _ _ eq_refl D).
Defined.

(** ** What [load] of the second listing reads *)

(** The elements of an array, read one after the other up to the closing
    bracket, when [inner] reads the text of each. *)
Lemma elements_read_texts (inner : list ascii -> JSON.Parsed JS.JSValue)
  (ts : list string) :
  forall (t0 : string) (v0 : JS.JSValue) (vs : list JS.JSValue)
         (fuel : nat) (i : N) (acc : JS.Props) (rest : list ascii),
    List.length ts < fuel ->
    Forall2 (fun t v => forall r, inner (list_ascii_of_string t ++ r)%list = JSON.POk v r)
      (t0 :: ts) (v0 :: vs) ->
    JSON.parse_elements inner fuel i acc
      (list_ascii_of_string (JSON.join "," (t0 :: ts)) ++ "]"%char :: rest)%list
    = JSON.POk
        (JS.JArr (i + N.of_nat (S (List.length ts)))
           (acc ++ numbered i (v0 :: vs))) rest.
Proof.
  induction ts as [|t1 ts IH]; intros t0 v0 vs fuel i acc rest Hf Hv;
    (destruct fuel as [|fuel]; [cbn in Hf; lia|]);
    inversion Hv as [|? ? ? ? H0 Hv']; subst.
  - inversion Hv'; subst.
    cbn [JSON.join]. cbn [JSON.parse_elements]. rewrite H0. reflexivity.
  - destruct vs as [|v1 vs]; [inversion Hv'|].
    rewrite join_cons2. rewrite !list_ascii_of_string_app.
    rewrite <- !app_assoc. cbn [JSON.parse_elements]. rewrite H0.
    cbn [list_ascii_of_string app].
    change (JSON.skip_ws (","%char :: ?x)) with (","%char :: x).
    cbv beta iota.
    change (N_of_ascii "," =? 44)%N with true. cbv iota.
    rewrite (IH t1 v1 vs) by (auto; cbn in Hf; lia).
    cbn [numbered List.length]. rewrite <- app_assoc. cbn [app].
    f_equal. f_equal. lia.
Qed.

Lemma parse_layout2 (salt iv : string) (os : list (option string)) :
  JSON.parse (elements_text [JSON.quote salt; JSON.quote iv; array_text os])
  = Returns (JS.JArr 3 [ ("0", JS.JStr salt); ("1", JS.JStr iv);
                         ("2", array_value os) ]).
Proof.
  set (n := List.length os).
  apply (parse_of_reads (S (S (S (S n))))).
  - intros f rest Hf. unfold elements_text.
    rewrite !list_ascii_of_string_app. cbn [list_ascii_of_string app].
    rewrite <- app_assoc. cbn [app].
    destruct f as [|f]; [lia|].
    assert (Hq : exists r', list_ascii_of_string
                              (JSON.join "," [JSON.quote salt; JSON.quote iv;
                                              array_text os])
                            = JSON.dquote :: r').
    { rewrite join_cons2, list_ascii_of_string_app.
      unfold JSON.quote at 1, JSON.quote_chars.
      rewrite list_ascii_of_string_of_list_ascii. cbn [app]. eauto. }
    destruct Hq as [r' Hq].
    pose proof (elements_read_texts (JSON.parse_value (S f))
                  [JSON.quote iv; array_text os] (JSON.quote salt)
                  (JS.JStr salt) [JS.JStr iv; array_value os] (S f) 0 [] rest) as E.
    rewrite Hq in *. cbn [app] in *.
    rewrite (value_array_step (S f) JSON.dquote _ eq_refl eq_refl).
    apply E; [cbn; lia|].
    repeat constructor; intros r.
    + apply reads_quote. lia.
    + apply reads_quote. lia.
    + apply reads_array. fold n. lia.
  - unfold elements_text. rewrite !join_cons2.
    rewrite !list_ascii_of_string_app, !length_app. cbn [JSON.join].
    pose proof (length_array_text os) as L. fold n in L.
    unfold JSON.quote, JSON.quote_chars.
    rewrite !list_ascii_of_string_of_list_ascii. cbn [list_ascii_of_string List.length].
    lia.
Qed.

(** X13.  Second listing, the layout that [load] reads.  Given the array
    of a text and a checksum, where the text is that of the array of the
    salt and the initialisation vector in Base64 and of an array of strings,
    [load] returns the store with these bytes and that array when the trusted
    checksum is the one given beside the text (it computes none), and throws
    "Data integrity check failed" when it is another string or is left
    out. *)
Theorem load_reads_its_layout_second_listing :
  forall (pw : string) (salt iv : bytes) (os : list (option string))
         (c : string) (t : option string),
    Keychain2.load pw (pair_of (layout2 salt iv os) c) t
    = match t with
      | Some c' =>
          if (c =? c')%string
          then Returns {| Keychain2.password := pw; Keychain2.salt := salt;
                          Keychain2.iv := iv; Keychain2.data := array_value os |}
          else Throws (JsError "Data integrity check failed")
      | None => Throws (JsError "Data integrity check failed")
      end.
Proof.
  intros. unfold Keychain2.load, pair_of. cbn [Index JS.GetV].
  change (JS.N_to_string 0) with "0". change (JS.N_to_string 1) with "1".
  cbn [JS.lookup String.eqb Ascii.eqb Bool.eqb bind].
  destruct t as [c'|]; cbn [optional JS.strict_equal]; [|reflexivity].
  destruct (c =? c')%string; cbn [negb]; [|reflexivity].
  unfold JSON_parse, layout2. cbn [ToString]. rewrite parse_layout2.
  cbn [bind destructure3]. unfold array_element.
  change (JS.N_to_string 0) with "0". change (JS.N_to_string 1) with "1".
  change (JS.N_to_string 2) with "2".
  cbn [N.ltb N.compare Pos.compare Pos.compare_cont JS.lookup String.eqb Ascii.eqb
       Bool.eqb].
  unfold Buffer_from. now rewrite !base64_decode_encode.
Qed.

(** Such a text, for the sample bytes and two records. *)
Example layout2_text :
  layout2 sample_salt sample_iv [Some "hunter2"; None; Some "p@ssw0rd"]
  = JSON.q "['MDEyMzQ1Njc4OWFiY2RlZg==','ZmVkY2JhOTg3NjU0MzIxMA==',['hunter2',null,'p@ssw0rd']]".
Proof. vm_compute. reflexivity. Qed.
(** ** The record operations of the second listing *)

(** X14.  Second listing, the record operations.  On a store whose
    container is an array or an object: [get(name)] after [set(name, value)]
    returns [value], for every name other than [length] and [__proto__] and
    every secret that is not empty; [get(other)] returns after the [set] what
    it returned before, for every other name but [length]; and when the
    prototype chain of arrays does not know the name, [remove(name)] then
    answers [true], after which [get(name)] returns [null] and a second
    [remove(name)] answers [false]. *)
Theorem record_operations_second_listing (k : Keychain2.Keychain)
  (name value other : string) :
  container (Keychain2.data k) = true ->
  (name =? "length")%string = false ->
  (name =? "__proto__")%string = false ->
  (value =? "")%string = false ->
  let k1 := snd (Keychain2.set name value k) in
  let k2 := snd (Keychain2.remove name k1) in
  fst (Keychain2.set name value k) = Returns tt
  /\ fst (Keychain2.get name k1) = Returns (JS.JStr value)
  /\ ((name =? other)%string = false -> (other =? "length")%string = false ->
      fst (Keychain2.get other k1) = fst (Keychain2.get other k))
  /\ (JS.inherited JS.array_chain name = JS.JUndefined ->
      fst (Keychain2.remove name k1) = Returns true
      /\ fst (Keychain2.get name k2) = Returns JS.JNull
      /\ Keychain2.remove name k2 = (Returns false, k2)).
Proof.
  intros C L P V. cbv zeta.
  destruct (GetV_PutV _ name value C L P) as (d' & Hp & C' & Hg).
  assert (S : Keychain2.set name value k = (Returns tt, Keychain2.with_data k d'))
    by (unfold Keychain2.set; now rewrite Hp).
  rewrite S. cbn [fst snd].
  split; [reflexivity|].
  split.
  { unfold Keychain2.get. cbn [Keychain2.with_data Keychain2.data].
    rewrite Hg. cbn [fst JS.truthy]. now rewrite V. }
  split.
  - intros D O.
    destruct (GetV_PutV_other _ name value other C L D O) as (d2 & Hp2 & Hg2).
    rewrite Hp in Hp2. injection Hp2 as <-.
    unfold Keychain2.get. cbn [Keychain2.with_data Keychain2.data].
    rewrite Hg2. destruct (JS.GetV (Keychain2.data k) other); reflexivity.
  - intros I.
    destruct (DeleteV_own d' name value C' Hg I L) as (d'' & Hd & Hu).
    assert (R : Keychain2.remove name (Keychain2.with_data k d')
                = (Returns true,
                   Keychain2.with_data (Keychain2.with_data k d') d'')).
    { unfold Keychain2.remove. cbn [Keychain2.with_data Keychain2.data].
      rewrite Hg. cbn [JS.truthy]. rewrite V. cbn [negb]. now rewrite Hd. }
    rewrite R. cbn [fst snd]. split; [reflexivity|].
    unfold Keychain2.get, Keychain2.remove.
    cbn [Keychain2.with_data Keychain2.data].
    rewrite Hu. cbn [JS.truthy fst]. auto.
Qed.

Lemma record_operations_second_listing_witness :
  let k := Keychain2.init "Correct-Horse9!" sample_salt sample_iv in
  let k0 := snd (Keychain2.set "other.com" "hunter2" k) in
  let k1 := snd (Keychain2.set "example.com" "p@ssw0rd" k0) in
  let k2 := snd (Keychain2.remove "example.com" k1) in
  fst (Keychain2.set "example.com" "p@ssw0rd" k0) = Returns tt
  /\ fst (Keychain2.get "example.com" k1) = Returns (JS.JStr "p@ssw0rd")
  /\ fst (Keychain2.get "other.com" k1) = fst (Keychain2.get "other.com" k0)
  /\ fst (Keychain2.remove "example.com" k1) = Returns true
  /\ fst (Keychain2.get "example.com" k2) = Returns JS.JNull
  /\ Keychain2.remove "example.com" k2 = (Returns false, k2).
Proof.
  cbv zeta.
  destruct (record_operations_second_listing
              (snd (Keychain2.set "other.com" "hunter2"
                      (Keychain2.init "Correct-Horse9!" sample_salt sample_iv)))
              "example.com" "p@ssw0rd" "other.com" eq_refl eq_refl eq_refl eq_refl)
    as (A & B & C & D).
  split; [exact A|]. split; [exact B|]. split; [exact (C eq_refl eq_refl)|].
  exact (D eq_refl).
Defined.

(** ** What [dump] of the second listing writes and prints *)

Lemma prefix_append (n b : string) : String.prefix n (n ++ b) = true.
Proof.
  induction n as [|c n IH]; cbn; [now destruct b|].
  destruct (ascii_dec c c); [exact IH|contradiction].
Qed.

Lemma infix_step (n : string) (c : ascii) (h : string) :
  infix_of n (String c h) = (String.prefix n (String c h) || infix_of n h)%bool.
Proof. reflexivity. Qed.

Lemma infix_here (n b : string) : infix_of n (n ++ b) = true.
Proof.
  destruct (n ++ b) eqn:E.
  - destruct n; [reflexivity|discriminate E].
  - rewrite infix_step, <- E, prefix_append. reflexivity.
Qed.

(** What stands in a text occurs in it. *)
Lemma occurs_infix (n h : string) : occurs n h -> infix_of n h = true.
Proof.
  intros (a & b & ->). induction a as [|c a IH]; cbn [String.append].
  - apply infix_here.
  - rewrite infix_step, IH. apply orb_true_r.
Qed.

Lemma occurs_refl (n : string) : occurs n n.
Proof.
  exists "", "". cbn. induction n as [|c n IH]; cbn; congruence.
Qed.

Lemma occurs_within (n h x y : string) : occurs n h -> occurs n (x ++ h ++ y).
Proof.
  intros (a & b & ->). exists (x ++ a), (b ++ y).
  now rewrite !append_assoc.
Qed.

Lemma occurs_after (n h x : string) : occurs n h -> occurs n (x ++ h).
Proof.
  intros (a & b & ->). exists (x ++ a), b. now rewrite !append_assoc.
Qed.

Lemma occurs_join (t : string) (ts : list string) :
  In t ts -> occurs t (JSON.join "," ts).
Proof.
  induction ts as [|x ts IH]; [destruct 1|].
  intros [->|H].
  - destruct ts as [|y ts]; [apply occurs_refl|].
    rewrite join_cons2. exists "", ("," ++ JSON.join "," (y :: ts)). reflexivity.
  - destruct ts as [|y ts]; [destruct H|].
    rewrite join_cons2. apply occurs_after, occurs_after. now apply IH.
Qed.

Lemma occurs_trans (a b c : string) : occurs a b -> occurs b c -> occurs a c.
Proof.
  intros (x & y & ->) (u & v & ->). exists (u ++ x), (y ++ v).
  now rewrite !append_assoc.
Qed.

(** A plain string stands in its JSON text. *)
Lemma occurs_quoted (s : string) : plain s = true -> occurs s (JSON.quote s).
Proof. intros P. rewrite (quote_plain s P). eexists. eexists. reflexivity. Qed.

Lemma indices_In (len i : N) : (i < len)%N -> In i (JSON.indices len).
Proof.
  intros H. unfold JSON.indices. apply in_map_iff. exists (N.to_nat i).
  split; [apply N2Nat.id|]. apply in_seq. lia.
Qed.

(** *** Index names lie below the length *)

Lemma below_mono (n m : N) (p : string * JS.JSValue) :
  (n <= m)%N -> JS.below n p = true -> JS.below m p = true.
Proof.
  unfold JS.below. destruct (JS.array_index (fst p)); [|auto].
  intros L H. apply N.ltb_lt in H. apply N.ltb_lt. lia.
Qed.

Lemma forallb_upsert (P : string * JS.JSValue -> bool) (k : string)
  (v : JS.JSValue) (ps : JS.Props) :
  (forall a x y, P (a, x) = P (a, y)) ->
  P (k, v) = true -> forallb P ps = true ->
  forallb P (JS.upsert k v ps) = true.
Proof.
  intros Hp Hk. induction ps as [|[a x] r IH]; cbn; [now rewrite Hk|].
  intros H. apply andb_prop in H as [Hx Hr].
  destruct (a =? k)%string; cbn.
  - now rewrite (Hp a v x), Hx, Hr.
  - now rewrite Hx, IH.
Qed.

Lemma forallb_erase (P : string * JS.JSValue -> bool) (k : string) (ps : JS.Props) :
  forallb P ps = true -> forallb P (JS.erase k ps) = true.
Proof.
  induction ps as [|[a x] r IH]; cbn; [reflexivity|].
  intros H. apply andb_prop in H as [Hx Hr].
  destruct (a =? k)%string; cbn; [|rewrite Hx]; auto.
Qed.

Lemma forallb_filter_same {A : Type} (P : A -> bool) (l : list A) :
  forallb P (filter P l) = true.
Proof.
  induction l as [|a l IH]; [reflexivity|]. cbn.
  destruct (P a) eqn:E; cbn; [rewrite E|]; exact IH.
Qed.

Lemma forallb_lookup (P : string * JS.JSValue -> bool) (k : string)
  (v : JS.JSValue) (ps : JS.Props) :
  forallb P ps = true -> JS.lookup k ps = Some v -> P (k, v) = true.
Proof.
  induction ps as [|[a x] r IH]; cbn; [discriminate 2|].
  intros H L. apply andb_prop in H as [Hx Hr].
  destruct (a =? k)%string eqn:E; [|auto].
  apply String.eqb_eq in E. subst a. now injection L as <-.
Qed.

Lemma PutV_below (d : JS.JSValue) (name value : string) :
  indexed_below d = true ->
  match JS.PutV d name value with
  | Returns d' => indexed_below d' = true
  | _ => True
  end.
Proof.
  destruct d as [| | | | |len props| |]; try discriminate. cbn [indexed_below].
  intros H. cbn [JS.PutV].
  assert (E : forall n a x y, JS.below n (a, x) = JS.below n (a, y)) by reflexivity.
  destruct (JS.lookup name props) as [old|] eqn:Own.
  - cbn [indexed_below]. apply forallb_upsert; auto.
    rewrite (E len name _ old). eapply forallb_lookup; eauto.
  - destruct (name =? "length")%string.
    + destruct (JS.array_length_of_string value); auto.
      cbn [indexed_below]. apply forallb_filter_same.
    + destruct (name =? "__proto__")%string; [exact H|].
      destruct (JS.array_index name) as [i|] eqn:I; cbn [indexed_below].
      * apply forallb_upsert; auto.
        -- unfold JS.below. cbn [fst]. rewrite I. apply N.ltb_lt. lia.
        -- apply forallb_forall. intros p Hp.
           apply (below_mono len); [lia|].
           revert p Hp. now apply forallb_forall.
      * apply forallb_upsert; auto. unfold JS.below. cbn [fst]. now rewrite I.
Qed.

Lemma DeleteV_below (d : JS.JSValue) (name : string) :
  indexed_below d = true ->
  match JS.DeleteV d name with
  | Returns d' => indexed_below d' = true
  | _ => True
  end.
Proof.
  destruct d as [| | | | |len props| |]; try discriminate. cbn [indexed_below].
  intros H. cbn [JS.DeleteV].
  destruct (JS.lookup name props).
  - cbn [indexed_below]. now apply forallb_erase.
  - destruct (name =? "length")%string; auto.
Qed.

Lemma run2_below (cs : list Call) :
  forall k k' : Keychain2.Keychain,
    indexed_below (Keychain2.data k) = true ->
    Run2.run cs k = Some k' ->
    indexed_below (Keychain2.data k') = true.
Proof.
  induction cs as [|c cs IH]; intros k k' H R; cbn in R.
  - now injection R as <-.
  - assert (H' : indexed_below (Keychain2.data (snd (Run2.exec c k))) = true).
    { destruct c as [name|name value|name]; cbn [Run2.exec void snd].
      - unfold Keychain2.get. now destruct (JS.GetV _ _).
      - unfold Keychain2.set. pose proof (PutV_below _ name value H) as P.
        now destruct (JS.PutV _ _ _).
      - unfold Keychain2.remove. destruct (JS.GetV _ _) as [v| |]; auto.
        destruct (JS.truthy v); auto.
        pose proof (DeleteV_below _ name H) as P.
        now destruct (JS.DeleteV _ _). }
    destruct (Run2.exec c k) as [[u|e|] k1]; try discriminate; eauto.
Qed.

(** X15.  Second listing, [dump] prints what it returns.  For a store that
    [init] created, after any calls, when [dump] returns a text and a
    checksum: the checksum is the SHA-256 digest of the text in Base64, and
    both were written to the console, in two lines.  Every secret that [get]
    returns under an index name stands in the first line as a JSON string,
    and as it is when it holds no quote, backslash or control character. *)
Theorem dump_second_listing (crypto : NodeCrypto) (pw : string) (rs ri : bytes)
  (cs : list Call) (k : Keychain2.Keychain) (blob checksum : string)
  (lines : list string) :
  Run2.run cs (Keychain2.init pw rs ri) = Some k ->
  Keychain2.dump crypto k = (Returns (blob, checksum), lines) ->
  lines = [ "dump serializedData: " ++ blob; "dump checksum: " ++ checksum ]
  /\ checksum = Base64.encode (sha256 crypto (list_ascii_of_string blob))
  /\ forall (name secret : string) (i : N),
       JS.array_index name = Some i ->
       fst (Keychain2.get name k) = Returns (JS.JStr secret) ->
       infix_of (JSON.quote secret) ("dump serializedData: " ++ blob) = true
       /\ (plain secret = true ->
           infix_of secret ("dump serializedData: " ++ blob) = true).
Proof.
  intros R Hd.
  assert (K : kept_array (Keychain2.data k) = true)
    by (eapply run2_kept; [|exact R]; reflexivity).
  assert (B : indexed_below (Keychain2.data k) = true)
    by (eapply run2_below; [|exact R]; reflexivity).
  apply kept_array_spec in K as (len & props & D & S & _ & NL).
  rewrite D in B. cbn [indexed_below] in B.
  unfold Keychain2.dump in Hd.
  rewrite serialize2_layout, D, (stringify_strings _ _ S) in Hd.
  injection Hd as <- <- <-.
  split; [reflexivity|]. split; [reflexivity|].
  intros name secret i I G.
  destruct (index_not_inherited _ _ I) as (U & L & _).
  unfold Keychain2.get in G. rewrite D in G. cbn [JS.GetV] in G.
  destruct (JS.lookup name props) as [v|] eqn:Own;
    [|rewrite L, U in G; discriminate G].
  assert (v = JS.JStr secret) as ->.
  { cbn [fst] in G. destruct (JS.truthy v); [now injection G|discriminate G]. }
  pose proof (forallb_lookup _ _ _ _ B Own) as Bi.
  unfold JS.below in Bi. cbn [fst] in Bi. rewrite I in Bi. apply N.ltb_lt in Bi.
  destruct (array_index_name _ _ I) as [-> _].
  assert (O : occurs (JSON.quote secret)
                ("dump serializedData: "
                 ++ object_text
                      [ ("salt", JSON.quote (Base64.encode (Keychain2.salt k)));
                        ("iv", JSON.quote (Base64.encode (Keychain2.iv k)));
                        ("data", array_text (map (slot props) (JSON.indices len))) ])).
  { apply occurs_after. unfold object_text. apply occurs_within.
    eapply occurs_trans; [|apply occurs_join; right; right; left; reflexivity].
    unfold member_text. cbn [fst snd]. apply occurs_after, occurs_after.
    unfold array_text. apply occurs_within. apply occurs_join.
    apply in_map_iff. exists (Some secret). split; [reflexivity|].
    apply in_map_iff. exists i. split; [|now apply indices_In].
    unfold slot. now rewrite Own. }
  split; [now apply occurs_infix|].
  intros P. apply occurs_infix. eapply occurs_trans; [|exact O].
  now apply occurs_quoted.
Qed.

Lemma dump_second_listing_witness :
  let k := snd (Keychain2.set "0" "hunter2"
                  (Keychain2.init "Correct-Horse9!" sample_salt sample_iv)) in
  let blob :=
    JSON.q "{'salt':'MDEyMzQ1Njc4OWFiY2RlZg==','iv':'ZmVkY2JhOTg3NjU0MzIxMA==','data':['hunter2']}" in
  let checksum := Base64.encode (repeat Ascii.zero 32) in
  let lines := [ "dump serializedData: " ++ blob; "dump checksum: " ++ checksum ] in
  Keychain2.dump sample_crypto k = (Returns (blob, checksum), lines)
  /\ fst (Keychain2.get "0" k) = Returns (JS.JStr "hunter2")
  /\ infix_of "hunter2" ("dump serializedData: " ++ blob) = true.
Proof.
  cbv zeta.
  match goal with
  | |- ?h /\ _ => assert (D : h) by (vm_compute; reflexivity)
  end.
  split; [exact D|]. split; [reflexivity|].
  destruct (dump_second_listing sample_crypto "Correct-Horse9!" sample_salt sample_iv
              [CallSet "0" "hunter2"] _ _ _ _ eq_refl D) as (_ & _ & H).
  exact (proj2 (H "0" "hunter2" 0%N eq_refl eq_refl) eq_refl).
Defined.

(** ** The record operations of the third listing *)

Lemma base64_injective (a b : bytes) :
  Base64.encode a = Base64.encode b -> a = b.
Proof.
  intros H. apply (f_equal Base64.decode) in H.
  rewrite !base64_decode_encode in H. now injection H.
Qed.

Lemma list_ascii_injective (a b : string) :
  list_ascii_of_string a = list_ascii_of_string b -> a = b.
Proof.
  intros H. apply (f_equal string_of_list_ascii) in H.
  now rewrite !string_of_list_ascii_of_string in H.
Qed.

(** Two names have the same key only when they are the same name. *)
Lemma key3_injective (name other : string) :
  name <> other ->
  (Keychain3.encodeBuffer (Keychain3.stringToBuffer name)
   =? Keychain3.encodeBuffer (Keychain3.stringToBuffer other))%string = false.
Proof.
  intros D. destruct (_ =? _)%string eqn:E; [|reflexivity].
  apply String.eqb_eq in E. apply base64_injective, list_ascii_injective in E.
  contradiction.
Qed.

(** The key of a UTF-8 name is no name of [Object.prototype]. *)
Lemma key3_not_inherited (name : string) :
  starts_a_character name = true ->
  JS.inherited JS.object_chain
    (Keychain3.encodeBuffer (Keychain3.stringToBuffer name)) = JS.JUndefined.
Proof.
  intros W. unfold Keychain3.encodeBuffer, Keychain3.stringToBuffer.
  cbn [JS.inherited JS.object_chain].
  destruct (JS.mem _ JS.Object_prototype) eqn:M; [|reflexivity].
  apply mem_In in M. cbv [JS.Object_prototype In] in M.
  repeat (destruct M as [M|M];
          [ apply (f_equal Base64.decode) in M;
            rewrite base64_decode_encode in M; vm_compute in M;
            try discriminate M;
            injection M as M; apply (f_equal string_of_list_ascii) in M;
            rewrite string_of_list_ascii_of_string in M; subst name;
            discriminate W | ]).
  destruct M.
Qed.

Lemma obj_get_put_other (props : JS.Props) (k k' value : string) :
  (k =? k')%string = false ->
  JS.obj_get (JS.obj_put props k value) k' = JS.obj_get props k'.
Proof.
  intros D. unfold JS.obj_get, JS.obj_put.
  destruct (JS.lookup k props); [|destruct (k =? "__proto__")%string];
    now rewrite ?lookup_upsert_other by exact D.
Qed.

(** X16.  Third listing, [set] then [get]: on every store, for every name
    and every secret, the empty one included, [set(name, value)] returns and
    [get(name)] then returns [value]; a second [set] under the same name
    replaces the secret. *)
Theorem set_then_get_third_listing :
  forall (k : Keychain3.Keychain) (name value value' : string),
    fst (Keychain3.set name value k) = Returns tt
    /\ fst (Keychain3.get name (snd (Keychain3.set name value k)))
       = Returns (JS.JStr value)
    /\ fst (Keychain3.get name
              (snd (Keychain3.set name value' (snd (Keychain3.set name value k)))))
       = Returns (JS.JStr value').
Proof.
  intros. split; [reflexivity|]. split; apply get3_after_set.
Qed.

(** X17.  Third listing, [set] and [remove] leave the other records alone:
    after [set(name, value)] and after [remove(name)], [get(other)] returns
    what it returned before, for every other name. *)
Theorem other_records_untouched_third_listing (k : Keychain3.Keychain)
  (name value other : string) :
  name <> other ->
  fst (Keychain3.get other (snd (Keychain3.set name value k)))
  = fst (Keychain3.get other k)
  /\ fst (Keychain3.get other (snd (Keychain3.remove name k)))
     = fst (Keychain3.get other k).
Proof.
  intros D. pose proof (key3_injective name other D) as E. split.
  - unfold Keychain3.get, Keychain3.set.
    cbn [snd Keychain3.with_data Keychain3.data].
    rewrite (obj_get_put_other _ _ _ _ E).
    now destruct (negb _).
  - unfold Keychain3.remove.
    destruct (negb (JS.strict_equal (JS.obj_get (Keychain3.data k) _) JS.JUndefined));
      [|reflexivity].
    unfold Keychain3.get. cbn [snd Keychain3.with_data Keychain3.data].
    unfold JS.obj_get, JS.obj_delete. rewrite (lookup_erase_other _ _ _ E).
    now destruct (negb _).
Qed.

Lemma other_records_untouched_third_listing_witness :
  let k := snd (Keychain3.set "example.com" "p@ssw0rd"
                  {| Keychain3.data := []; Keychain3.secrets := [];
                     Keychain3.salt := Keychain3.Buf sample_salt;
                     Keychain3.iv := Keychain3.Buf sample_iv;
                     Keychain3.key := [] |}) in
  fst (Keychain3.get "example.com" k) = Returns (JS.JStr "p@ssw0rd")
  /\ fst (Keychain3.get "example.com" (snd (Keychain3.set "other.com" "hunter2" k)))
     = fst (Keychain3.get "example.com" k)
  /\ fst (Keychain3.get "example.com" (snd (Keychain3.remove "other.com" k)))
     = fst (Keychain3.get "example.com" k).
Proof.
  cbv zeta. split; [reflexivity|].
  apply (other_records_untouched_third_listing _ "other.com" "hunter2" "example.com").
  discriminate.
Defined.

(** X18.  Third listing, [remove]: for every store and every name (a UTF-8
    text), [remove(name)] answers [false] and leaves the store as it is when
    [get(name)] returns [null]; otherwise it answers [true], [get(name)]
    returns [null] afterwards and a second [remove(name)] answers [false]. *)
Theorem remove_third_listing (k : Keychain3.Keychain) (name : string) :
  starts_a_character name = true ->
  let k' := snd (Keychain3.remove name k) in
  match fst (Keychain3.get name k) with
  | Returns JS.JNull => Keychain3.remove name k = (Returns false, k)
  | _ =>
      fst (Keychain3.remove name k) = Returns true
      /\ Keychain3.get name k' = (Returns JS.JNull, k')
      /\ Keychain3.remove name k' = (Returns false, k')
  end.
Proof.
  intros W. pose proof (key3_not_inherited name W) as I.
  set (n := Keychain3.encodeBuffer (Keychain3.stringToBuffer name)) in *.
  assert (A : JS.obj_get (JS.obj_delete (Keychain3.data k) n) n = JS.JUndefined).
  { unfold JS.obj_get, JS.obj_delete. now rewrite lookup_erase. }
  destruct (JS.strict_equal (JS.obj_get (Keychain3.data k) n) JS.JUndefined) eqn:E.
  - unfold Keychain3.get, Keychain3.remove. fold n. rewrite E. reflexivity.
  - assert (R : Keychain3.remove name k
                = (Returns true,
                   Keychain3.with_data k (JS.obj_delete (Keychain3.data k) n))).
    { unfold Keychain3.remove. fold n. now rewrite E. }
    rewrite R. cbn [fst snd].
    assert (T : Returns true = Returns true
                /\ Keychain3.get name
                     (Keychain3.with_data k (JS.obj_delete (Keychain3.data k) n))
                   = (Returns JS.JNull,
                      Keychain3.with_data k (JS.obj_delete (Keychain3.data k) n))
                /\ Keychain3.remove name
                     (Keychain3.with_data k (JS.obj_delete (Keychain3.data k) n))
                   = (Returns false,
                      Keychain3.with_data k (JS.obj_delete (Keychain3.data k) n))).
    { unfold Keychain3.remove, Keychain3.get. fold n.
      cbn [Keychain3.with_data Keychain3.data]. rewrite A. auto. }
    unfold Keychain3.get at 1. fold n. rewrite E. cbn [negb fst].
    destruct (Keychain3.decodeBuffer (JS.obj_get (Keychain3.data k) n));
      cbn [bind]; exact T.
Qed.

Lemma remove_third_listing_witness :
  let k := snd (Keychain3.set "example.com" "p@ssw0rd"
                  {| Keychain3.data := []; Keychain3.secrets := [];
                     Keychain3.salt := Keychain3.Buf sample_salt;
                     Keychain3.iv := Keychain3.Buf sample_iv;
                     Keychain3.key := [] |}) in
  let k' := snd (Keychain3.remove "example.com" k) in
  fst (Keychain3.get "example.com" k) = Returns (JS.JStr "p@ssw0rd")
  /\ fst (Keychain3.remove "example.com" k) = Returns true
  /\ Keychain3.get "example.com" k' = (Returns JS.JNull, k')
  /\ Keychain3.remove "example.com" k' = (Returns false, k').
Proof.
  cbv zeta. split; [reflexivity|].
  apply (remove_third_listing
           (snd (Keychain3.set "example.com" "p@ssw0rd"
                   {| Keychain3.data := []; Keychain3.secrets := [];
                      Keychain3.salt := Keychain3.Buf sample_salt;
                      Keychain3.iv := Keychain3.Buf sample_iv;
                      Keychain3.key := [] |}))
           "example.com" eq_refl).
Defined.

(** ** Stores of the third listing *)

Lemma init3_store (crypto : NodeCrypto) (pw : string) (rs ri : bytes) :
  Keychain3.init crypto pw rs ri
  = if (utf16_length pw <=? 64)%N
    then Returns {| Keychain3.data := []; Keychain3.secrets := [];
                    Keychain3.salt := Keychain3.Buf rs;
                    Keychain3.iv := Keychain3.Buf ri;
                    Keychain3.key :=
                      pbkdf2_sha256 crypto (list_ascii_of_string pw) rs 100000 32 |}
    else Throws (JsError "Password length exceeds the maximum allowed length").
Proof.
  unfold Keychain3.init, Keychain3.MAX_PASSWORD_LENGTH.
  destruct (N.ltb_spec 64 (utf16_length pw)), (N.leb_spec (utf16_length pw) 64);
    try lia; reflexivity.
Qed.

(** X19.  Third listing, [init]: it returns a store exactly when the
    password has at most 64 UTF-16 code units, and throws "Password length
    exceeds the maximum allowed length" otherwise.  The store holds the two
    random values, the key that PBKDF2 derives from the password and the salt
    (100000 iterations, 32 bytes) and no record: [get] returns [null] and
    [remove] answers [false] for every name, [constructor] and the other
    names of [Object.prototype] included. *)
Theorem init_third_listing (crypto : NodeCrypto) (pw : string) (rs ri : bytes)
  (name : string) :
  starts_a_character name = true ->
  if (utf16_length pw <=? 64)%N then
    exists k : Keychain3.Keychain,
      Keychain3.init crypto pw rs ri = Returns k
      /\ Keychain3.salt k = Keychain3.Buf rs /\ Keychain3.iv k = Keychain3.Buf ri
      /\ Keychain3.key k
         = pbkdf2_sha256 crypto (list_ascii_of_string pw) rs 100000 32
      /\ Keychain3.get name k = (Returns JS.JNull, k)
      /\ Keychain3.remove name k = (Returns false, k)
  else
    Keychain3.init crypto pw rs ri
    = Throws (JsError "Password length exceeds the maximum allowed length").
Proof.
  intros W. rewrite init3_store.
  destruct (utf16_length pw <=? 64)%N; [|reflexivity].
  eexists. split; [reflexivity|]. cbn [Keychain3.salt Keychain3.iv Keychain3.key].
  repeat (split; [reflexivity|]).
  pose proof (key3_not_inherited name W) as I.
  unfold Keychain3.get, Keychain3.remove. cbn [Keychain3.data].
  unfold JS.obj_get. cbn [JS.lookup]. rewrite I. split; reflexivity.
Qed.

Lemma init_third_listing_witness :
  (exists k : Keychain3.Keychain,
     Keychain3.init sample_crypto "Correct-Horse9!" sample_salt sample_iv = Returns k
     /\ Keychain3.salt k = Keychain3.Buf sample_salt
     /\ Keychain3.iv k = Keychain3.Buf sample_iv
     /\ Keychain3.key k
        = pbkdf2_sha256 sample_crypto (list_ascii_of_string "Correct-Horse9!")
            sample_salt 100000 32
     /\ Keychain3.get "constructor" k = (Returns JS.JNull, k)
     /\ Keychain3.remove "constructor" k = (Returns false, k))
  /\ Keychain3.init sample_crypto
       "0123456789012345678901234567890123456789012345678901234567890123x"
       sample_salt sample_iv
     = Throws (JsError "Password length exceeds the maximum allowed length").
Proof.
  split.
  - apply (init_third_listing sample_crypto "Correct-Horse9!" sample_salt sample_iv
             "constructor" eq_refl).
  - apply (init_third_listing sample_crypto
             "0123456789012345678901234567890123456789012345678901234567890123x"
             sample_salt sample_iv "constructor" eq_refl).
Defined.

Lemma encoded_cons (a : string) (x : JS.JSValue) (r : JS.Props) :
  encoded ((a, x) :: r)
  = (match x with
     | JS.JStr s => match Base64.decode s with Some _ => true | None => false end
     | _ => false
     end && encoded r)%bool.
Proof. reflexivity. Qed.

Lemma encoded_lookup (props : JS.Props) (k : string) (v : JS.JSValue) :
  encoded props = true -> JS.lookup k props = Some v ->
  exists s b, v = JS.JStr s /\ Base64.decode s = Some b.
Proof.
  induction props as [|[a x] r IH]; [discriminate 2|].
  rewrite encoded_cons. cbn [JS.lookup].
  intros H L. apply andb_prop in H as [Hx Hr].
  destruct (a =? k)%string; [|now apply IH].
  injection L as <-. destruct x as [| |?|?|s|? ?|?|?]; try discriminate Hx.
  destruct (Base64.decode s) as [b|] eqn:D; [|discriminate Hx]. eauto.
Qed.

Lemma encoded_upsert (props : JS.Props) (k : string) (b : bytes) :
  encoded props = true ->
  encoded (JS.upsert k (JS.JStr (Base64.encode b)) props) = true.
Proof.
  induction props as [|[a x] r IH]; cbn [JS.upsert].
  - intros _. rewrite encoded_cons. now rewrite base64_decode_encode.
  - rewrite encoded_cons. intros H. apply andb_prop in H as [Hx Hr].
    destruct (a =? k)%string; rewrite encoded_cons.
    + now rewrite base64_decode_encode, Hr.
    + now rewrite Hx, IH.
Qed.

Lemma encoded_erase (props : JS.Props) (k : string) :
  encoded props = true -> encoded (JS.erase k props) = true.
Proof.
  induction props as [|[a x] r IH]; cbn [JS.erase]; [reflexivity|].
  rewrite encoded_cons. intros H. apply andb_prop in H as [Hx Hr].
  destruct (a =? k)%string; [|rewrite encoded_cons, Hx]; auto.
Qed.

(** On a container of Base64 texts [get] returns a string or [null]. *)
Lemma get3_on_encoded (k : Keychain3.Keychain) (name : string) :
  encoded (Keychain3.data k) = true ->
  starts_a_character name = true ->
  exists v, Keychain3.get name k = (Returns v, k)
            /\ string_or_null (Returns v) = true.
Proof.
  intros E W. pose proof (key3_not_inherited name W) as I.
  unfold Keychain3.get.
  set (n := Keychain3.encodeBuffer (Keychain3.stringToBuffer name)) in *.
  unfold JS.obj_get.
  destruct (JS.lookup n (Keychain3.data k)) as [v|] eqn:L.
  - destruct (encoded_lookup _ _ _ E L) as (s & b & -> & D).
    cbn [JS.strict_equal negb Keychain3.decodeBuffer Buffer_from].
    rewrite D. cbn [bind]. eexists. split; reflexivity.
  - rewrite I. cbn [JS.strict_equal negb]. eexists. split; reflexivity.
Qed.

Lemma exec3_encoded (c : Call) (k : Keychain3.Keychain) :
  encoded (Keychain3.data k) = true -> well_named c = true ->
  exists u, Run3.exec c k = (Returns u, snd (Run3.exec c k))
            /\ encoded (Keychain3.data (snd (Run3.exec c k))) = true
            /\ Keychain3.secrets (snd (Run3.exec c k)) = Keychain3.secrets k.
Proof.
  intros E W. destruct c as [name|name value|name]; cbn [Run3.exec well_named] in *.
  - destruct (get3_on_encoded k name E W) as (v & G & _).
    rewrite G. exists tt. cbn [void fst snd bind]. auto.
  - unfold Keychain3.set. cbn [void fst snd bind Keychain3.with_data
                                Keychain3.data Keychain3.secrets].
    exists tt. split; [reflexivity|]. split; [|reflexivity].
    unfold JS.obj_put, Keychain3.encodeBuffer.
    destruct (JS.lookup _ _); [|destruct (_ =? "__proto__")%string];
      auto using encoded_upsert.
  - unfold Keychain3.remove.
    destruct (negb _); cbn [void fst snd bind Keychain3.with_data
                              Keychain3.data Keychain3.secrets];
      exists tt; (split; [reflexivity|]); split; auto.
    now apply encoded_erase.
Qed.

Lemma run3_encoded (cs : list Call) :
  forall k : Keychain3.Keychain,
    encoded (Keychain3.data k) = true -> forallb well_named cs = true ->
    exists k', Run3.run cs k = Some k'
               /\ encoded (Keychain3.data k') = true
               /\ Keychain3.secrets k' = Keychain3.secrets k.
Proof.
  induction cs as [|c cs IH]; intros k E W.
  - exists k. auto.
  - cbn [forallb] in W. apply andb_prop in W as [Wc Wcs].
    destruct (exec3_encoded c k E Wc) as (u & X & E' & S').
    destruct (IH _ E' Wcs) as (k' & R & E'' & S'').
    exists k'. cbn [Run3.run]. rewrite X. repeat split; auto. congruence.
Qed.

(** X20.  Third listing, the record operations do not throw.  On a store
    that [init] returned, every sequence of [get], [set] and [remove] calls
    runs to its end and each of its calls returns; on the store it reaches,
    [get] leaves the store as it is and returns a string or [null] for every
    name, [secrets] is still empty and the key is the one that [init]
    derived. *)
Theorem record_operations_return_third_listing (crypto : NodeCrypto) (pw : string)
  (rs ri : bytes) (cs : list Call) (k0 : Keychain3.Keychain) :
  Keychain3.init crypto pw rs ri = Returns k0 ->
  forallb well_named cs = true ->
  (forall (before : list Call) (c : Call) (after : list Call),
      cs = (before ++ c :: after)%list ->
      exists (kb : Keychain3.Keychain) (u : unit),
        Run3.run before k0 = Some kb /\ fst (Run3.exec c kb) = Returns u)
  /\ exists k : Keychain3.Keychain,
       Run3.run cs k0 = Some k
       /\ Keychain3.secrets k = []
       /\ Keychain3.key k
          = pbkdf2_sha256 crypto (list_ascii_of_string pw) rs 100000 32
       /\ forall name : string,
            starts_a_character name = true ->
            snd (Keychain3.get name k) = k
            /\ string_or_null (fst (Keychain3.get name k)) = true.
Proof.
  intros I W. rewrite init3_store in I.
  destruct (utf16_length pw <=? 64)%N; [|discriminate I]. injection I as <-.
  split.
  - intros before c after ->. rewrite forallb_app in W.
    apply andb_prop in W as [Wb Wc]. cbn [forallb] in Wc.
    apply andb_prop in Wc as [Wc _].
    match goal with
    | |- context [Run3.run before ?k0] =>
        destruct (run3_encoded before k0 (eq_refl true) Wb) as (kb & R & E & _)
    end.
    destruct (exec3_encoded c kb E Wc) as (u & X & _).
    exists kb, u. split; [exact R|]. now rewrite X.
  - match goal with
    | |- context [Run3.run cs ?k0] =>
        destruct (run3_encoded cs k0 (eq_refl true) W) as (k & R & E & S)
    end.
    exists k. split; [exact R|]. split; [exact S|].
    destruct (run3_frame cs _ _ R) as (_ & _ & K). split; [exact K|].
    intros name Wn. destruct (get3_on_encoded k name E Wn) as (v & G & P).
    rewrite G. auto.
Qed.

Lemma record_operations_return_third_listing_witness :
  exists k : Keychain3.Keychain,
    Run3.run [CallSet "example.com" "p@ssw0rd"; CallGet "other.com";
              CallRemove "example.com"; CallSet "constructor" ""]
      {| Keychain3.data := []; Keychain3.secrets := [];
         Keychain3.salt := Keychain3.Buf sample_salt;
         Keychain3.iv := Keychain3.Buf sample_iv;
         Keychain3.key :=
           pbkdf2_sha256 sample_crypto (list_ascii_of_string "Correct-Horse9!")
             sample_salt 100000 32 |} = Some k
    /\ Keychain3.secrets k = []
    /\ Keychain3.key k
       = pbkdf2_sha256 sample_crypto (list_ascii_of_string "Correct-Horse9!")
           sample_salt 100000 32
    /\ forall name : string,
         starts_a_character name = true ->
         snd (Keychain3.get name k) = k
         /\ string_or_null (fst (Keychain3.get name k)) = true.
Proof.
  apply (record_operations_return_third_listing sample_crypto "Correct-Horse9!"
           sample_salt sample_iv
           [CallSet "example.com" "p@ssw0rd"; CallGet "other.com";
            CallRemove "example.com"; CallSet "constructor" ""] _ eq_refl eq_refl).
Defined.

(** ** Checksums of the third listing *)

(** X21.  Third listing, what the trusted checksum does in [load]: it can
    only turn the outcome into "Data integrity check failed".  With any
    trusted checksum [load] either does what it does with none, or throws
    that error; with the empty string, and with the hexadecimal SHA-256
    digest of [repr], it does what it does with none. *)
Theorem trusted_checksum_third_listing :
  forall (crypto : NodeCrypto) (pw repr t : string) (rs ri : bytes),
    (Keychain3.load crypto pw repr (Some t) rs ri
     = Keychain3.load crypto pw repr None rs ri
     \/ Keychain3.load crypto pw repr (Some t) rs ri
        = Throws (JsError "Data integrity check failed"))
    /\ Keychain3.load crypto pw repr (Some "") rs ri
       = Keychain3.load crypto pw repr None rs ri
    /\ Keychain3.load crypto pw repr
         (Some (Hex.encode (sha256 crypto (list_ascii_of_string repr)))) rs ri
       = Keychain3.load crypto pw repr None rs ri.
Proof.
  intros.
  assert (G : forall t',
             (negb (t' =? "")
              && negb (Hex.encode (sha256 crypto (list_ascii_of_string repr)) =? t'))%string%bool
             = false ->
             Keychain3.load crypto pw repr (Some t') rs ri
             = Keychain3.load crypto pw repr None rs ri).
  { intros t' H. unfold Keychain3.load.
    cbn [optional JS.truthy JS.strict_equal andb]. now rewrite H. }
  split; [|split].
  - destruct (negb (t =? "")
              && negb (Hex.encode (sha256 crypto (list_ascii_of_string repr)) =? t))%string%bool
      eqn:H; [|left; now apply G].
    unfold Keychain3.load. cbn [optional JS.truthy JS.strict_equal andb].
    rewrite H.
    destruct (JSON.parse repr) as [parsed| |]; cbn [bind]; auto.
    destruct (JS.GetV parsed "salt") as [salt| |]; cbn [bind]; auto.
    destruct (JS.GetV parsed "iv") as [iv| |]; cbn [bind]; auto.
    destruct (JS.GetV parsed "data") as [enc| |]; cbn [bind]; auto.
    destruct salt; cbn [bind]; auto.
    destruct (Buffer_from iv Hex.decode) as [ivb| |]; cbn [bind]; auto.
    destruct (negb (List.length ivb =? 16)%nat); auto.
    destruct enc; cbn [bind]; auto.
    destruct (aes256cbc_open _ _ _ _); cbn [bind]; auto.
    destruct (JSON.parse _); cbn [bind]; auto.
  - apply G. reflexivity.
  - apply G. rewrite String.eqb_refl. now rewrite andb_false_r.
Qed.

Lemma length_hex (b : bytes) :
  List.length (Hex.encode_bytes b) = 2 * List.length b.
Proof.
  induction b as [|[x0 x1 x2 x3 x4 x5 x6 x7] r IH]; [reflexivity|].
  cbn [Hex.encode_bytes List.length]. lia.
Qed.

Lemma length_base64 (b : bytes) :
  List.length (Base64.encode_bytes b) = 4 * ((List.length b + 2) / 3).
Proof.
  induction b as [| [] | [] [] | [] [] [] r IH] using list_ind3;
    try reflexivity.
  cbn [Base64.encode_bytes List.length]. rewrite IH.
  replace (S (S (S (List.length r))) + 2) with (List.length r + 2 + 1 * 3) by lia.
  rewrite Nat.div_add by discriminate. lia.
Qed.

Lemma length_string_of_list (l : list ascii) :
  String.length (string_of_list_ascii l) = List.length l.
Proof. induction l; cbn; congruence. Qed.

(** X22.  Third listing, two checksums.  For a store that [init] created,
    after any calls, when [dump] returns a text and a checksum: the checksum
    is the SHA-256 digest of the text in hexadecimal, 64 characters;
    [computeChecksum] of the same text is the digest in Base64, 44
    characters.  The two are never the same string. *)
Theorem checksums_of_third_listing_differ (crypto : NodeCrypto) (pw : string)
  (rs ri : bytes) (cs : list Call) (k0 k : Keychain3.Keychain)
  (blob checksum : string) :
  (forall text : bytes, List.length (sha256 crypto text) = 32) ->
  Keychain3.init crypto pw rs ri = Returns k0 ->
  Run3.run cs k0 = Some k ->
  Keychain3.dump crypto k = Returns (blob, checksum) ->
  checksum = Hex.encode (sha256 crypto (list_ascii_of_string blob))
  /\ String.length checksum = 64
  /\ String.length (computeChecksum3 crypto blob) = 44
  /\ checksum <> computeChecksum3 crypto blob.
Proof.
  intros L _ _ Hd. unfold Keychain3.dump in Hd.
  assert (O : forall props, exists text, JSON.stringify (JS.JObj props) = Some text)
    by (intros props; eexists; reflexivity).
  destruct (O (Keychain3.data k)) as (plain & E). rewrite E in Hd.
  match type of Hd with
  | context [JSON.stringify (JS.JObj ?p)] => destruct (O p) as (text & E')
  end.
  rewrite E' in Hd. injection Hd as <- <-.
  assert (A : String.length (Hex.encode (sha256 crypto (list_ascii_of_string text)))
              = 64).
  { unfold Hex.encode. now rewrite length_string_of_list, length_hex, L. }
  assert (B : String.length (computeChecksum3 crypto text) = 44).
  { unfold computeChecksum3, Base64.encode.
    now rewrite length_string_of_list, length_base64, L. }
  repeat split; auto.
  intros E0. rewrite E0 in A. rewrite A in B. discriminate B.
Qed.

Lemma checksums_of_third_listing_differ_witness :
  let k0 :=
    {| Keychain3.data := []; Keychain3.secrets := [];
       Keychain3.salt := Keychain3.Buf sample_salt;
       Keychain3.iv := Keychain3.Buf sample_iv;
       Keychain3.key := repeat Ascii.zero 32 |} in
  let k := snd (Keychain3.set "example.com" "p@ssw0rd" k0) in
  let blob :=
    JSON.q "{'salt':'30313233343536373839616263646566','iv':'66656463626139383736353433323130','data':'7b225a586868625842735a53356a6232303d223a226345427a63336377636d513d227d'}" in
  let checksum := Hex.encode (repeat Ascii.zero 32) in
  Keychain3.init sample_crypto "Correct-Horse9!" sample_salt sample_iv = Returns k0
  /\ Run3.run [CallSet "example.com" "p@ssw0rd"] k0 = Some k
  /\ Keychain3.dump sample_crypto k = Returns (blob, checksum)
  /\ String.length checksum = 64
  /\ String.length (computeChecksum3 sample_crypto blob) = 44
  /\ checksum <> computeChecksum3 sample_crypto blob.
Proof.
  cbv zeta.
  match goal with
  | |- ?i /\ ?r /\ ?d /\ _ =>
      assert (I : i) by reflexivity;
      assert (R : r) by reflexivity;
      assert (D : d) by (vm_compute; reflexivity)
  end.
  split; [exact I|]. split; [exact R|]. split; [exact D|].
  exact (proj2 (checksums_of_third_listing_differ sample_crypto _ _ _ _ _ _ _ _
                  (fun _ => eq_refl) I R D)).
Defined.

(** ** [load] of the third listing on a dumped blob *)

Lemma hex_pair (a : ascii) (r : list ascii) :
  Hex.decode_chars (Hex.encode_bytes (a :: r)) = a :: Hex.decode_chars (Hex.encode_bytes r).
Proof. destruct a as [[] [] [] [] [] [] [] []]; reflexivity. Qed.

(** [Buffer.from(buffer.toString('hex'), 'hex')] gives the bytes back. *)
Lemma hex_decode_encode (b : bytes) : Hex.decode (Hex.encode b) = Some b.
Proof.
  unfold Hex.decode, Hex.encode. rewrite list_ascii_of_string_of_list_ascii.
  f_equal. induction b as [|a r IH]; [reflexivity|].
  rewrite hex_pair. now rewrite IH.
Qed.

Lemma blob3_as_object (s i d : string) :
  plain s = true -> plain i = true -> plain d = true ->
  blob3 s i d
  = object_text [("salt", JSON.quote s); ("iv", JSON.quote i); ("data", JSON.quote d)].
Proof.
  intros Hs Hi Hd. unfold blob3, object_text, member_text.
  cbn [map fst snd]. rewrite !join_cons2. cbn [JSON.join].
  rewrite (quote_plain s Hs), (quote_plain i Hi), (quote_plain d Hd).
  change (JSON.quote "salt") with (JSON.q "'salt'").
  change (JSON.quote "iv") with (JSON.q "'iv'").
  change (JSON.quote "data") with (JSON.q "'data'").
  eval_q. repeat rewrite append_assoc. reflexivity.
Qed.

Lemma parse_blob3 (s i d : string) :
  plain s = true -> plain i = true -> plain d = true ->
  JSON.parse (blob3 s i d)
  = Returns (JS.JObj [("salt", JS.JStr s); ("iv", JS.JStr i); ("data", JS.JStr d)]).
Proof.
  intros Hs Hi Hd. rewrite (blob3_as_object s i d Hs Hi Hd).
  apply (parse_of_reads 3).
  - apply (reads_object 0 ("salt", _) [("iv", _); ("data", _)]
             (JS.JStr s) [JS.JStr i; JS.JStr d]).
    + repeat constructor.
    + apply Forall2_reads3; apply reads_quote.
  - rewrite <- length_object_text. cbn [map]. rewrite join_cons2.
    rewrite list_ascii_of_string_app, length_app.
    pose proof (length_member_text "salt" (JSON.quote s)). lia.
Qed.

(** X23.  Third listing, [load] on the blob that [dump] wrote.  For a
    store that [init] created with an initialisation vector of 16 bytes,
    after any calls, [load] reads the blob as far as the decipher: it derives
    its key with PBKDF2 from the password and the hexadecimal text of the
    salt (not the bytes that [init] used) and opens the AES-256-GCM
    ciphertext with AES-256-CBC under the initialisation vector of the store.
    When the decipher rejects the ciphertext, [load] throws its error; when
    it does not, [load] returns only if the decrypted text is JSON for a
    string, and the store it returns holds no record. *)
Theorem load_of_dumped_blob_third_listing (crypto : NodeCrypto) (pw pw' : string)
  (rs ri : bytes) (cs : list Call) (k0 k : Keychain3.Keychain)
  (t : option string) (rs' ri' : bytes) :
  Keychain3.init crypto pw rs ri = Returns k0 ->
  Run3.run cs k0 = Some k ->
  List.length ri = 16 ->
  exists blob checksum plain : string,
    Keychain3.dump crypto k = Returns (blob, checksum)
    /\ JSON.stringify (JS.JObj (Keychain3.data k)) = Some plain
    /\ let ciphertext :=
         Hex.encode
           (aes256gcm crypto
              (pbkdf2_sha256 crypto (list_ascii_of_string pw) rs 100000 32)
              ri (list_ascii_of_string plain)) in
       let derived :=
         pbkdf2_sha256 crypto (list_ascii_of_string pw')
           (list_ascii_of_string (Hex.encode rs)) 100000 32 in
       match aes256cbc_open crypto derived ri ciphertext with
       | None => Keychain3.load crypto pw' blob t rs' ri' = Throws CipherError
       | Some opened =>
           forall store : Keychain3.Keychain,
             Keychain3.load crypto pw' blob t rs' ri' = Returns store ->
             (exists s, JSON.parse opened = Returns (JS.JStr s))
             /\ Keychain3.data store = []
       end.
Proof.
  intros I R L. rewrite init3_store in I.
  destruct (utf16_length pw <=? 64)%N; [|discriminate I]. injection I as <-.
  destruct (run3_frame cs _ _ R) as (Hs & Hi & Hk).
  cbn [Keychain3.salt Keychain3.iv Keychain3.key] in Hs, Hi, Hk.
  destruct (dump3_layout crypto k rs ri Hs Hi) as (plain & P & D).
  rewrite Hk in D.
  eexists. eexists. exists plain. split; [exact D|]. split; [exact P|].
  cbv zeta.
  set (ct := Hex.encode (aes256gcm crypto _ ri _)) in *.
  set (derived := pbkdf2_sha256 crypto (list_ascii_of_string pw') _ 100000 32).
  assert (Q : JSON.parse (blob3 (Hex.encode rs) (Hex.encode ri) ct)
              = Returns (JS.JObj [("salt", JS.JStr (Hex.encode rs));
                                  ("iv", JS.JStr (Hex.encode ri));
                                  ("data", JS.JStr ct)]))
    by (apply parse_blob3; apply hex_plain).
  destruct (aes256cbc_open crypto derived ri ct) as [opened|] eqn:O.
  - intros store Hl.
    split; [|eapply load3_restores_nothing; exact Hl].
    unfold Keychain3.load in Hl. rewrite Q in Hl.
    cbn [bind JS.GetV JS.obj_get JS.lookup String.eqb Ascii.eqb Bool.eqb] in Hl.
    unfold Buffer_from in Hl. rewrite hex_decode_encode in Hl.
    cbn [bind] in Hl. rewrite L in Hl. cbn [Nat.eqb negb] in Hl.
    unfold Keychain3.PBKDF2_ITERATIONS in Hl.
    fold derived in Hl. rewrite O in Hl. cbn [bind] in Hl.
    destruct (JSON.parse opened) as [v| |]; cbn [bind] in Hl; try discriminate Hl.
    destruct (_ && _)%bool; [discriminate Hl|].
    destruct v; cbn [Keychain3.constructor bind] in Hl; try discriminate Hl.
    eauto.
  - unfold Keychain3.load. rewrite Q.
    cbn [bind JS.GetV JS.obj_get JS.lookup String.eqb Ascii.eqb Bool.eqb].
    unfold Buffer_from. rewrite hex_decode_encode.
    cbn [bind]. rewrite L. cbn [Nat.eqb negb].
    unfold Keychain3.PBKDF2_ITERATIONS. fold derived. rewrite O. reflexivity.
Qed.

Lemma load_of_dumped_blob_third_listing_witness :
  exists blob checksum plain : string,
    Keychain3.dump sample_crypto
      (snd (Keychain3.set "example.com" "p@ssw0rd"
              {| Keychain3.data := []; Keychain3.secrets := [];
                 Keychain3.salt := Keychain3.Buf sample_salt;
                 Keychain3.iv := Keychain3.Buf sample_iv;
                 Keychain3.key :=
                   pbkdf2_sha256 sample_crypto
                     (list_ascii_of_string "Correct-Horse9!") sample_salt 100000 32 |}))
    = Returns (blob, checksum)
    /\ JSON.stringify (JS.JObj [("ZXhhbXBsZS5jb20=", JS.JStr "cEBzc3cwcmQ=")])
       = Some plain
    /\ Keychain3.load sample_crypto "Correct-Horse9!" blob None [] []
       = Throws CipherError.
Proof.
  destruct (load_of_dumped_blob_third_listing sample_crypto
              "Correct-Horse9!" "Correct-Horse9!" sample_salt sample_iv
              [CallSet "example.com" "p@ssw0rd"] _ _
              None [] [] eq_refl eq_refl eq_refl) as (blob & checksum & plain & D & P & H).
  exists blob, checksum, plain. split; [exact D|]. split; [exact P|]. exact H.
Defined.

(** ** What the dumped blobs show *)

Lemma exec1_below (c : Call) (k : Keychain1.Keychain) :
  indexed_below (Keychain1.data k) = true ->
  indexed_below (Keychain1.data (snd (Run1.exec c k))) = true.
Proof.
  intros H. destruct c as [name|name value|name]; cbn [Run1.exec void snd].
  - unfold Keychain1.get. now destruct (JS.GetV _ _).
  - unfold Keychain1.set. pose proof (PutV_below _ name value H) as P.
    now destruct (JS.PutV _ _ _).
  - unfold Keychain1.remove. destruct (JS.GetV _ _) as [v| |]; auto.
    destruct (JS.truthy v); auto.
    pose proof (DeleteV_below _ name H) as P.
    now destruct (JS.DeleteV _ _).
Qed.

Lemma run1_below (cs : list Call) :
  forall k k' : Keychain1.Keychain,
    indexed_below (Keychain1.data k) = true ->
    Run1.run cs k = Some k' ->
    indexed_below (Keychain1.data k') = true.
Proof.
  induction cs as [|c cs IH]; intros k k' H R; cbn in R.
  - now injection R as <-.
  - pose proof (exec1_below c k H) as H'.
    destruct (Run1.exec c k) as [[u|e|] k1]; try discriminate; eauto.
Qed.

Lemma occurs_before (n h y : string) : occurs n h -> occurs n (h ++ y).
Proof. intros H. exact (occurs_within n h "" y H). Qed.

(** In the first listing a secret that [get] returns under an index name
    stands in the JSON text of the container. *)
Lemma secret_in_array_text (len : N) (props : JS.Props) (name secret : string) (i : N) :
  forallb (JS.below len) props = true ->
  JS.array_index name = Some i ->
  JS.lookup name props = Some (JS.JStr secret) ->
  occurs (JSON.quote secret) (array_text (map (slot props) (JSON.indices len))).
Proof.
  intros B I Own.
  pose proof (forallb_lookup _ _ _ _ B Own) as Bi.
  unfold JS.below in Bi. cbn [fst] in Bi. rewrite I in Bi. apply N.ltb_lt in Bi.
  destruct (array_index_name _ _ I) as [-> _].
  unfold array_text. apply occurs_within. apply occurs_join.
  apply in_map_iff. exists (Some secret). split; [reflexivity|].
  apply in_map_iff. exists i. split; [|now apply indices_In].
  unfold slot. now rewrite Own.
Qed.

Lemma occurs_in_blob1 (n s i t : string) :
  occurs n t -> occurs n (blob1 s i (Some t)).
Proof.
  intros H. unfold blob1. do 5 apply occurs_after. now apply occurs_before.
Qed.

(** *** The third listing *)

Lemma dump3_text (crypto : NodeCrypto) (k : Keychain3.Keychain) :
  exists plain,
    JSON.stringify (JS.JObj (Keychain3.data k)) = Some plain
    /\ Keychain3.dump crypto k
       = let blob :=
           object_text
             [ ("salt", JSON.quote (Keychain3.toString_hex (Keychain3.salt k)));
               ("iv", JSON.quote (Keychain3.toString_hex (Keychain3.iv k)));
               ("data",
                JSON.quote
                  (Hex.encode
                     (aes256gcm crypto (Keychain3.key k)
                        (Keychain3.field_bytes (Keychain3.iv k))
                        (list_ascii_of_string plain)))) ] in
         Returns (blob, Hex.encode (sha256 crypto (list_ascii_of_string blob))).
Proof.
  unfold Keychain3.dump.
  destruct (JSON.stringify (JS.JObj (Keychain3.data k))) as [plain|] eqn:E;
    [|discriminate E].
  exists plain. split; [reflexivity|]. reflexivity.
Qed.

Lemma forallb_weaken {A : Type} (P Q : A -> bool) (l : list A) :
  (forall a, P a = true -> Q a = true) ->
  forallb P l = true -> forallb Q l = true.
Proof.
  intros W. induction l as [|a l IH]; cbn [forallb]; auto.
  intros H. apply andb_prop in H as [Ha Hl]. now rewrite (W a Ha), IH.
Qed.

Lemma forallb_member (l : list ascii) :
  forallb (fun c => existsb (Ascii.eqb c) l) l = true.
Proof.
  apply forallb_forall. intros c H. apply existsb_exists.
  exists c. split; [exact H|apply Ascii.eqb_refl].
Qed.

(** Every byte of the text that [dump] of the third listing builds is a
    byte of its layout, a hexadecimal digit, or a byte of the JSON strings
    of [salt] and [iv]. *)
Lemma dumped_bytes (k : Keychain3.Keychain) (ct : bytes) :
  forallb (dumped_byte k)
    (list_ascii_of_string
       (object_text
          [ ("salt", JSON.quote (Keychain3.toString_hex (Keychain3.salt k)));
            ("iv", JSON.quote (Keychain3.toString_hex (Keychain3.iv k)));
            ("data", JSON.quote (Hex.encode ct)) ]))
  = true.
Proof.
  assert (L : forall s : string,
             forallb blob_char (list_ascii_of_string s) = true ->
             forallb (dumped_byte k) (list_ascii_of_string s) = true).
  { intros s. apply forallb_weaken. intros c H. unfold dumped_byte.
    now rewrite H. }
  assert (Fs : forallb (dumped_byte k)
                 (list_ascii_of_string
                    (JSON.quote (Keychain3.toString_hex (Keychain3.salt k)))) = true).
  { eapply forallb_weaken; [|apply forallb_member].
    intros c H. unfold dumped_byte. rewrite H. now rewrite orb_true_r. }
  assert (Fi : forallb (dumped_byte k)
                 (list_ascii_of_string
                    (JSON.quote (Keychain3.toString_hex (Keychain3.iv k)))) = true).
  { eapply forallb_weaken; [|apply forallb_member].
    intros c H. unfold dumped_byte. rewrite H. now rewrite orb_true_r. }
  assert (Fd : forallb (dumped_byte k)
                 (list_ascii_of_string (JSON.quote (Hex.encode ct))) = true).
  { apply L. rewrite (quote_plain _ (hex_plain ct)).
    rewrite !list_ascii_of_string_app, !forallb_app.
    rewrite (hex_digit_blob_char _ (hex_digits ct)). reflexivity. }
  unfold object_text, member_text. cbn [map fst snd]. rewrite !join_cons2.
  cbn [JSON.join].
  rewrite !list_ascii_of_string_app, !forallb_app.
  rewrite Fs, Fi, Fd.
  rewrite !L by reflexivity. reflexivity.
Qed.

(** The word [salt] stands in every blob of the third listing. *)
Lemma salt_in_object_text (s i d : string) :
  occurs "salt" (object_text [("salt", s); ("iv", i); ("data", d)]).
Proof.
  unfold object_text, member_text. cbn [map fst snd]. rewrite !join_cons2.
  change (JSON.quote "salt") with (JSON.q "'" ++ "salt" ++ JSON.q "'").
  rewrite !append_assoc. apply occurs_after. apply occurs_after.
  now apply occurs_before, occurs_refl.
Qed.

(** The word [salt] stands in what [dump] of the third listing returns,
    whatever the primitives compute. *)
Lemma salt_in_dumped3 (crypto : NodeCrypto) (k : Keychain3.Keychain)
  (blob checksum : string) :
  Keychain3.dump crypto k = Returns (blob, checksum) ->
  infix_of "salt" blob = true.
Proof.
  intros Hd. destruct (dump3_text crypto k) as (plain & _ & Ht).
  rewrite Ht in Hd. cbv zeta in Hd. injection Hd as <- _.
  apply occurs_infix, salt_in_object_text.
Qed.

(** C3, the claim as stated fails.  In the first listing the secret set
    under the name ["0"] stands in the dumped blob as it was given.  In the
    third listing a secret made of bytes of the layout stands in the blob:
    after [set("example.com", "salt")] on a store fresh from [init], [get]
    returns the secret [salt], and the blob holds [salt] (the blob is the
    one that [dump] returns with the stand-in primitives; the word stands in
    it whatever they compute). *)
Lemma dump_shows_cleartext :
  let fresh3 :=
    {| Keychain3.data := []; Keychain3.secrets := [];
       Keychain3.salt := Keychain3.Buf sample_salt;
       Keychain3.iv := Keychain3.Buf sample_iv;
       Keychain3.key := repeat Ascii.zero 32 |} in
  let store3 := snd (Keychain3.set "example.com" "salt" fresh3) in
  let dumped3 :=
    JSON.q "{'salt':'30313233343536373839616263646566','iv':'66656463626139383736353433323130','data':'7b225a586868625842735a53356a6232303d223a226332467364413d3d227d'}" in
  Keychain1.serialize leaky_store = Some leaky_blob
  /\ fst (Keychain1.get "0" leaky_store) = Returns (JS.JStr "hunter2")
  /\ infix_of "hunter2" leaky_blob = true
  /\ Keychain3.init sample_crypto "Correct-Horse9!" sample_salt sample_iv
     = Returns fresh3
  /\ fst (Keychain3.get "example.com" store3) = Returns (JS.JStr "salt")
  /\ Keychain3.dump sample_crypto store3
     = Returns (dumped3, Hex.encode (repeat Ascii.zero 32))
  /\ infix_of "salt" dumped3 = true.
Proof. cbv zeta. repeat split; vm_compute; reflexivity. Qed.

(** C3, amended.  The first listing dumps the JSON text of its container as
    it is, twice: when [dump] returns, the blob is
    [{"salt":base64,"iv":base64,"data":C,"kvs":C}] with [C] the text of the
    container, and for a store that [init] created, after any calls, every
    secret that [get] returns under an index name stands in the blob as a
    JSON string, and as it is when it holds no quote, backslash or control
    character.  In the third listing, when [dump] returns, the blob is
    [{"salt":S,"iv":I,"data":hex}] with [data] the hexadecimal form of what
    AES-256-GCM returns on the JSON text of the Base64-keyed container, and
    [S] and [I] the salt and the initialisation vector as the store holds
    them; each of its bytes is a punctuation mark or a letter of that layout,
    a hexadecimal digit, or a byte of [S] or [I], and a string that holds any
    other byte does not occur in it.  For a store that [init] created, after
    any calls, [S] and [I] are hexadecimal, so a string that holds a byte
    which is neither of the layout nor a hexadecimal digit does not occur in
    the blob. *)
Theorem dump_layouts :
  forall crypto : NodeCrypto,
    (forall (k : Keychain1.Keychain) (blob checksum : string),
       Keychain1.dump crypto k = Returns (blob, checksum) ->
       blob = blob1 (Base64.encode (Keychain1.salt k))
                (Base64.encode (Keychain1.iv k))
                (JSON.stringify (Keychain1.data k)))
    /\ (forall (pw : string) (rs ri : bytes) (cs : list Call)
               (k : Keychain1.Keychain) (blob checksum : string),
          Run1.run cs (Keychain1.init pw rs ri) = Some k ->
          Keychain1.dump crypto k = Returns (blob, checksum) ->
          forall (name secret : string) (i : N),
            JS.array_index name = Some i ->
            fst (Keychain1.get name k) = Returns (JS.JStr secret) ->
            infix_of (JSON.quote secret) blob = true
            /\ (plain secret = true -> infix_of secret blob = true))
    /\ (forall (k : Keychain3.Keychain) (blob checksum : string),
          Keychain3.dump crypto k = Returns (blob, checksum) ->
          exists plain : string,
            JSON.stringify (JS.JObj (Keychain3.data k)) = Some plain
            /\ blob
               = object_text
                   [ ("salt", JSON.quote (Keychain3.toString_hex (Keychain3.salt k)));
                     ("iv", JSON.quote (Keychain3.toString_hex (Keychain3.iv k)));
                     ("data",
                      JSON.quote
                        (Hex.encode
                           (aes256gcm crypto (Keychain3.key k)
                              (Keychain3.field_bytes (Keychain3.iv k))
                              (list_ascii_of_string plain)))) ]
            /\ forallb (dumped_byte k) (list_ascii_of_string blob) = true
            /\ forall needle : string,
                 forallb (dumped_byte k) (list_ascii_of_string needle) = false ->
                 infix_of needle blob = false)
    /\ (forall (pw : string) (rs ri : bytes) (cs : list Call)
               (k0 k : Keychain3.Keychain) (blob checksum : string),
          Keychain3.init crypto pw rs ri = Returns k0 ->
          Run3.run cs k0 = Some k ->
          Keychain3.dump crypto k = Returns (blob, checksum) ->
          exists plain : string,
            JSON.stringify (JS.JObj (Keychain3.data k)) = Some plain
            /\ blob
               = blob3 (Hex.encode rs) (Hex.encode ri)
                   (Hex.encode (aes256gcm crypto (Keychain3.key k0) ri
                                  (list_ascii_of_string plain)))
            /\ forallb blob_char (list_ascii_of_string blob) = true
            /\ forall needle : string,
                 forallb blob_char (list_ascii_of_string needle) = false ->
                 infix_of needle blob = false).
Proof.
  intros crypto. split; [|split; [|split]].
  - intros k blob checksum Hd. unfold Keychain1.dump in Hd.
    rewrite serialize1_layout in Hd. now injection Hd as <- _.
  - intros pw rs ri cs k blob checksum R Hd name secret i I G.
    pose proof (reached1_kept _ _ _ _ _ R) as K.
    assert (B : indexed_below (Keychain1.data k) = true)
      by (eapply run1_below; [|exact R]; reflexivity).
    apply kept_array_spec in K as (len & props & D & S & _ & NL).
    rewrite D in B. cbn [indexed_below] in B.
    unfold Keychain1.dump in Hd.
    rewrite serialize1_layout, D, (stringify_strings _ _ S) in Hd.
    injection Hd as <- _.
    destruct (index_not_inherited _ _ I) as (U & L & _).
    unfold Keychain1.get in G. rewrite D in G. cbn [JS.GetV] in G.
    destruct (JS.lookup name props) as [v|] eqn:Own;
      [|rewrite L, U in G; discriminate G].
    assert (v = JS.JStr secret) as ->.
    { cbn [fst] in G. destruct (JS.truthy v); [now injection G|discriminate G]. }
    pose proof (occurs_in_blob1 _ (Base64.encode (Keychain1.salt k))
                  (Base64.encode (Keychain1.iv k)) _
                  (secret_in_array_text len props name secret i B I Own)) as O.
    split; [now apply occurs_infix|].
    intros P. apply occurs_infix. eapply occurs_trans; [|exact O].
    now apply occurs_quoted.
  - intros k blob checksum Hd.
    destruct (dump3_text crypto k) as (plain & Hp & Ht).
    rewrite Ht in Hd. cbv zeta in Hd. injection Hd as <- _.
    exists plain. split; [exact Hp|]. split; [reflexivity|].
    split; [apply dumped_bytes|].
    intros needle N.
    destruct (infix_of needle _) eqn:Hin; [|reflexivity].
    rewrite (infix_forallb _ _ _ Hin (dumped_bytes k _)) in N. discriminate N.
  - intros pw rs ri cs k0 k blob checksum E R Hd.
    apply init3_fields in E as (Hs & Hi & _).
    destruct (run3_frame cs k0 k R) as (Hs' & Hi' & Hk').
    rewrite Hs in Hs'. rewrite Hi in Hi'.
    destruct (dump3_layout crypto k rs ri Hs' Hi') as (plain & Hp & Hl).
    rewrite Hl in Hd. injection Hd as <- _. rewrite Hk'.
    exists plain. split; [exact Hp|]. split; [reflexivity|].
    split; [apply blob3_chars|].
    intros needle N.
    destruct (infix_of needle _) eqn:Hin; [|reflexivity].
    rewrite (infix_forallb _ _ _ Hin (blob3_chars _ _ _)) in N. discriminate N.
Qed.

(** The theorem at the stores of the examples: both [dump]s return there. *)
Lemma dump_layouts_witness :
  let k3 := snd (Keychain3.set "example.com" "p@ssw0rd"
                   {| Keychain3.data := []; Keychain3.secrets := [];
                      Keychain3.salt := Keychain3.Buf sample_salt;
                      Keychain3.iv := Keychain3.Buf sample_iv;
                      Keychain3.key := repeat Ascii.zero 32 |}) in
  let repr3 :=
    JSON.q "{'salt':'30313233343536373839616263646566','iv':'66656463626139383736353433323130','data':'7b225a586868625842735a53356a6232303d223a226345427a63336377636d513d227d'}" in
  Keychain1.dump sample_crypto leaky_store
  = Returns (leaky_blob, Base64.encode (repeat Ascii.zero 32))
  /\ fst (Keychain1.get "0" leaky_store) = Returns (JS.JStr "hunter2")
  /\ infix_of "hunter2" leaky_blob = true
  /\ Keychain3.dump sample_crypto k3
     = Returns (repr3, Hex.encode (repeat Ascii.zero 32))
  /\ infix_of "example.com" repr3 = false
  /\ infix_of "p@ssw0rd" repr3 = false.
Proof.
  cbv zeta.
  match goal with
  | |- ?d1 /\ _ /\ _ /\ ?d3 /\ _ =>
      assert (D1 : d1) by (vm_compute; reflexivity);
      assert (D3 : d3) by (vm_compute; reflexivity)
  end.
  destruct (dump_layouts sample_crypto) as (_ & T1 & _ & T3).
  split; [exact D1|]. split; [reflexivity|].
  split.
  { exact (proj2 (T1 "Correct-Horse9!" sample_salt sample_iv [CallSet "0" "hunter2"]
                    leaky_store _ _ eq_refl D1 "0" "hunter2" 0%N eq_refl eq_refl)
             eq_refl). }
  split; [exact D3|].
  destruct (T3 "Correct-Horse9!" sample_salt sample_iv
              [CallSet "example.com" "p@ssw0rd"] _ _ _ _ eq_refl eq_refl D3)
    as (plain & _ & _ & _ & H).
  split; apply H; reflexivity.
Defined.

(** ** What [load] and [get] check *)

(** With a trusted checksum that is not empty and differs from the digest of
    the blob, [load] of the third listing throws "Data integrity check
    failed" where [load] without a checksum returns or throws the TypeError
    of the constructor, and does what [load] without a checksum does
    otherwise: the decipher and [JSON.parse] come first. *)
Lemma load3_mismatch (crypto : NodeCrypto) (pw repr t : string) (rs ri : bytes) :
  (t =? "")%string = false ->
  (Hex.encode (sha256 crypto (list_ascii_of_string repr)) =? t)%string = false ->
  Keychain3.load crypto pw repr (Some t) rs ri
  = match Keychain3.load crypto pw repr None rs ri with
    | Returns _ => Throws (JsError "Data integrity check failed")
    | Throws (JsTypeError _) => Throws (JsError "Data integrity check failed")
    | Throws e => Throws e
    | Unmodelled => Unmodelled
    end.
Proof.
  intros Ht Hd. unfold Keychain3.load.
  cbn [optional JS.truthy JS.strict_equal]. rewrite Ht, Hd. cbn [negb andb].
  destruct (JSON.parse repr) as [parsed|e|] eqn:E; cbn [bind];
    [|apply parse_throws in E; now subst e|reflexivity].
  destruct (JS.GetV parsed "salt") as [salt|e|] eqn:E1; cbn [bind];
    [|apply GetV_throws in E1; now subst e|reflexivity].
  destruct (JS.GetV parsed "iv") as [iv|e|] eqn:E2; cbn [bind];
    [|apply GetV_throws in E2; now subst e|reflexivity].
  destruct (JS.GetV parsed "data") as [enc|e|] eqn:E3; cbn [bind];
    [|apply GetV_throws in E3; now subst e|reflexivity].
  destruct salt as [| | | |s| | |]; cbn [bind]; try reflexivity.
  destruct (Buffer_from iv Hex.decode) as [ivb|e|] eqn:E4; cbn [bind];
    [|apply Buffer_from_throws in E4; now subst e|reflexivity].
  destruct (negb (List.length ivb =? 16)%nat); [reflexivity|].
  destruct enc as [| | | |text| | |]; cbn [bind]; try reflexivity.
  destruct (aes256cbc_open crypto _ ivb text) as [opened|]; cbn [bind];
    [|reflexivity].
  destruct (JSON.parse opened) as [data|e|] eqn:E5; cbn [bind];
    [|apply parse_throws in E5; now subst e|reflexivity].
  unfold Keychain3.constructor.
  destruct data; cbn [bind]; try reflexivity.
  destruct iv; try reflexivity; discriminate E4.
Qed.

(** On a blob in the layout of [dump] whose [data] member the decipher
    rejects under every key, [load] of the third listing throws the error of
    the decipher, whatever the trusted checksum. *)
Lemma load3_decipher_first (crypto : NodeCrypto) (pw : string) (rs ri : bytes)
  (d : string) (t : option string) (rs' ri' : bytes) :
  List.length ri = 16 ->
  plain d = true ->
  (forall key : bytes, aes256cbc_open crypto key ri d = None) ->
  Keychain3.load crypto pw (blob3 (Hex.encode rs) (Hex.encode ri) d) t rs' ri'
  = Throws CipherError.
Proof.
  intros L P O. unfold Keychain3.load.
  rewrite (parse_blob3 _ _ _ (hex_plain rs) (hex_plain ri) P).
  cbn [bind JS.GetV JS.obj_get JS.lookup String.eqb Ascii.eqb Bool.eqb].
  unfold Buffer_from. rewrite hex_decode_encode.
  cbn [bind]. rewrite L. cbn [Nat.eqb negb].
  rewrite O. reflexivity.
Qed.

(** [get] of the third listing on a store that holds the Base64 text of a
    secret under the Base64 text of the name, and on one that holds nothing
    under it. *)
Lemma get3_held (name secret : string) (k : Keychain3.Keychain) :
  JS.lookup (Keychain3.encodeBuffer (Keychain3.stringToBuffer name)) (Keychain3.data k)
  = Some (JS.JStr (Keychain3.encodeBuffer (Keychain3.stringToBuffer secret))) ->
  Keychain3.get name k = (Returns (JS.JStr secret), k).
Proof.
  intros H. unfold Keychain3.get, JS.obj_get. rewrite H.
  cbn [JS.strict_equal negb].
  unfold Keychain3.decodeBuffer, Buffer_from, Keychain3.encodeBuffer,
    Keychain3.stringToBuffer.
  rewrite base64_decode_encode. cbn [bind].
  unfold Keychain3.bufferToString. now rewrite string_of_list_ascii_of_string.
Qed.

Lemma get3_not_held (name : string) (k : Keychain3.Keychain) :
  JS.lookup (Keychain3.encodeBuffer (Keychain3.stringToBuffer name)) (Keychain3.data k)
  = None ->
  starts_a_character name = true ->
  Keychain3.get name k = (Returns JS.JNull, k).
Proof.
  intros H W. unfold Keychain3.get, JS.obj_get. rewrite H.
  now rewrite (key3_not_inherited name W).
Qed.

(** C4, the claim as stated fails.  In the first listing a blob that
    [load] accepts is accepted with one byte of its record changed, under
    the same trusted checksum, and [get] returns the changed secret.  The
    blob that [dump] of the first listing writes has no ciphertext; with one
    byte of its record changed [load] throws a TypeError when no checksum is
    given and "Data integrity check failed" when the dumped one is given, as
    it does on the blob as it was dumped.  In the third listing, with one
    byte of the ciphertext of a dumped blob changed into a double quote,
    [load] throws the SyntaxError of [JSON.parse], with the dumped checksum
    and with none, before any primitive is called (the blob is the one that
    [dump] returns with the stand-in primitives). *)
Lemma tampering_is_not_authenticated :
  let accepted := layout1 sample_salt sample_iv [Some "hunter2"] leaky_checksum in
  let modified := layout1 sample_salt sample_iv [Some "hunter3"] leaky_checksum in
  let store3 :=
    snd (Keychain3.set "example.com" "p@ssw0rd"
           {| Keychain3.data := []; Keychain3.secrets := [];
              Keychain3.salt := Keychain3.Buf sample_salt;
              Keychain3.iv := Keychain3.Buf sample_iv;
              Keychain3.key := repeat Ascii.zero 32 |}) in
  let dumped3 :=
    JSON.q "{'salt':'30313233343536373839616263646566','iv':'66656463626139383736353433323130','data':'7b225a586868625842735a53356a6232303d223a226345427a63336377636d513d227d'}" in
  let tampered3 :=
    JSON.q "{'salt':'30313233343536373839616263646566','iv':'66656463626139383736353433323130','data':''b225a586868625842735a53356a6232303d223a226345427a63336377636d513d227d'}" in
  let checksum3 := Hex.encode (repeat Ascii.zero 32) in
  differences accepted modified = Some 1
  /\ (k <- Keychain1.load "Correct-Horse9!" accepted (Some leaky_checksum) ;;
      fst (Keychain1.get "0" k)) = Returns (JS.JStr "hunter2")
  /\ (k <- Keychain1.load "Correct-Horse9!" modified (Some leaky_checksum) ;;
      fst (Keychain1.get "0" k)) = Returns (JS.JStr "hunter3")
  /\ Keychain1.serialize leaky_store = Some leaky_blob
  /\ differences leaky_blob tampered_blob = Some 1
  /\ (k <- Keychain1.load "Correct-Horse9!" tampered_blob None ;;
      fst (Keychain1.get "0" k)) = Throws EngineTypeError
  /\ (k <- Keychain1.load "Correct-Horse9!" tampered_blob (Some leaky_checksum) ;;
      fst (Keychain1.get "0" k)) = Throws (JsError "Data integrity check failed")
  /\ (k <- Keychain1.load "Correct-Horse9!" leaky_blob None ;;
      fst (Keychain1.get "0" k)) = Throws EngineTypeError
  /\ (k <- Keychain1.load "Correct-Horse9!" leaky_blob (Some leaky_checksum) ;;
      fst (Keychain1.get "0" k)) = Throws (JsError "Data integrity check failed")
  /\ Keychain3.init sample_crypto "Correct-Horse9!" sample_salt sample_iv
     = Returns {| Keychain3.data := []; Keychain3.secrets := [];
                  Keychain3.salt := Keychain3.Buf sample_salt;
                  Keychain3.iv := Keychain3.Buf sample_iv;
                  Keychain3.key := repeat Ascii.zero 32 |}
  /\ Keychain3.dump sample_crypto store3 = Returns (dumped3, checksum3)
  /\ differences dumped3 tampered3 = Some 1
  /\ (k <- Keychain3.load sample_crypto "Correct-Horse9!" tampered3 None [] [] ;;
      fst (Keychain3.get "example.com" k)) = Throws EngineSyntaxError
  /\ (k <- Keychain3.load sample_crypto "Correct-Horse9!" tampered3
            (Some checksum3) [] [] ;;
      fst (Keychain3.get "example.com" k)) = Throws EngineSyntaxError.
Proof. cbv zeta. repeat split; vm_compute; reflexivity. Qed.

(** C4, amended.  First listing: what [get(name)] returns depends on the
    record container and the name alone, not on password, salt or
    initialisation vector; on a container that is an array or an object it
    returns, and leaves the store as it is; it returns the string held under
    the name when that string is not empty, and [null] when nothing is held
    under the name and the name is neither [length] nor known to the
    prototype chain.  Third listing: what [get] returns depends on [data]
    and the name alone; it returns the secret whose Base64 text [data] holds
    under the Base64 text of the name, and [null] when [data] holds nothing
    under it.
    [load] checks the blob against the trusted checksum: when that is not
    empty and differs from the SHA-256 digest of the blob, [load] does not
    return; it throws "Data integrity check failed" whenever [load] without
    a checksum returns, and otherwise that error or the error that [load]
    without a checksum throws.  The decipher comes before the checksum: on a
    blob in the layout of [dump] whose [data] member the decipher rejects
    under every key, [load] throws the error of the decipher, with or
    without a trusted checksum.  Without a trusted checksum [load] throws no
    integrity error. *)
Theorem get_authenticates_nothing :
  forall (crypto : NodeCrypto) (name : string),
    (forall (pw pw' : string) (s s' i i' : bytes) (d : JS.JSValue),
       fst (Keychain1.get name
              {| Keychain1.password := pw; Keychain1.salt := s;
                 Keychain1.iv := i; Keychain1.data := d |})
       = fst (Keychain1.get name
                {| Keychain1.password := pw'; Keychain1.salt := s';
                   Keychain1.iv := i'; Keychain1.data := d |}))
    /\ (forall (pw : string) (s i : bytes) (len : N) (props : JS.Props),
       let k := {| Keychain1.password := pw; Keychain1.salt := s;
                   Keychain1.iv := i; Keychain1.data := JS.JArr len props |} in
       (exists v, Keychain1.get name k = (Returns v, k))
       /\ (forall secret : string,
             JS.lookup name props = Some (JS.JStr secret) ->
             (secret =? "")%string = false ->
             Keychain1.get name k = (Returns (JS.JStr secret), k))
       /\ (JS.lookup name props = None ->
           (name =? "length")%string = false ->
           JS.inherited JS.array_chain name = JS.JUndefined ->
           Keychain1.get name k = (Returns JS.JNull, k)))
    /\ (forall (pw : string) (s i : bytes) (props : JS.Props),
          let k := {| Keychain1.password := pw; Keychain1.salt := s;
                      Keychain1.iv := i; Keychain1.data := JS.JObj props |} in
          (exists v, Keychain1.get name k = (Returns v, k))
          /\ (forall secret : string,
                JS.lookup name props = Some (JS.JStr secret) ->
                (secret =? "")%string = false ->
                Keychain1.get name k = (Returns (JS.JStr secret), k))
          /\ (JS.lookup name props = None ->
              JS.inherited JS.object_chain name = JS.JUndefined ->
              Keychain1.get name k = (Returns JS.JNull, k)))
    /\ (forall (d3 sec sec' : JS.Props) (f f' g g' : Keychain3.Field)
               (key key' : bytes),
          fst (Keychain3.get name
                 {| Keychain3.data := d3; Keychain3.secrets := sec;
                    Keychain3.salt := f; Keychain3.iv := g; Keychain3.key := key |})
          = fst (Keychain3.get name
                   {| Keychain3.data := d3; Keychain3.secrets := sec';
                      Keychain3.salt := f'; Keychain3.iv := g';
                      Keychain3.key := key' |}))
    /\ (forall (k : Keychain3.Keychain) (secret : string),
          JS.lookup (Keychain3.encodeBuffer (Keychain3.stringToBuffer name))
            (Keychain3.data k)
          = Some (JS.JStr (Keychain3.encodeBuffer (Keychain3.stringToBuffer secret))) ->
          Keychain3.get name k = (Returns (JS.JStr secret), k))
    /\ (forall k : Keychain3.Keychain,
          JS.lookup (Keychain3.encodeBuffer (Keychain3.stringToBuffer name))
            (Keychain3.data k) = None ->
          starts_a_character name = true ->
          Keychain3.get name k = (Returns JS.JNull, k))
    /\ (forall (pw repr t : string) (rs ri : bytes),
          (t =? "")%string = false ->
          (Hex.encode (sha256 crypto (list_ascii_of_string repr)) =? t)%string = false ->
          (forall k, Keychain3.load crypto pw repr (Some t) rs ri <> Returns k)
          /\ (Keychain3.load crypto pw repr (Some t) rs ri
              = Throws (JsError "Data integrity check failed")
              \/ Keychain3.load crypto pw repr (Some t) rs ri
                 = Keychain3.load crypto pw repr None rs ri)
          /\ (forall k,
                Keychain3.load crypto pw repr None rs ri = Returns k ->
                Keychain3.load crypto pw repr (Some t) rs ri
                = Throws (JsError "Data integrity check failed")))
    /\ (forall (pw : string) (rs ri : bytes) (d : string) (t : option string)
               (rs' ri' : bytes),
          List.length ri = 16 ->
          plain d = true ->
          (forall key : bytes, aes256cbc_open crypto key ri d = None) ->
          Keychain3.load crypto pw (blob3 (Hex.encode rs) (Hex.encode ri) d) t rs' ri'
          = Throws CipherError)
    /\ (forall (pw repr : string) (rs ri : bytes),
          Keychain3.load crypto pw repr None rs ri
          <> Throws (JsError "Data integrity check failed")).
Proof.
  intros crypto name.
  split; [|split; [|split; [|split; [|split; [|split; [|split; [|split]]]]]]].
  - intros. unfold Keychain1.get. cbn [Keychain1.data].
    destruct (JS.GetV d name); reflexivity.
  - intros. subst k. unfold Keychain1.get. cbn [Keychain1.data JS.GetV].
    split; [|split].
    + destruct (JS.lookup name props); [eexists; reflexivity|].
      destruct (name =? "length")%string; eexists; reflexivity.
    + intros secret -> E. cbn [JS.truthy]. now rewrite E.
    + intros -> -> ->. reflexivity.
  - intros. subst k. unfold Keychain1.get. cbn [Keychain1.data JS.GetV].
    unfold JS.obj_get. split; [|split].
    + eexists; reflexivity.
    + intros secret -> E. cbn [JS.truthy]. now rewrite E.
    + intros -> ->. reflexivity.
  - intros. unfold Keychain3.get. cbn [Keychain3.data].
    destruct (negb _); reflexivity.
  - intros k secret H. now apply get3_held.
  - intros k H W. now apply get3_not_held.
  - intros pw repr t rs ri Ht Hd.
    pose proof (load3_mismatch crypto pw repr t rs ri Ht Hd) as M.
    split; [|split].
    + intros k. now apply load3_checks_digest.
    + rewrite M.
      destruct (Keychain3.load crypto pw repr None rs ri) as [k|e|]; auto.
      destruct e; auto.
    + intros k H. rewrite M, H. reflexivity.
  - intros. now apply load3_decipher_first.
  - intros. apply load3_optional_checksum.
Qed.

(** The theorem at the stores and blobs of the examples.  In the first
    listing [get] on the sample store returns the secret it holds and [null]
    for a name it does not hold.  In the third listing [load] returns on a
    blob that the second stand-in opens, a trusted checksum that is not the
    digest turns that into the integrity error, and with the first stand-in,
    whose decipher rejects, the error of the decipher comes before it. *)
Lemma get_authenticates_nothing_witness :
  let opened :=
    blob3 (Hex.encode sample_salt) (Hex.encode sample_iv)
      (Hex.encode (list_ascii_of_string (JSON.q "'x'"))) in
  let store :=
    {| Keychain3.data := []; Keychain3.secrets := [];
       Keychain3.salt := Keychain3.Str (Hex.encode sample_salt);
       Keychain3.iv := Keychain3.Str (Hex.encode sample_iv);
       Keychain3.key := repeat Ascii.zero 32 |} in
  Keychain1.get "0" leaky_store = (Returns (JS.JStr "hunter2"), leaky_store)
  /\ Keychain1.get "1" leaky_store = (Returns JS.JNull, leaky_store)
  /\ Keychain3.load opening_crypto "Correct-Horse9!" opened None [] []
     = Returns store
  /\ Keychain3.load opening_crypto "Correct-Horse9!" opened (Some "00") [] []
     = Throws (JsError "Data integrity check failed")
  /\ Keychain3.load sample_crypto "Correct-Horse9!" opened (Some "00") [] []
     = Throws CipherError.
Proof.
  cbv zeta.
  match goal with
  | |- _ /\ _ /\ ?l /\ _ => assert (L : l) by (vm_compute; reflexivity)
  end.
  destruct (get_authenticates_nothing sample_crypto "0") as (_ & A0 & _).
  destruct (get_authenticates_nothing sample_crypto "1")
    as (_ & A1 & _ & _ & _ & _ & _ & T6 & _).
  destruct (get_authenticates_nothing opening_crypto "example.com")
    as (_ & _ & _ & _ & _ & _ & T5 & _).
  split.
  { exact (proj1 (proj2 (A0 "Correct-Horse9!" sample_salt sample_iv 1%N
                           [("0", JS.JStr "hunter2")]))
             "hunter2" eq_refl eq_refl). }
  split.
  { exact (proj2 (proj2 (A1 "Correct-Horse9!" sample_salt sample_iv 1%N
                           [("0", JS.JStr "hunter2")]))
             eq_refl eq_refl eq_refl). }
  split; [exact L|].
  split.
  - exact (proj2 (proj2 (T5 "Correct-Horse9!" _ "00" [] [] eq_refl eq_refl)) _ L).
  - exact (T6 "Correct-Horse9!" sample_salt sample_iv
             (Hex.encode (list_ascii_of_string (JSON.q "'x'"))) (Some "00") [] []
             eq_refl eq_refl (fun _ => eq_refl)).
Defined.
